(** * CAN communication driver and its unit-test harness

    A shallow embedding of [can_communication.c] and [can_unit_tests.c]
    (CUBoulder-FSAE/Firmware, LaunchXL-F28P65X CAN example), and of the
    LED blink control of [ADC_test.c].

    - Machine integers are [Z]; every [uint32_t] increment is written with
      its wrap-around ([u32]).
    - The static variables of [can_communication.c] form the record
      [Driver]; the driverlib calls the code performs are appended, in
      program order, to the trace [hw] of that record.
    - Fixed-size arrays ([uint8_t data[8]]) are lists updated in place with
      [<[idx := v]>]; the caller-supplied buffer of [CAN_sendMessage] is a
      list read with [!!], so that a read past its end is a fault ([None]).
    - Counted [for] loops recurse on the number of iterations left;
      busy-wait loops recurse on the remaining [timeout]. *)

From stdpp Require Import base numbers option list gmap.

Local Open Scope Z_scope.

(** ** Machine integers *)

Definition UINT32_MAX : Z := 4294967295.

(** Reduction of an arithmetic result to [uint32_t]. *)
Definition u32 (z : Z) : Z := z mod 4294967296.

(** [x++] on a [uint32_t]. *)
Definition incr32 (x : Z) : Z := u32 (x + 1).

(** ** Data structures (can_communication.h) *)

Record CAN_Message_t := mkMessage {
  id : Z;               (* uint32_t id *)
  dlc : Z;              (* uint8_t dlc *)
  data : list Z;        (* uint8_t data[8] *)
  timestamp : Z         (* uint32_t timestamp *)
}.

Record CAN_Stats_t := mkStats {
  messagesTransmitted : Z;
  messagesReceived : Z;
  errorCount : Z;
  lastErrorCode : Z
}.

(** ** Constants that come from device.h and driverlib

    The headers that define these macros are not part of the sources; the
    driver is parametric in their values. *)

Class Device := {
  CANA_BASE : Z;
  SYSCTL_PERIPH_CLK_CANA : Z;
  DEVICE_GPIO_CFG_CANTXA : Z;
  DEVICE_GPIO_CFG_CANRXA : Z;
  DEVICE_SYSCLK_FREQ : Z;
  DEVICE_GPIO_PIN_LED1 : Z;
  DEVICE_GPIO_PIN_LED2 : Z;
  GPIO_DIR_MODE_OUT : Z;
  CAN_MSG_FRAME_STD : Z;
  CAN_MSG_OBJ_TYPE_TX : Z;
  CAN_MSG_OBJ_TYPE_RX : Z;
  CAN_MSG_OBJ_NO_FLAGS : Z;
  CAN_MSG_OBJ_RX_INT_ENABLE : Z;
  CAN_TEST_SILENT : Z;
  CAN_TEST_LBACK : Z;
  CAN_INT_IE0 : Z;
  CAN_INT_ERROR : Z;
  CAN_INT_STATUS : Z;
  CAN_ES_TXWARN : Z;
  CAN_ES_RXWARN : Z;
  CAN_ES_TXERRPASSED : Z;
  CAN_ES_RXERRPASSED : Z;
  CAN_ES_BUSOFF : Z;
  (* the RUN_UNIT_TESTS build flag *)
  RUN_UNIT_TESTS : bool
}.

(** ** The calls into driverlib, as trace events *)

Module Driverlib.

Inductive call :=
| SysCtl_enablePeripheral (periph : Z)
| GPIO_setPinConfig (cfg : Z)
| GPIO_setDirectionMode (pin mode : Z)
| GPIO_writePin (pin outVal : Z)
| GPIO_togglePin (pin : Z)
| CAN_initRAM (base : Z)
| CAN_setBitRate (base clock bitRate : Z)
| CAN_setupMessageObject
    (base objID msgID frame msgType msgIDMask flags msgLen : Z)
| CAN_enableModule (base : Z)
| CAN_setTestMode (base mode : Z)
| CAN_enableInterrupt (base intFlags : Z)
(* the four-argument bus-layer call made inside the driver's send;
   a cell of [msgData] is [None] while it is still indeterminate *)
| CAN_sendMessage (base objID msgLen : Z) (msgData : list (option Z))
(* [loops] executions of asm(" NOP") *)
| NOP (loops : Z).

End Driverlib.

(** ** Global variables of can_communication.c *)

Record Driver := mkDriver {
  canStats : CAN_Stats_t;
  lastRxMessage : CAN_Message_t;
  messageReceived : Z;                 (* volatile uint8_t *)
  hw : list Driverlib.call             (* driverlib calls made so far *)
}.

Definition emit (c : Driverlib.call) (d : Driver) : Driver :=
  mkDriver (canStats d) (lastRxMessage d) (messageReceived d) (hw d ++ [c]).

Definition with_stats (s : CAN_Stats_t) (d : Driver) : Driver :=
  mkDriver s (lastRxMessage d) (messageReceived d) (hw d).

Definition with_flag (f : Z) (d : Driver) : Driver :=
  mkDriver (canStats d) (lastRxMessage d) f (hw d).

(** The static initialisers: [canStats = {0,0,0,0}],
    [lastRxMessage = {0,0,{0},0}], [messageReceived = 0]. *)
Definition boot : Driver :=
  mkDriver (mkStats 0 0 0 0) (mkMessage 0 0 (replicate 8 0) 0) 0 [].

(** ** Configuration parameters (#defines of can_communication.c) *)

Definition CAN_BITRATE_KBPS : Z := 500.
Definition CAN_USE_LOOPBACK : bool := false.
Definition CAN_TX_MSG_ID : Z := 0x123.
Definition CAN_RX_MSG_ID : Z := 0x456.
Definition CAN_ECHO_MSG_ID : Z := 0x789.
Definition CAN_TX_MSG_OBJ : Z := 1.
Definition CAN_RX_MSG_OBJ : Z := 2.

(** ** Test harness data (can_unit_tests.c) *)

Definition TEST_PATTERN_1 : Z := 0xAA.
Definition TEST_PATTERN_2 : Z := 0x55.
Definition TEST_PATTERN_3 : Z := 0xFF.
Definition TEST_PATTERN_4 : Z := 0x00.
Definition TEST_TIMEOUT_LOOPS : Z := 1000000.
Definition TEST_DELAY_LOOPS : Z := 100000.
Definition TEST_PASS : Z := 1.
Definition TEST_FAIL : Z := 0.

Record TestStats_t := mkTestStats {
  testNumber : Z;
  totalTests : Z;
  passedTests : Z;
  failedTests : Z;
  lastTestResult : Z;
  testName : list Z                    (* char testName[64] *)
}.

(** The harness state: the driver's globals and [testStats]. *)
Record Harness := mkHarness {
  driver : Driver;
  testStats : TestStats_t
}.

(** [static TestStats_t testStats = {0, 0, 0, 0, 0, {0}};] *)
Definition testStats_init : TestStats_t :=
  mkTestStats 0 0 0 0 0 (replicate 64 0).

(** What a [while(1)] loop has done when observed after finitely many
    iterations: it is still [Running], or it has [Returned]. *)
Inductive outcome (A : Type) :=
| Running (a : A)
| Returned (a : A).
Arguments Running {A} a.
Arguments Returned {A} a.

(** ** The state of the peripherals

    The driverlib functions the driver calls are not in the sources.
    What they do to the peripherals is taken from the spec: the bit rate
    and each message slot are overwritten by the latest setting, enables
    accumulate, the RAM initialisation empties the slots of its module, a
    pin write sets the indicator and a toggle inverts it. *)

(** Modelled from the spec: the configuration of one message slot, as
    driverlib's [CAN_setupMessageObject] (not in the sources) installs
    it. *)
Record MsgObj := mkMsgObj {
  obj_msgID : Z;
  obj_frame : Z;
  obj_msgType : Z;
  obj_msgIDMask : Z;
  obj_flags : Z;
  obj_msgLen : Z
}.

(** Modelled from the spec: the state of one CAN module, written by
    driverlib's CAN functions (not in the sources). *)
Record CanModule := mkCanModule {
  bit_rate : option (Z * Z);           (* clock, bit rate *)
  objects : gmap Z MsgObj;             (* message slots by object number *)
  module_enabled : bool;
  test_mode : option Z;
  int_enable : Z;                      (* enabled interrupt sources *)
  handed_over : list (Z * Z * list (option Z))
                                       (* frames given to the bus layer *)
}.

(** Modelled from the spec: the peripherals the driver and the harness
    touch through driverlib (not in the sources). *)
Record Hardware := mkHardware {
  periph_clocks : gset Z;
  pin_configs : gset Z;
  pin_dirs : gmap Z Z;
  pin_levels : gmap Z bool;
  can : gmap Z CanModule               (* by module base address *)
}.

Definition can_reset : CanModule := mkCanModule None ∅ false None 0 [].

(** Nothing configured yet. *)
Definition hw_reset : Hardware := mkHardware ∅ ∅ ∅ ∅ ∅.

Definition on_can (base : Z) (f : CanModule → CanModule) (h : Hardware)
    : Hardware :=
  mkHardware (periph_clocks h) (pin_configs h) (pin_dirs h) (pin_levels h)
             (<[base := f (default can_reset (can h !! base))]> (can h)).

(** Modelled from the spec: the effect of one driverlib call (the
    driverlib functions are not in the sources) on the peripherals. *)
Definition hw_step (h : Hardware) (c : Driverlib.call) : Hardware :=
  match c with
  | Driverlib.SysCtl_enablePeripheral periph =>
      mkHardware ({[periph]} ∪ periph_clocks h) (pin_configs h) (pin_dirs h)
                 (pin_levels h) (can h)
  | Driverlib.GPIO_setPinConfig cfg =>
      mkHardware (periph_clocks h) ({[cfg]} ∪ pin_configs h) (pin_dirs h)
                 (pin_levels h) (can h)
  | Driverlib.GPIO_setDirectionMode pin mode =>
      mkHardware (periph_clocks h) (pin_configs h) (<[pin := mode]> (pin_dirs h))
                 (pin_levels h) (can h)
  | Driverlib.GPIO_writePin pin outVal =>
      mkHardware (periph_clocks h) (pin_configs h) (pin_dirs h)
                 (<[pin := negb (outVal =? 0)]> (pin_levels h)) (can h)
  | Driverlib.GPIO_togglePin pin =>
      mkHardware (periph_clocks h) (pin_configs h) (pin_dirs h)
                 (<[pin := negb (default false (pin_levels h !! pin))]>
                    (pin_levels h)) (can h)
  | Driverlib.CAN_initRAM base =>
      on_can base (λ m, mkCanModule (bit_rate m) ∅ (module_enabled m)
                                    (test_mode m) (int_enable m)
                                    (handed_over m)) h
  | Driverlib.CAN_setBitRate base clock bitRate =>
      on_can base (λ m, mkCanModule (Some (clock, bitRate)) (objects m)
                                    (module_enabled m) (test_mode m)
                                    (int_enable m) (handed_over m)) h
  | Driverlib.CAN_setupMessageObject base objID msgID frame msgType
      msgIDMask flags msgLen =>
      on_can base (λ m, mkCanModule (bit_rate m)
                          (<[objID := mkMsgObj msgID frame msgType msgIDMask
                                               flags msgLen]> (objects m))
                          (module_enabled m) (test_mode m) (int_enable m)
                          (handed_over m)) h
  | Driverlib.CAN_enableModule base =>
      on_can base (λ m, mkCanModule (bit_rate m) (objects m) true
                                    (test_mode m) (int_enable m)
                                    (handed_over m)) h
  | Driverlib.CAN_setTestMode base mode =>
      on_can base (λ m, mkCanModule (bit_rate m) (objects m)
                                    (module_enabled m) (Some mode)
                                    (int_enable m) (handed_over m)) h
  | Driverlib.CAN_enableInterrupt base intFlags =>
      on_can base (λ m, mkCanModule (bit_rate m) (objects m)
                                    (module_enabled m) (test_mode m)
                                    (Z.lor (int_enable m) intFlags)
                                    (handed_over m)) h
  | Driverlib.CAN_sendMessage base objID msgLen msgData =>
      on_can base (λ m, mkCanModule (bit_rate m) (objects m)
                                    (module_enabled m) (test_mode m)
                                    (int_enable m)
                                    (handed_over m ++ [(objID, msgLen, msgData)])) h
  | Driverlib.NOP _ => h
  end.

(** The peripherals after the calls of a trace, starting from [h0]. *)
Definition hardware_from (h0 : Hardware) (trace : list Driverlib.call)
    : Hardware :=
  foldl hw_step h0 trace.

Definition is_initRAM (c : Driverlib.call) : bool :=
  match c with
  | Driverlib.CAN_initRAM _ => true
  | _ => false
  end.

(** Number of times the initialisation sequence was started in a trace:
    [CAN_initModule] is the only caller of [CAN_initRAM]. *)
Definition init_calls (trace : list Driverlib.call) : nat :=
  length (List.filter is_initRAM trace).

(** ** The receive notification path

    The frames that arrive while the foreground code runs.  One entry is
    consumed each time the foreground is about to look at the mailbox:
    [Some m] when frame [m] was latched since the previous look, [None]
    when nothing arrived.  The empty list is the program on its own, with
    no frame ever arriving. *)
Definition Env := list (option CAN_Message_t).

(** Modelled from the spec: the asynchronous completion handler, which is
    not in the sources.  It latches the frame into the single receive slot
    (overwriting an unconsumed one) and sets the availability flag. *)
Definition latch (m : CAN_Message_t) (d : Driver) : Driver :=
  mkDriver (canStats d) m 1 (hw d).

Definition isr (env : Env) (d : Driver) : Env * Driver :=
  match env with
  | [] => ([], d)
  | None :: env' => (env', d)
  | Some m :: env' => (env', latch m d)
  end.

(** The single receive slot as the foreground sees it: the latched frame
    when the availability flag is set. *)
Definition slot_of (d : Driver) : option CAN_Message_t :=
  if messageReceived d =? 0 then None else Some (lastRxMessage d).

(** The spec's reading of a bounded poll: with a retry budget of [budget]
    polls, arrivals [env] and mailbox contents [slot], the frame that is
    consumed before the budget is exhausted, if any.  A frame that arrives
    before a poll overwrites the one in the mailbox; the first poll that
    finds the mailbox full consumes its contents. *)
Fixpoint spec_consumed (budget : nat) (env : Env)
    (slot : option CAN_Message_t) : option CAN_Message_t :=
  match budget with
  | O => None
  | S budget' =>
      match (match env with Some m :: _ => Some m | _ => slot end) with
      | Some m => Some m
      | None => spec_consumed budget' (tail env) None
      end
  end.

(** A sample assignment of the device constants, used to run the model
    on concrete inputs. *)
Definition launchxl : Device := {|
  CANA_BASE := 0x48000;
  SYSCTL_PERIPH_CLK_CANA := 0x000A;
  DEVICE_GPIO_CFG_CANTXA := 0x00060806;
  DEVICE_GPIO_CFG_CANRXA := 0x00060A06;
  DEVICE_SYSCLK_FREQ := 200000000;
  DEVICE_GPIO_PIN_LED1 := 31;
  DEVICE_GPIO_PIN_LED2 := 34;
  GPIO_DIR_MODE_OUT := 1;
  CAN_MSG_FRAME_STD := 0;
  CAN_MSG_OBJ_TYPE_TX := 0;
  CAN_MSG_OBJ_TYPE_RX := 2;
  CAN_MSG_OBJ_NO_FLAGS := 0;
  CAN_MSG_OBJ_RX_INT_ENABLE := 0x400;
  CAN_TEST_SILENT := 0x08;
  CAN_TEST_LBACK := 0x10;
  CAN_INT_IE0 := 0x02;
  CAN_INT_ERROR := 0x08;
  CAN_INT_STATUS := 0x04;
  CAN_ES_TXWARN := 0x08;
  CAN_ES_RXWARN := 0x10;
  CAN_ES_TXERRPASSED := 0x20;
  CAN_ES_RXERRPASSED := 0x40;
  CAN_ES_BUSOFF := 0x80;
  RUN_UNIT_TESTS := true
|}.

(** The same board built without [RUN_UNIT_TESTS] (normal operation). *)
Definition launchxl_normal : Device := {|
  CANA_BASE := 0x48000;
  SYSCTL_PERIPH_CLK_CANA := 0x000A;
  DEVICE_GPIO_CFG_CANTXA := 0x00060806;
  DEVICE_GPIO_CFG_CANRXA := 0x00060A06;
  DEVICE_SYSCLK_FREQ := 200000000;
  DEVICE_GPIO_PIN_LED1 := 31;
  DEVICE_GPIO_PIN_LED2 := 34;
  GPIO_DIR_MODE_OUT := 1;
  CAN_MSG_FRAME_STD := 0;
  CAN_MSG_OBJ_TYPE_TX := 0;
  CAN_MSG_OBJ_TYPE_RX := 2;
  CAN_MSG_OBJ_NO_FLAGS := 0;
  CAN_MSG_OBJ_RX_INT_ENABLE := 0x400;
  CAN_TEST_SILENT := 0x08;
  CAN_TEST_LBACK := 0x10;
  CAN_INT_IE0 := 0x02;
  CAN_INT_ERROR := 0x08;
  CAN_INT_STATUS := 0x04;
  CAN_ES_TXWARN := 0x08;
  CAN_ES_RXWARN := 0x10;
  CAN_ES_TXERRPASSED := 0x20;
  CAN_ES_RXERRPASSED := 0x40;
  CAN_ES_BUSOFF := 0x80;
  RUN_UNIT_TESTS := false
|}.

(** Sample data for running the model. *)
Definition blank_msg : CAN_Message_t := mkMessage 0 0 (replicate 8 0) 0.
Definition blank_stats : CAN_Stats_t := mkStats 0 0 0 0.
Definition short_msg : CAN_Message_t :=
  mkMessage 0x456 3 [0xDE; 0xAD; 0xBE; 0; 0; 0; 0; 0] 0.
Definition pattern_msg : CAN_Message_t :=
  mkMessage 0x456 8 [0x01; 0x02; 0x03; 0x04; 0x05; 0x06; 0x07; 0x08] 0.

Section Driver.

Context `{dev : Device}.

(** Indeterminate initial contents of uninitialised locals. *)
Variable uninit_msg : CAN_Message_t.
Variable uninit_stats : CAN_Stats_t.

Definition CAN_MODULE : Z := CANA_BASE.
Definition STATUS_LED_PIN : Z := DEVICE_GPIO_PIN_LED1.
Definition ERROR_LED_PIN : Z := DEVICE_GPIO_PIN_LED2.

(** ** CAN_sendMessage *)

(** [for(idx = 0U; idx < dlc; idx++) msgData[idx] = data[idx];]
    with [n] iterations left.  Reading [data[idx]] outside the caller's
    buffer is a fault. *)
Fixpoint send_copy_loop (n : nat) (idx : nat) (data : list Z)
    (msgData : list (option Z)) : option (nat * list (option Z)) :=
  match n with
  | O => Some (idx, msgData)
  | S n' =>
      match data !! idx with
      | None => None
      | Some b => send_copy_loop n' (S idx) data (<[idx := Some b]> msgData)
      end
  end.

(** [for(; idx < 8U; idx++) msgData[idx] = 0U;] with [n] iterations left. *)
Fixpoint send_pad_loop (n : nat) (idx : nat) (msgData : list (option Z))
    : nat * list (option Z) :=
  match n with
  | O => (idx, msgData)
  | S n' => send_pad_loop n' (S idx) (<[idx := Some 0]> msgData)
  end.

Definition CAN_sendMessage (msgId : Z) (data : list Z) (dlc : Z) (d : Driver)
    : option Driver :=
  let dlc := if 8 <? dlc then 8 else dlc in
  (* uint8_t msgData[8]; *)
  let msgData := replicate 8 None in
  match send_copy_loop (Z.to_nat dlc) 0 data msgData with
  | None => None
  | Some (idx, msgData) =>
      let '(idx, msgData) := send_pad_loop (8 - idx) idx msgData in
      let d := emit (Driverlib.CAN_sendMessage CAN_MODULE CAN_TX_MSG_OBJ
                       dlc msgData) d in
      Some (with_stats
              (mkStats (incr32 (messagesTransmitted (canStats d)))
                       (messagesReceived (canStats d))
                       (errorCount (canStats d))
                       (lastErrorCode (canStats d))) d)
  end.

(** The driver state after a send that handed [len] and [frame] to the
    bus layer. *)
Definition after_send (len : Z) (frame : list (option Z)) (d : Driver)
    : Driver :=
  mkDriver (mkStats (incr32 (messagesTransmitted (canStats d)))
                    (messagesReceived (canStats d))
                    (errorCount (canStats d))
                    (lastErrorCode (canStats d)))
           (lastRxMessage d) (messageReceived d)
           (hw d ++ [Driverlib.CAN_sendMessage CAN_MODULE CAN_TX_MSG_OBJ
                       len frame]).

(** ** CAN_initModule *)

Definition CAN_initModule (d : Driver) : Driver :=
  let d := emit (Driverlib.SysCtl_enablePeripheral SYSCTL_PERIPH_CLK_CANA) d in
  let d := emit (Driverlib.GPIO_setPinConfig DEVICE_GPIO_CFG_CANTXA) d in
  let d := emit (Driverlib.GPIO_setPinConfig DEVICE_GPIO_CFG_CANRXA) d in
  let d := emit (Driverlib.CAN_initRAM CAN_MODULE) d in
  let d := emit (Driverlib.CAN_setBitRate CAN_MODULE DEVICE_SYSCLK_FREQ
                   (CAN_BITRATE_KBPS * 1000)) d in
  let d := emit (Driverlib.CAN_setupMessageObject CAN_MODULE CAN_TX_MSG_OBJ
                   CAN_TX_MSG_ID CAN_MSG_FRAME_STD CAN_MSG_OBJ_TYPE_TX
                   0 CAN_MSG_OBJ_NO_FLAGS 8) d in
  let d := emit (Driverlib.CAN_setupMessageObject CAN_MODULE CAN_RX_MSG_OBJ
                   CAN_RX_MSG_ID CAN_MSG_FRAME_STD CAN_MSG_OBJ_TYPE_RX
                   0 CAN_MSG_OBJ_RX_INT_ENABLE 8) d in
  let d := emit (Driverlib.CAN_enableModule CAN_MODULE) d in
  (* #if CAN_USE_LOOPBACK *)
  let d := if CAN_USE_LOOPBACK
           then emit (Driverlib.CAN_setTestMode CAN_MODULE
                        (Z.lor CAN_TEST_SILENT CAN_TEST_LBACK)) d
           else d in
  emit (Driverlib.CAN_enableInterrupt CAN_MODULE
          (Z.lor (Z.lor CAN_INT_IE0 CAN_INT_ERROR) CAN_INT_STATUS)) d.

(** The driverlib calls one run of [CAN_initModule] makes, in order
    (loopback is compiled out: [CAN_USE_LOOPBACK] is 0). *)
Definition init_trace : list Driverlib.call :=
  [Driverlib.SysCtl_enablePeripheral SYSCTL_PERIPH_CLK_CANA;
   Driverlib.GPIO_setPinConfig DEVICE_GPIO_CFG_CANTXA;
   Driverlib.GPIO_setPinConfig DEVICE_GPIO_CFG_CANRXA;
   Driverlib.CAN_initRAM CAN_MODULE;
   Driverlib.CAN_setBitRate CAN_MODULE DEVICE_SYSCLK_FREQ
     (CAN_BITRATE_KBPS * 1000);
   Driverlib.CAN_setupMessageObject CAN_MODULE CAN_TX_MSG_OBJ
     CAN_TX_MSG_ID CAN_MSG_FRAME_STD CAN_MSG_OBJ_TYPE_TX
     0 CAN_MSG_OBJ_NO_FLAGS 8;
   Driverlib.CAN_setupMessageObject CAN_MODULE CAN_RX_MSG_OBJ
     CAN_RX_MSG_ID CAN_MSG_FRAME_STD CAN_MSG_OBJ_TYPE_RX
     0 CAN_MSG_OBJ_RX_INT_ENABLE 8;
   Driverlib.CAN_enableModule CAN_MODULE;
   Driverlib.CAN_enableInterrupt CAN_MODULE
     (Z.lor (Z.lor CAN_INT_IE0 CAN_INT_ERROR) CAN_INT_STATUS)].

(** The two message slots [CAN_initModule] installs. *)
Definition tx_slot : MsgObj :=
  mkMsgObj CAN_TX_MSG_ID CAN_MSG_FRAME_STD CAN_MSG_OBJ_TYPE_TX
           0 CAN_MSG_OBJ_NO_FLAGS 8.

Definition rx_slot : MsgObj :=
  mkMsgObj CAN_RX_MSG_ID CAN_MSG_FRAME_STD CAN_MSG_OBJ_TYPE_RX
           0 CAN_MSG_OBJ_RX_INT_ENABLE 8.

(** The peripherals after one run of [CAN_initModule] from [h]. *)
Definition initialised (h : Hardware) : Hardware :=
  let m := default can_reset (can h !! CAN_MODULE) in
  mkHardware
    ({[SYSCTL_PERIPH_CLK_CANA]} ∪ periph_clocks h)
    ({[DEVICE_GPIO_CFG_CANRXA]} ∪ ({[DEVICE_GPIO_CFG_CANTXA]} ∪ pin_configs h))
    (pin_dirs h) (pin_levels h)
    (<[CAN_MODULE :=
         mkCanModule (Some (DEVICE_SYSCLK_FREQ, CAN_BITRATE_KBPS * 1000))
                     (<[CAN_RX_MSG_OBJ := rx_slot]>
                        (<[CAN_TX_MSG_OBJ := tx_slot]> ∅))
                     true (test_mode m)
                     (Z.lor (int_enable m)
                        (Z.lor (Z.lor CAN_INT_IE0 CAN_INT_ERROR)
                               CAN_INT_STATUS))
                     (handed_over m)]> (can h)).

(** ** CAN_receiveMessage *)

(** [for(idx = 0U; idx < 8U; idx++) msg->data[idx] = lastRxMessage.data[idx];]
    with [n] iterations left. *)
Fixpoint receive_copy_loop (n : nat) (idx : nat) (src dst : list Z) : list Z :=
  match n with
  | O => dst
  | S n' => receive_copy_loop n' (S idx) src (<[idx := src !!! idx]> dst)
  end.

(** [msg] is the object the (non-null) pointer argument designates; the
    function returns its return value, the object afterwards and the new
    driver state. *)
Definition CAN_receiveMessage (msg : CAN_Message_t) (d : Driver)
    : Z * CAN_Message_t * Driver :=
  if messageReceived d =? 0 then (0, msg, d)
  else
    let msg := mkMessage (id (lastRxMessage d)) (dlc msg) (data msg)
                         (timestamp msg) in
    let msg := mkMessage (id msg) (dlc (lastRxMessage d)) (data msg)
                         (timestamp msg) in
    let msg := mkMessage (id msg) (dlc msg)
                         (receive_copy_loop 8 0 (data (lastRxMessage d))
                                            (data msg))
                         (timestamp msg) in
    let msg := mkMessage (id msg) (dlc msg) (data msg)
                         (timestamp (lastRxMessage d)) in
    let d := with_flag 0 d in
    let d := with_stats
               (mkStats (messagesTransmitted (canStats d))
                        (incr32 (messagesReceived (canStats d)))
                        (errorCount (canStats d))
                        (lastErrorCode (canStats d))) d in
    (1, msg, d).

(** The driver state after a receive that consumed the latched frame. *)
Definition after_receive (d : Driver) : Driver :=
  mkDriver (mkStats (messagesTransmitted (canStats d))
                    (incr32 (messagesReceived (canStats d)))
                    (errorCount (canStats d))
                    (lastErrorCode (canStats d)))
           (lastRxMessage d) 0 (hw d).

(** ** CAN_processMessage *)

Definition CAN_processMessage (msgId : Z) (data : list Z) (dlc : Z)
    (d : Driver) : option Driver :=
  if msgId =? CAN_RX_MSG_ID then
    (* #ifdef RUN_UNIT_TESTS *)
    if RUN_UNIT_TESTS then CAN_sendMessage CAN_ECHO_MSG_ID data dlc d
    else Some d
  else if msgId =? CAN_ECHO_MSG_ID then Some d
  else Some d.

(** ** LED helpers *)

Definition CAN_setLED (gpio state : Z) (d : Driver) : Driver :=
  emit (Driverlib.GPIO_writePin gpio state) d.

Definition CAN_toggleLED (gpio : Z) (d : Driver) : Driver :=
  emit (Driverlib.GPIO_togglePin gpio) d.

(** ** CAN_errorHandler *)

(** The truth value of a C scalar used as a condition. *)
Definition c_true (z : Z) : bool := negb (z =? 0).

Definition CAN_errorHandler (errorStatus : Z) (d : Driver) : Driver :=
  let d := with_stats
             (mkStats (messagesTransmitted (canStats d))
                      (messagesReceived (canStats d))
                      (incr32 (errorCount (canStats d)))
                      (lastErrorCode (canStats d))) d in
  let d := with_stats
             (mkStats (messagesTransmitted (canStats d))
                      (messagesReceived (canStats d))
                      (errorCount (canStats d))
                      errorStatus) d in
  let d := CAN_setLED ERROR_LED_PIN 1 d in
  let d := if c_true (Z.land errorStatus CAN_ES_TXWARN) then d else d in
  let d := if c_true (Z.land errorStatus CAN_ES_RXWARN) then d else d in
  let d := if c_true (Z.land errorStatus CAN_ES_TXERRPASSED) then d else d in
  let d := if c_true (Z.land errorStatus CAN_ES_RXERRPASSED) then d else d in
  if c_true (Z.land errorStatus CAN_ES_BUSOFF) then CAN_initModule d else d.

(** The driver state after the unconditional part of the fault handler:
    the error is counted and recorded and the error LED is written. *)
Definition after_fault (errorStatus : Z) (d : Driver) : Driver :=
  mkDriver (mkStats (messagesTransmitted (canStats d))
                    (messagesReceived (canStats d))
                    (incr32 (errorCount (canStats d)))
                    errorStatus)
           (lastRxMessage d) (messageReceived d)
           (hw d ++ [Driverlib.GPIO_writePin ERROR_LED_PIN 1]).

(** ** CAN_getStats *)

(** The pointer argument is [None] when null and [Some s] when it
    designates an object whose current contents are [s]. *)
Definition CAN_getStats (stats : option CAN_Stats_t) (d : Driver)
    : Z * option CAN_Stats_t * Driver :=
  match stats with
  | None => (0, None, d)
  | Some s =>
      let s := mkStats (messagesTransmitted (canStats d)) (messagesReceived s)
                       (errorCount s) (lastErrorCode s) in
      let s := mkStats (messagesTransmitted s) (messagesReceived (canStats d))
                       (errorCount s) (lastErrorCode s) in
      let s := mkStats (messagesTransmitted s) (messagesReceived s)
                       (errorCount (canStats d)) (lastErrorCode s) in
      let s := mkStats (messagesTransmitted s) (messagesReceived s)
                       (errorCount s) (lastErrorCode (canStats d)) in
      (1, Some s, d)
  end.

(** ** Test functions of can_communication.c *)

(** [while((timeout > 0U) && (messageReceived == 0U)) timeout--;] *)
Fixpoint flag_wait (timeout : nat) (env : Env) (d : Driver)
    : nat * Env * Driver :=
  match timeout with
  | O => (O, env, d)
  | S timeout' =>
      let '(env, d) := isr env d in
      if messageReceived d =? 0 then flag_wait timeout' env d
      else (timeout, env, d)
  end.

(** The comparison loop of [CAN_testLoopback], [n] iterations left. *)
Fixpoint loopback_compare (n : nat) (idx : nat) (rx testData : list Z)
    (dataMatches : Z) : Z :=
  match n with
  | O => dataMatches
  | S n' =>
      loopback_compare n' (S idx) rx testData
        (if bool_decide (rx !!! idx ≠ testData !!! idx) then 0
         else dataMatches)
  end.

Definition bump_errorCount (d : Driver) : Driver :=
  with_stats (mkStats (messagesTransmitted (canStats d))
                      (messagesReceived (canStats d))
                      (incr32 (errorCount (canStats d)))
                      (lastErrorCode (canStats d))) d.

Definition CAN_testLoopback (env : Env) (d : Driver) : option (Env * Driver) :=
  let testData := [0x11; 0x22; 0x33; 0x44; 0x55; 0x66; 0x77; 0x88] in
  d ← CAN_sendMessage CAN_TX_MSG_ID testData 8 d;
  let '(timeout, env, d) := flag_wait (Z.to_nat 100000) env d in
  if c_true (messageReceived d) && (dlc (lastRxMessage d) =? 8) then
    let dataMatches :=
      loopback_compare 8 0 (data (lastRxMessage d)) testData 1 in
    if c_true dataMatches then Some (env, with_flag 0 d)
    else Some (env, bump_errorCount d)
  else Some (env, bump_errorCount d).

Definition CAN_testTransmit (d : Driver) : option Driver :=
  let txData := [0xAA; 0xBB; 0xCC; 0xDD; 0xEE; 0xFF; 0x00; 0x11] in
  CAN_sendMessage CAN_TX_MSG_ID txData 8 d.

(** [while((timeout > 0U) && (CAN_receiveMessage(&rxMsg) == 0U)) timeout--;]
    Returns the value of [timeout] on exit. *)
Fixpoint receive_wait (timeout : nat) (rxMsg : CAN_Message_t) (env : Env)
    (d : Driver) : nat * CAN_Message_t * Env * Driver :=
  match timeout with
  | O => (O, rxMsg, env, d)
  | S timeout' =>
      let '(env, d) := isr env d in
      let '(r, rxMsg, d) := CAN_receiveMessage rxMsg d in
      if r =? 0 then receive_wait timeout' rxMsg env d
      else (timeout, rxMsg, env, d)
  end.

Definition CAN_testReceive (env : Env) (d : Driver) : Env * Driver :=
  let '(timeout, rxMsg, env, d) :=
    receive_wait (Z.to_nat 1000000) uninit_msg env d in
  if 0 <? messagesReceived (canStats d) then (env, d)
  else (env, bump_errorCount d).

(** ** The two loops of can_communication.c that do not return *)

(** The body of the [while(1)] of [main] (normal operation): every
    100000th iteration sends the test message, and every iteration polls
    for a frame and processes it.  Returns the new [counter]. *)
Definition main_loop_body (counter : Z) (env : Env) (d : Driver)
    : option (Z * Env * Driver) :=
  let counter := incr32 counter in
  '(counter, d) ←
    (if 100000 <=? counter then
       let txData := [0xAA; 0xBB; 0xCC; 0xDD; 0x11; 0x22; 0x33; 0x44] in
       d ← CAN_sendMessage CAN_TX_MSG_ID txData 8 d;
       Some (0, CAN_toggleLED STATUS_LED_PIN d)
     else Some (counter, d));
  (* CAN_Message_t rxMsg; *)
  let '(env, d) := isr env d in
  let '(r, rxMsg, d) := CAN_receiveMessage uninit_msg d in
  if c_true r then
    d ← CAN_processMessage (id rxMsg) (data rxMsg) (dlc rxMsg) d;
    Some (counter, env, CAN_toggleLED STATUS_LED_PIN d)
  else Some (counter, env, d).

(** The final [while(1)] of the [CAN_runUnitTests] of can_communication.c,
    observed after [fuel] iterations. *)
Fixpoint status_blink_loop (fuel : nat) (blinkRate counter : Z) (d : Driver)
    : outcome (Z * Driver) :=
  match fuel with
  | O => Running (counter, d)
  | S fuel' =>
      let counter := incr32 counter in
      if blinkRate <=? counter
      then status_blink_loop fuel' blinkRate 0 (CAN_toggleLED STATUS_LED_PIN d)
      else status_blink_loop fuel' blinkRate counter d
  end.

(** [CAN_runUnitTests] as can_communication.c defines it (can_unit_tests.c
    defines another function of the same name, see [CAN_runUnitTests]
    below).  It clears the statistics itself. *)
Definition CAN_runUnitTests_builtin (fuel : nat) (env : Env) (d : Driver)
    : option (Env * outcome (Z * Driver)) :=
  let testsPassed := 0 in
  let testsFailed := 0 in
  let d := with_stats (mkStats 0 (messagesReceived (canStats d))
                               (errorCount (canStats d))
                               (lastErrorCode (canStats d))) d in
  let d := with_stats (mkStats (messagesTransmitted (canStats d)) 0
                               (errorCount (canStats d))
                               (lastErrorCode (canStats d))) d in
  let d := with_stats (mkStats (messagesTransmitted (canStats d))
                               (messagesReceived (canStats d)) 0
                               (lastErrorCode (canStats d))) d in
  (* #if CAN_USE_LOOPBACK *)
  '(testsPassed, testsFailed, env, d) ←
    (if CAN_USE_LOOPBACK then
       '(env, d) ← CAN_testLoopback env d;
       if (0 <? messagesReceived (canStats d))
          && (errorCount (canStats d) =? 0)
       then Some (incr32 testsPassed, testsFailed, env,
                  CAN_setLED STATUS_LED_PIN 1 d)
       else Some (testsPassed, incr32 testsFailed, env,
                  CAN_setLED ERROR_LED_PIN 1 d)
     else Some (testsPassed, testsFailed, env, d));
  let d := with_stats (mkStats 0 (messagesReceived (canStats d))
                               (errorCount (canStats d))
                               (lastErrorCode (canStats d))) d in
  d ← CAN_testTransmit d;
  let '(testsPassed, testsFailed) :=
    if 1 <=? messagesTransmitted (canStats d)
    then (incr32 testsPassed, testsFailed)
    else (testsPassed, incr32 testsFailed) in
  let blinkRate := if testsFailed =? 0 then 50000 else 200000 in
  Some (env, status_blink_loop fuel blinkRate 0 d).

(** The state a [while(1)] loop is observed in. *)
Definition observed {A} (o : outcome A) : A :=
  match o with Running a | Returned a => a end.

(** ** Sequences of calls into the driver *)

Inductive Op :=
| OpInit
| OpSend (msgId : Z) (data : list Z) (dlc : Z)
| OpReceive (msg : CAN_Message_t)
| OpProcess (msgId : Z) (data : list Z) (dlc : Z)
| OpError (errorStatus : Z)
| OpSetLED (gpio state : Z)
| OpToggleLED (gpio : Z)
| OpGetStats (stats : option CAN_Stats_t)
| OpTestLoopback
| OpTestTransmit
| OpTestReceive
(* one iteration of the loop of [main], with its local [counter] *)
| OpMainLoopBody (counter : Z)
(* the built-in [CAN_runUnitTests], observed after [fuel] iterations of
   its final loop *)
| OpRunUnitTests (fuel : nat).

(** The four operations of the driver's public contract. *)
Definition contract_op (o : Op) : bool :=
  match o with
  | OpSend _ _ _ | OpReceive _ | OpGetStats _ | OpError _ => true
  | _ => false
  end.

Definition is_send (o : Op) : bool :=
  match o with OpSend _ _ _ => true | _ => false end.

Definition is_receive (o : Op) : bool :=
  match o with OpReceive _ => true | _ => false end.

(** Number of sends, and of receive polls, in a sequence. *)
Definition count_sends (ops : list Op) : nat :=
  length (List.filter is_send ops).

Definition count_receives (ops : list Op) : nat :=
  length (List.filter is_receive ops).

Definition run_op (o : Op) (env : Env) (d : Driver) : option (Env * Driver) :=
  match o with
  | OpInit => Some (env, CAN_initModule d)
  | OpSend msgId data dlc => d ← CAN_sendMessage msgId data dlc d; Some (env, d)
  | OpReceive msg =>
      let '(env, d) := isr env d in
      Some (env, (CAN_receiveMessage msg d).2)
  | OpProcess msgId data dlc =>
      d ← CAN_processMessage msgId data dlc d; Some (env, d)
  | OpError errorStatus => Some (env, CAN_errorHandler errorStatus d)
  | OpSetLED gpio state => Some (env, CAN_setLED gpio state d)
  | OpToggleLED gpio => Some (env, CAN_toggleLED gpio d)
  | OpGetStats stats => Some (env, (CAN_getStats stats d).2)
  | OpTestLoopback => CAN_testLoopback env d
  | OpTestTransmit => d ← CAN_testTransmit d; Some (env, d)
  | OpTestReceive => Some (CAN_testReceive env d)
  | OpMainLoopBody counter =>
      '(_, env, d) ← main_loop_body counter env d; Some (env, d)
  | OpRunUnitTests fuel =>
      '(env, o) ← CAN_runUnitTests_builtin fuel env d; Some (env, (observed o).2)
  end.

Fixpoint run (ops : list Op) (env : Env) (d : Driver) : option (Env * Driver) :=
  match ops with
  | [] => Some (env, d)
  | o :: ops' => '(env, d) ← run_op o env d; run ops' env d
  end.

(** ** can_unit_tests.c: helpers *)

Definition on_driver (f : Driver → Driver) (h : Harness) : Harness :=
  mkHarness (f (driver h)) (testStats h).

Definition Test_printResult (result : Z) (h : Harness) : Harness :=
  let t := testStats h in
  let t := mkTestStats (testNumber t) (totalTests t) (passedTests t)
                       (failedTests t) result (testName t) in
  if result =? TEST_PASS then
    let t := mkTestStats (testNumber t) (totalTests t)
                         (incr32 (passedTests t)) (failedTests t)
                         (lastTestResult t) (testName t) in
    mkHarness (emit (Driverlib.GPIO_writePin DEVICE_GPIO_PIN_LED1 1) (driver h)) t
  else
    let t := mkTestStats (testNumber t) (totalTests t) (passedTests t)
                         (incr32 (failedTests t))
                         (lastTestResult t) (testName t) in
    mkHarness (emit (Driverlib.GPIO_writePin DEVICE_GPIO_PIN_LED2 1) (driver h)) t.

(** [for(i = 0U; i < loops; i++) asm(" NOP");] *)
Definition Test_delay (loops : Z) (d : Driver) : Driver :=
  emit (Driverlib.NOP loops) d.

Definition Test_initStatusLEDs (d : Driver) : Driver :=
  let d := emit (Driverlib.GPIO_setDirectionMode DEVICE_GPIO_PIN_LED1
                   GPIO_DIR_MODE_OUT) d in
  let d := emit (Driverlib.GPIO_setDirectionMode DEVICE_GPIO_PIN_LED2
                   GPIO_DIR_MODE_OUT) d in
  let d := emit (Driverlib.GPIO_writePin DEVICE_GPIO_PIN_LED1 0) d in
  emit (Driverlib.GPIO_writePin DEVICE_GPIO_PIN_LED2 0) d.

(** [CAN_Stats_t s; CAN_getStats(&s);] : the return value and [s] afterwards. *)
Definition getStats_local (d : Driver) : Z * CAN_Stats_t * Driver :=
  let '(r, p, d) := CAN_getStats (Some uninit_stats) d in
  (r, default uninit_stats p, d).

(** ** can_unit_tests.c: the six tests *)

Definition Test_CAN_BasicInitialization (d : Driver) : Z * Driver :=
  let '(r, stats, d) := getStats_local d in
  if negb (r =? 1) then (TEST_FAIL, d)
  else if negb (messagesTransmitted stats =? 0)
          || negb (messagesReceived stats =? 0) then (TEST_FAIL, d)
  else (TEST_PASS, d).

(** The source declares [statsBeforeTx] with a garbled declarator
    ([CAN_Stats_t statsBeforeWhen tx, statsAfter;]); it is read here as the
    [statsBeforeTx] the body uses. *)
Definition Test_CAN_TransmitMessage (d : Driver) : option (Z * Driver) :=
  let txData := [TEST_PATTERN_1; TEST_PATTERN_2; TEST_PATTERN_3;
                 TEST_PATTERN_4; 0x11; 0x22; 0x33; 0x44] in
  let '(_, statsBeforeTx, d) := getStats_local d in
  d ← CAN_sendMessage 0x123 txData 8 d;
  let d := Test_delay TEST_DELAY_LOOPS d in
  let '(_, statsAfter, d) := getStats_local d in
  if messagesTransmitted statsBeforeTx <? messagesTransmitted statsAfter
  then Some (TEST_PASS, d)
  else Some (TEST_FAIL, d).

Definition Test_CAN_ReceiveMessage (env : Env) (d : Driver)
    : Z * Env * Driver :=
  let '(_, statsBeforeRx, d) := getStats_local d in
  let '(timeout, rxMsg, env, d) :=
    receive_wait (Z.to_nat TEST_TIMEOUT_LOOPS) uninit_msg env d in
  let '(_, statsAfter, d) := getStats_local d in
  if (0 <? Z.of_nat timeout)
     && (messagesReceived statsBeforeRx <? messagesReceived statsAfter)
  then
    if (0 <? dlc rxMsg) && (dlc rxMsg <=? 8) then (TEST_PASS, env, d)
    else (TEST_FAIL, env, d)
  else (TEST_FAIL, env, d).

(** The comparison loop of [Test_CAN_DataIntegrity] (with its [break]),
    [n] iterations left. *)
Fixpoint integrity_compare (n : nat) (idx : nat) (rx tx : list Z)
    (dataMatches : Z) : Z :=
  match n with
  | O => dataMatches
  | S n' =>
      if bool_decide (rx !!! idx ≠ tx !!! idx) then 0
      else integrity_compare n' (S idx) rx tx dataMatches
  end.

Definition Test_CAN_DataIntegrity (env : Env) (d : Driver)
    : option (Z * Env * Driver) :=
  let txData := [0x01; 0x02; 0x03; 0x04; 0x05; 0x06; 0x07; 0x08] in
  d ← CAN_sendMessage 0x456 txData 8 d;
  let d := Test_delay TEST_DELAY_LOOPS d in
  let '(timeout, rxMsg, env, d) :=
    receive_wait (Z.to_nat TEST_TIMEOUT_LOOPS) uninit_msg env d in
  if Z.of_nat timeout =? 0 then Some (TEST_FAIL, env, d)
  else if negb (dlc rxMsg =? 8) then Some (TEST_FAIL, env, d)
  else
    let dataMatches := integrity_compare 8 0 (data rxMsg) txData 1 in
    Some (if c_true dataMatches then TEST_PASS else TEST_FAIL, env, d).

(** The sending loop of [Test_CAN_SequentialMessages], [n] iterations left. *)
Fixpoint sequential_loop (n : nat) (idx : Z) (d : Driver) : option Driver :=
  match n with
  | O => Some d
  | S n' =>
      let txData := [Z.land idx 0xFF; Z.land (Z.shiftr idx 8) 0xFF;
                     0xAA; 0xBB; 0xCC; 0xDD; 0xEE; 0xFF] in
      d ← CAN_sendMessage (u32 (0x789 + idx)) txData 8 d;
      let d := Test_delay (TEST_DELAY_LOOPS / 5) d in
      sequential_loop n' (idx + 1) d
  end.

Definition Test_CAN_SequentialMessages (d : Driver) : option (Z * Driver) :=
  let '(_, statsBefore, d) := getStats_local d in
  d ← sequential_loop 5 0 d;
  let d := Test_delay TEST_DELAY_LOOPS d in
  let '(_, statsAfter, d) := getStats_local d in
  if 5 <=? u32 (messagesTransmitted statsAfter
                - messagesTransmitted statsBefore)
  then Some (TEST_PASS, d)
  else Some (TEST_FAIL, d).

Definition Test_CAN_ErrorHandling (d : Driver) : Z * Driver :=
  let '(_, stats, d) := getStats_local d in
  if errorCount stats =? 0 then (TEST_PASS, d) else (TEST_FAIL, d).

(** ** can_unit_tests.c: CAN_runUnitTests *)

(** [if(T() == TEST_PASS) Test_printResult(TEST_PASS);
     else Test_printResult(TEST_FAIL);] *)
Definition report (result : Z) (h : Harness) : Harness :=
  if result =? TEST_PASS then Test_printResult TEST_PASS h
  else Test_printResult TEST_FAIL h.

(** The harness after a test returned [result] in driver state [d]: the
    result is recorded and the inter-test delay runs. *)
Definition record_and_delay (result : Z) (d : Driver) (loops : Z)
    (h : Harness) : Harness :=
  on_driver (Test_delay loops) (report result (mkHarness d (testStats h))).

(** Test 1 and the delay after it. *)
Definition stage_BasicInitialization (h : Harness) : Harness :=
  let '(r, d) := Test_CAN_BasicInitialization (driver h) in
  record_and_delay r d TEST_DELAY_LOOPS h.

(** Test 2 and the delay after it. *)
Definition stage_TransmitMessage (h : Harness) : option Harness :=
  '(r, d) ← Test_CAN_TransmitMessage (driver h);
  Some (record_and_delay r d TEST_DELAY_LOOPS h).

(** Test 3 and the delay after it. *)
Definition stage_ReceiveMessage (env : Env) (h : Harness) : Env * Harness :=
  let '(r, env, d) := Test_CAN_ReceiveMessage env (driver h) in
  (env, record_and_delay r d TEST_DELAY_LOOPS h).

(** Test 4 and the delay after it. *)
Definition stage_DataIntegrity (env : Env) (h : Harness)
    : option (Env * Harness) :=
  '(r, env, d) ← Test_CAN_DataIntegrity env (driver h);
  Some (env, record_and_delay r d TEST_DELAY_LOOPS h).

(** Test 5 and the delay after it. *)
Definition stage_SequentialMessages (h : Harness) : option Harness :=
  '(r, d) ← Test_CAN_SequentialMessages (driver h);
  Some (record_and_delay r d TEST_DELAY_LOOPS h).

(** Test 6 and the delay after it. *)
Definition stage_ErrorHandling (h : Harness) : Harness :=
  let '(r, d) := Test_CAN_ErrorHandling (driver h) in
  record_and_delay r d (TEST_DELAY_LOOPS * 2) h.

(** Everything before the final [while(1)]. *)
Definition run_tests (env : Env) (h : Harness) : option (Env * Harness) :=
  let h := on_driver Test_initStatusLEDs h in
  let h := on_driver (Test_delay 500000) h in
  let h := stage_BasicInitialization h in
  h ← stage_TransmitMessage h;
  let '(env, h) := stage_ReceiveMessage env h in
  '(env, h) ← stage_DataIntegrity env h;
  h ← stage_SequentialMessages h;
  let h := stage_ErrorHandling h in
  let h := on_driver (emit (Driverlib.GPIO_writePin DEVICE_GPIO_PIN_LED1 0)) h in
  let h := on_driver (emit (Driverlib.GPIO_writePin DEVICE_GPIO_PIN_LED2 0)) h in
  Some (env, h).

(** What the tests and the final loop depend on in a harness state: the
    three counters, the availability flag and the tally. *)
Definition tally (h : Harness) (sent rcv err flag passed failed : Z) : Prop :=
  messagesTransmitted (canStats (driver h)) = sent ∧
  messagesReceived (canStats (driver h)) = rcv ∧
  errorCount (canStats (driver h)) = err ∧
  messageReceived (driver h) = flag ∧
  passedTests (testStats h) = passed ∧
  failedTests (testStats h) = failed.

(** The flag and the received counter between two states: the flag keeps
    its value or becomes 0, and when the flag was 0 the counter keeps its
    value or becomes 0. *)
Definition quiet (d d' : Driver) : Prop :=
  (messageReceived d' = messageReceived d ∨ messageReceived d' = 0) ∧
  (messageReceived d = 0 →
   messagesReceived (canStats d') = messagesReceived (canStats d) ∨
   messagesReceived (canStats d') = 0).

(** One pulse of an indicator: toggle, wait, toggle, wait. *)
Definition pulse (pin : Z) : list Driverlib.call :=
  [Driverlib.GPIO_togglePin pin; Driverlib.NOP 200000;
   Driverlib.GPIO_togglePin pin; Driverlib.NOP 200000].

(** [for(idx = 0U; idx < count; idx++) { toggle; delay; toggle; delay; }]
    with [n] iterations left. *)
Fixpoint blink_loop (n : nat) (pin : Z) (d : Driver) : Driver :=
  match n with
  | O => d
  | S n' =>
      let d := emit (Driverlib.GPIO_togglePin pin) d in
      let d := Test_delay 200000 d in
      let d := emit (Driverlib.GPIO_togglePin pin) d in
      let d := Test_delay 200000 d in
      blink_loop n' pin d
  end.

(** The driverlib calls of one iteration of the final loop when the tally
    is [passed] and [failed]: [passed] pulses of the pass indicator, a
    pause, [failed] pulses of the fail indicator, a longer pause. *)
Definition iteration_trace (passed failed : Z) : list Driverlib.call :=
  concat (replicate (Z.to_nat passed) (pulse DEVICE_GPIO_PIN_LED1))
  ++ [Driverlib.NOP 500000]
  ++ concat (replicate (Z.to_nat failed) (pulse DEVICE_GPIO_PIN_LED2))
  ++ [Driverlib.NOP 1000000].

(** The body of the final [while(1)]. *)
Definition report_iteration (hc : Harness * Z) : Harness * Z :=
  let '(h, counter) := hc in
  let h := on_driver (blink_loop (Z.to_nat (passedTests (testStats h)))
                                 DEVICE_GPIO_PIN_LED1) h in
  let h := on_driver (Test_delay 500000) h in
  let h := on_driver (blink_loop (Z.to_nat (failedTests (testStats h)))
                                 DEVICE_GPIO_PIN_LED2) h in
  let h := on_driver (Test_delay 1000000) h in
  (h, incr32 counter).

(** [while(1) { ... }] observed after [fuel] iterations.  The loop has no
    [break] and no [return]. *)
Fixpoint reporting_loop (fuel : nat) (hc : Harness * Z)
    : outcome (Harness * Z) :=
  match fuel with
  | O => Running hc
  | S fuel' => reporting_loop fuel' (report_iteration hc)
  end.

Definition CAN_runUnitTests (fuel : nat) (env : Env) (h : Harness)
    : option (outcome (Harness * Z)) :=
  '(env, h) ← run_tests env h;
  Some (reporting_loop fuel (h, 0)).

(** The state in which [main] calls [CAN_runUnitTests]: the indicator
    pins are outputs and off, and the CAN module has been initialised.
    The board bring-up calls before that ([Device_init], [Board_init],
    ...) touch none of the driver's variables and are left out of the
    trace. *)
Definition main_startup : Harness :=
  let d := boot in
  let d := emit (Driverlib.GPIO_setDirectionMode STATUS_LED_PIN
                   GPIO_DIR_MODE_OUT) d in
  let d := emit (Driverlib.GPIO_setDirectionMode ERROR_LED_PIN
                   GPIO_DIR_MODE_OUT) d in
  let d := emit (Driverlib.GPIO_writePin STATUS_LED_PIN 0) d in
  let d := emit (Driverlib.GPIO_writePin ERROR_LED_PIN 0) d in
  let d := CAN_initModule d in
  mkHarness d testStats_init.

(** ** The loop of [main] (normal operation) *)

(** The [while(1)] of [main], observed after [fuel] iterations; [counter]
    is its local variable. *)
Fixpoint main_loop (fuel : nat) (counter : Z) (env : Env) (d : Driver)
    : option (outcome (Z * Env * Driver)) :=
  match fuel with
  | O => Some (Running (counter, env, d))
  | S fuel' =>
      '(counter, env, d) ← main_loop_body counter env d;
      main_loop fuel' counter env d
  end.

(** What the loop of [main] does on an iteration that sends: the test
    frame goes to the bus layer and the status LED is toggled. *)
Definition periodic_send (d : Driver) : Driver :=
  CAN_toggleLED STATUS_LED_PIN
    (after_send 8 (Some <$> [0xAA; 0xBB; 0xCC; 0xDD; 0x11; 0x22; 0x33; 0x44]) d).

(** ** Calls into the bus layer *)

(** A bus-layer send as the driver is meant to issue it: on the driver's
    module and transmit slot, with a length of at most 8 and an 8-byte
    buffer none of whose cells is indeterminate. *)
Definition bus_call_ok (c : Driverlib.call) : bool :=
  match c with
  | Driverlib.CAN_sendMessage base objID msgLen msgData =>
      (base =? CAN_MODULE) && (objID =? CAN_TX_MSG_OBJ) && (msgLen <=? 8)
      && (length msgData =? 8)%nat
      && forallb (λ cell, match cell with Some _ => true | None => false end)
                 msgData
  | _ => true
  end.

(** Every bus-layer send recorded so far was well formed. *)
Definition bus_trace_ok (d : Driver) : Prop :=
  Forall (λ c, bus_call_ok c = true) (hw d).

(** Fault notifications in a row, one for each status word. *)
Definition faults (statuses : list Z) (d : Driver) : Driver :=
  foldl (λ d errorStatus, CAN_errorHandler errorStatus d) d statuses.

(** ** ADC_test.c: the LED blink control *)

Definition MIN_ADC_VALUE : Z := 0.
Definition MAX_ADC_VALUE : Z := 4095.
Definition MIN_BLINK_FREQ_HZ : Z := 1.
Definition MAX_BLINK_FREQ_HZ : Z := 10.
Definition LED_GPIO_PIN : Z := DEVICE_GPIO_PIN_LED1.

(** Reduction of an arithmetic result to [uint16_t]. *)
Definition u16 (z : Z) : Z := z mod 65536.

(** The static variables of ADC_test.c and the pin writes made so far. *)
Record Blinker := mkBlinker {
  ledBlinkCounter : Z;                 (* uint16_t *)
  ledBlinkPeriod : Z;                  (* uint16_t *)
  ledState : Z;                        (* uint8_t *)
  pin_writes : list Driverlib.call
}.

(** [ledBlinkCounter = 0], [ledBlinkPeriod = 50], [ledState = 0]. *)
Definition blinker_boot : Blinker := mkBlinker 0 50 0 [].

(** [adcValue] is a [uint32_t]; the arithmetic on it is unsigned 32-bit.
    A division by zero is a fault ([None]). *)
Definition controlLEDFrequency (adcValue : Z) (b : Blinker) : option Blinker :=
  let freqHz :=
    u32 (MIN_BLINK_FREQ_HZ
         + u32 (adcValue * (MAX_BLINK_FREQ_HZ - MIN_BLINK_FREQ_HZ))
           / MAX_ADC_VALUE) in
  let divisor := u32 (2 * freqHz) in
  if divisor =? 0 then None
  else
    let period := u16 (100 / divisor) in
    let period := if period <? 1 then 1 else period in
    let counter := u16 (ledBlinkCounter b + 1) in
    if period <=? counter then
      let state := if ledState b =? 0 then 1 else 0 in
      Some (mkBlinker 0 period state
              (pin_writes b ++ [Driverlib.GPIO_writePin LED_GPIO_PIN state]))
    else Some (mkBlinker counter period (ledState b) (pin_writes b)).

(** The value [controlLEDFrequency] leaves in [ledBlinkPeriod] for a
    reading (the same expressions as in the function). *)
Definition computed_period (adcValue : Z) : Z :=
  let freqHz :=
    u32 (MIN_BLINK_FREQ_HZ
         + u32 (adcValue * (MAX_BLINK_FREQ_HZ - MIN_BLINK_FREQ_HZ))
           / MAX_ADC_VALUE) in
  let period := u16 (100 / u32 (2 * freqHz)) in
  if period <? 1 then 1 else period.

(** The loop of [main] in ADC_test.c: each iteration passes the value
    [readADCValue] returned (the next element of [readings]; the converter
    is read through driverlib) to [controlLEDFrequency]. *)
Fixpoint adc_loop (readings : list Z) (b : Blinker) : option Blinker :=
  match readings with
  | [] => Some b
  | adcValue :: readings' =>
      b ← controlLEDFrequency adcValue b; adc_loop readings' b
  end.

(** * Properties *)

(** One step of the option monad, without unfolding anything else (the
    polling budgets must stay folded). *)
Ltac bind_step H := cbn [mbind option_bind] in H.

(** ** Machine arithmetic *)

Lemma incr32_small x : 0 ≤ x < UINT32_MAX → incr32 x = x + 1.
Proof.
  unfold incr32, u32, UINT32_MAX. intros Hx.
  apply Z.mod_small. lia.
Qed.

Lemma incr32_max : incr32 UINT32_MAX = 0.
Proof. reflexivity. Qed.

Lemma incr32_range x : 0 ≤ incr32 x < 4294967296.
Proof. unfold incr32, u32. apply Z.mod_pos_bound. lia. Qed.

(** ** The two loops of CAN_sendMessage *)

Lemma send_copy_loop_ok n : ∀ idx data msgData,
  (idx + n ≤ length data)%nat →
  (idx + n ≤ length msgData)%nat →
  send_copy_loop n idx data msgData =
    Some ((idx + n)%nat,
          take idx msgData ++ (Some <$> take n (drop idx data))
            ++ drop (idx + n) msgData).
Proof.
  induction n as [|n IH]; intros idx data msgData Hd Hm; simpl.
  - rewrite Nat.add_0_r. by rewrite take_drop.
  - destruct (lookup_lt_is_Some_2 data idx) as [b Hb]; [lia|].
    rewrite Hb, IH by (rewrite ?length_insert; lia).
    f_equal. f_equal; [lia|].
    rewrite (drop_S _ _ _ Hb). simpl.
    rewrite take_insert_lt by lia.
    rewrite drop_insert_lt by lia.
    replace (S idx + n)%nat with (idx + S n)%nat by lia.
    destruct (lookup_lt_is_Some_2 msgData idx) as [c Hc]; [lia|].
    rewrite (take_S_r _ _ _ Hc).
    rewrite insert_app_r_alt by (rewrite length_take; lia).
    rewrite length_take, Nat.min_l, Nat.sub_diag by lia.
    simpl. rewrite <- app_assoc. simpl.
    by replace (idx + S n)%nat with (S (idx + n)) by lia.
Qed.

Lemma send_copy_loop_fault n : ∀ idx data msgData,
  (idx ≤ length data < idx + n)%nat →
  send_copy_loop n idx data msgData = None.
Proof.
  induction n as [|n IH]; intros idx data msgData Hd; simpl.
  - lia.
  - destruct (data !! idx) as [b|] eqn:Hb; [|done].
    apply lookup_lt_Some in Hb.
    apply IH. lia.
Qed.

Lemma send_pad_loop_ok n : ∀ idx msgData,
  (idx + n ≤ length msgData)%nat →
  send_pad_loop n idx msgData =
    ((idx + n)%nat,
     take idx msgData ++ replicate n (Some 0) ++ drop (idx + n) msgData).
Proof.
  induction n as [|n IH]; intros idx msgData Hm; simpl.
  - rewrite Nat.add_0_r. by rewrite take_drop.
  - rewrite IH by (rewrite ?length_insert; lia).
    f_equal; [lia|].
    rewrite take_insert_lt by lia.
    rewrite drop_insert_lt by lia.
    replace (S idx + n)%nat with (idx + S n)%nat by lia.
    destruct (lookup_lt_is_Some_2 msgData idx) as [c Hc]; [lia|].
    rewrite (take_S_r _ _ _ Hc).
    rewrite insert_app_r_alt by (rewrite length_take; lia).
    rewrite length_take, Nat.min_l, Nat.sub_diag by lia.
    simpl. rewrite <- app_assoc. simpl.
    by replace (idx + S n)%nat with (S (idx + n)) by lia.
Qed.

(** ** CAN_sendMessage *)

Lemma CAN_sendMessage_eq msgId data dlc d :
  let len := Z.min dlc 8 in
  let n := Z.to_nat len in
  (n ≤ length data)%nat →
  CAN_sendMessage msgId data dlc d =
    Some (after_send len ((Some <$> take n data) ++ replicate (8 - n) (Some 0)) d).
Proof.
  intros len n Hn. unfold CAN_sendMessage.
  assert (Hlen : (if 8 <? dlc then 8 else dlc) = len).
  { unfold len. destruct (Z.ltb_spec 8 dlc); lia. }
  rewrite Hlen. fold n.
  assert (Hn8 : (n ≤ 8)%nat) by (unfold n, len; lia).
  rewrite send_copy_loop_ok by (rewrite ?length_replicate; simpl; lia).
  rewrite take_0, drop_0, app_nil_l, Nat.add_0_l.
  rewrite send_pad_loop_ok.
  2: { rewrite length_app, length_fmap, length_take, length_drop,
         length_replicate. lia. }
  unfold after_send, emit, with_stats. cbn [canStats lastRxMessage
    messageReceived hw]. do 4 f_equal.
  rewrite take_app_length'.
  2: { rewrite length_fmap, length_take. lia. }
  replace (n + (8 - n))%nat with 8%nat by lia.
  rewrite drop_ge.
  2: { rewrite length_app, length_fmap, length_take, length_drop,
         length_replicate. lia. }
  by rewrite app_nil_r.
Qed.

Lemma CAN_sendMessage_short_buffer msgId data dlc d :
  (length data < Z.to_nat (Z.min dlc 8))%nat →
  CAN_sendMessage msgId data dlc d = None.
Proof.
  intros Hn. unfold CAN_sendMessage.
  assert (Hlen : (if 8 <? dlc then 8 else dlc) = Z.min dlc 8).
  { destruct (Z.ltb_spec 8 dlc); lia. }
  rewrite Hlen. rewrite send_copy_loop_fault; [done | lia].
Qed.

(** C1.  A send with [dlc > 8] hands length 8 to the bus layer and does
    not read the caller's buffer at index 8 or beyond (an 8-byte buffer is
    enough, and the outcome is the same for every buffer with the same
    first 8 bytes).  A send with [dlc <= 8] hands over an 8-byte frame with
    the caller's bytes at indices below [dlc] and zero from [dlc] on,
    whatever the buffer holds beyond [dlc]. *)
Theorem CAN_sendMessage_clamps_and_pads msgId data dlc d :
  let len := Z.min dlc 8 in
  let n := Z.to_nat len in
  (n ≤ length data)%nat →
  ∃ frame,
    CAN_sendMessage msgId data dlc d = Some (after_send len frame d) ∧
    (8 < dlc → len = 8) ∧
    (0 ≤ dlc ≤ 8 → len = dlc) ∧
    length frame = 8%nat ∧
    (∀ i, (i < n)%nat → frame !! i = Some (data !! i)) ∧
    (∀ i, (n ≤ i < 8)%nat → frame !! i = Some (Some 0)) ∧
    (∀ data', take n data' = take n data →
       CAN_sendMessage msgId data' dlc d = Some (after_send len frame d)).
Proof.
  intros len n Hn.
  assert (Hn8 : (n ≤ 8)%nat) by (unfold n, len; lia).
  exists ((Some <$> take n data) ++ replicate (8 - n) (Some 0)).
  split; [by apply CAN_sendMessage_eq|].
  split; [unfold len; lia|].
  split; [unfold len; lia|].
  split.
  { rewrite length_app, length_fmap, length_take, length_replicate. lia. }
  split.
  { intros i Hi. rewrite lookup_app_l by (rewrite length_fmap, length_take; lia).
    rewrite list_lookup_fmap, lookup_take_lt by lia.
    destruct (lookup_lt_is_Some_2 data i) as [b Hb]; [lia|]. by rewrite Hb. }
  split.
  { intros i Hi. rewrite lookup_app_r by (rewrite length_fmap, length_take; lia).
    rewrite length_fmap, length_take, Nat.min_l by lia.
    apply lookup_replicate_2. lia. }
  intros data' Heq.
  assert (Hn' : (n ≤ length data')%nat).
  { apply (f_equal length) in Heq. rewrite !length_take in Heq. lia. }
  pose proof (CAN_sendMessage_eq msgId data' dlc d Hn') as E.
  cbv zeta in E. fold len n in E. by rewrite E, Heq.
Qed.

(** ** CAN_receiveMessage *)

Lemma receive_copy_loop_ok n : ∀ idx src dst,
  (idx + n ≤ length src)%nat →
  (idx + n ≤ length dst)%nat →
  receive_copy_loop n idx src dst =
    take idx dst ++ take n (drop idx src) ++ drop (idx + n) dst.
Proof.
  induction n as [|n IH]; intros idx src dst Hs Hd; simpl.
  - rewrite Nat.add_0_r. by rewrite take_drop.
  - rewrite IH by (rewrite ?length_insert; lia).
    destruct (lookup_lt_is_Some_2 src idx) as [b Hb]; [lia|].
    rewrite (list_lookup_total_correct _ _ _ Hb).
    rewrite take_insert_lt by lia.
    rewrite drop_insert_lt by lia.
    rewrite (drop_S _ _ _ Hb). simpl.
    destruct (lookup_lt_is_Some_2 dst idx) as [c Hc]; [lia|].
    rewrite (take_S_r _ _ _ Hc).
    rewrite insert_app_r_alt by (rewrite length_take; lia).
    rewrite length_take, Nat.min_l, Nat.sub_diag by lia.
    simpl. rewrite <- app_assoc. simpl.
    by replace (idx + S n)%nat with (S (idx + n)) by lia.
Qed.

Lemma receive_copy_all src dst :
  length src = 8%nat → length dst = 8%nat →
  receive_copy_loop 8 0 src dst = src.
Proof.
  intros Hs Hd. rewrite receive_copy_loop_ok by lia.
  rewrite take_0, drop_0, app_nil_l.
  rewrite take_ge, drop_ge by lia. by rewrite app_nil_r.
Qed.

Lemma CAN_receiveMessage_empty msg d :
  messageReceived d = 0 → CAN_receiveMessage msg d = (0, msg, d).
Proof. intros Hf. unfold CAN_receiveMessage. by rewrite Hf. Qed.

Lemma CAN_receiveMessage_pending msg d :
  messageReceived d ≠ 0 →
  CAN_receiveMessage msg d =
    (1, mkMessage (id (lastRxMessage d)) (dlc (lastRxMessage d))
                  (receive_copy_loop 8 0 (data (lastRxMessage d)) (data msg))
                  (timestamp (lastRxMessage d)),
     after_receive d).
Proof.
  intros Hf. unfold CAN_receiveMessage.
  destruct (Z.eqb_spec (messageReceived d) 0) as [E|_]; [done|].
  reflexivity.
Qed.

(** C2.  When a frame is pending, a receive returns 1, leaves the latched
    frame in the output parameter, clears the flag and increments the
    received counter; the next receive, with nothing latched in between,
    returns 0. *)
Theorem CAN_receiveMessage_consumes msg d :
  messageReceived d ≠ 0 →
  length (data (lastRxMessage d)) = 8%nat →
  length (data msg) = 8%nat →
  CAN_receiveMessage msg d = (1, lastRxMessage d, after_receive d) ∧
  messageReceived (after_receive d) = 0 ∧
  messagesReceived (canStats (after_receive d))
    = incr32 (messagesReceived (canStats d)) ∧
  ∀ msg2, CAN_receiveMessage msg2 (after_receive d)
          = (0, msg2, after_receive d).
Proof.
  intros Hf Hs Hd. split; [|split; [done|split; [done|]]].
  - rewrite CAN_receiveMessage_pending by done.
    rewrite receive_copy_all by done.
    by destruct (lastRxMessage d).
  - intros msg2. by apply CAN_receiveMessage_empty.
Qed.

(** C3.  When no frame is pending, a receive returns 0 and changes neither
    the output parameter nor the driver state (statistics included). *)
Theorem CAN_receiveMessage_no_message msg d :
  messageReceived d = 0 →
  CAN_receiveMessage msg d = (0, msg, d).
Proof. apply CAN_receiveMessage_empty. Qed.

(** ** CAN_getStats *)

Lemma CAN_getStats_copy d s :
  CAN_getStats (Some s) d = (1, Some (canStats d), d).
Proof. unfold CAN_getStats. simpl. by destruct (canStats d). Qed.

(** C6.  With a null destination the call returns 0 and changes nothing;
    with a destination it returns 1, the destination then holds the four
    statistics fields, and the driver state is unchanged. *)
Theorem CAN_getStats_spec d :
  CAN_getStats None d = (0, None, d) ∧
  ∀ s, CAN_getStats (Some s) d = (1, Some (canStats d), d).
Proof. split; [done|]. apply CAN_getStats_copy. Qed.

(** ** CAN_initModule and the peripherals *)

Lemma hardware_from_app h0 t1 t2 :
  hardware_from h0 (t1 ++ t2) = hardware_from (hardware_from h0 t1) t2.
Proof. apply foldl_app. Qed.

Lemma emit_eq c d :
  emit c d =
    mkDriver (canStats d) (lastRxMessage d) (messageReceived d) (hw d ++ [c]).
Proof. done. Qed.

Lemma CAN_initModule_eq d :
  CAN_initModule d =
    mkDriver (canStats d) (lastRxMessage d) (messageReceived d)
             (hw d ++ init_trace).
Proof.
  destruct d as [stats rx flag trace].
  cbv [CAN_initModule emit CAN_USE_LOOPBACK
       canStats lastRxMessage messageReceived hw].
  rewrite <- !app_assoc. reflexivity.
Qed.

Lemma CAN_initModule_hw d : hw (CAN_initModule d) = hw d ++ init_trace.
Proof. by rewrite CAN_initModule_eq. Qed.

Lemma CAN_initModule_globals d :
  canStats (CAN_initModule d) = canStats d ∧
  lastRxMessage (CAN_initModule d) = lastRxMessage d ∧
  messageReceived (CAN_initModule d) = messageReceived d.
Proof. by rewrite CAN_initModule_eq. Qed.

Lemma init_trace_init_calls : init_calls init_trace = 1%nat.
Proof. reflexivity. Qed.

Lemma init_calls_app t1 t2 :
  init_calls (t1 ++ t2) = (init_calls t1 + init_calls t2)%nat.
Proof. unfold init_calls. by rewrite List.filter_app, length_app. Qed.

Lemma on_can_on_can base f g h :
  on_can base g (on_can base f h) = on_can base (g ∘ f) h.
Proof.
  unfold on_can. simpl. rewrite lookup_insert_eq. simpl.
  by rewrite insert_insert_eq.
Qed.

Lemma hardware_from_init_trace h :
  hardware_from h init_trace = initialised h.
Proof.
  unfold hardware_from, init_trace. cbn [foldl hw_step].
  rewrite !on_can_on_can. unfold on_can, initialised.
  cbn [periph_clocks pin_configs pin_dirs pin_levels can compose
       bit_rate objects module_enabled test_mode int_enable handed_over].
  reflexivity.
Qed.

Lemma initialised_idempotent h : initialised (initialised h) = initialised h.
Proof.
  unfold initialised. simpl. rewrite lookup_insert_eq. simpl.
  rewrite insert_insert_eq.
  f_equal.
  - apply set_eq. intros x. rewrite !elem_of_union. tauto.
  - apply set_eq. intros x. rewrite !elem_of_union. tauto.
  - do 2 f_equal.
    rewrite <- Z.lor_assoc. by rewrite Z.lor_diag.
Qed.

Lemma initialised_pin_levels h : pin_levels (initialised h) = pin_levels h.
Proof. done. Qed.

(** C9.  Running the initialisation a second time leaves the peripherals
    as one run leaves them: the same bit rate, exactly the two message
    slots, the same enables.  The driver's own variables are untouched. *)
Theorem CAN_initModule_idempotent d h0 :
  hardware_from h0 (hw (CAN_initModule (CAN_initModule d)))
    = hardware_from h0 (hw (CAN_initModule d)) ∧
  canStats (CAN_initModule (CAN_initModule d)) = canStats d ∧
  lastRxMessage (CAN_initModule (CAN_initModule d)) = lastRxMessage d ∧
  messageReceived (CAN_initModule (CAN_initModule d)) = messageReceived d ∧
  ∃ m,
    can (hardware_from h0 (hw (CAN_initModule d))) !! CAN_MODULE = Some m ∧
    bit_rate m = Some (DEVICE_SYSCLK_FREQ, 500000) ∧
    objects m = <[CAN_RX_MSG_OBJ := rx_slot]> (<[CAN_TX_MSG_OBJ := tx_slot]> ∅) ∧
    size (objects m) = 2%nat ∧
    module_enabled m = true ∧
    Z.lor (int_enable m)
          (Z.lor (Z.lor CAN_INT_IE0 CAN_INT_ERROR) CAN_INT_STATUS)
      = int_enable m.
Proof.
  rewrite !CAN_initModule_hw, !hardware_from_app, !hardware_from_init_trace.
  split; [apply initialised_idempotent|].
  do 3 (split; [done|]).
  eexists. split; [apply lookup_insert_eq|]. simpl.
  split; [done|]. split; [done|]. split; [done|]. split; [done|].
  rewrite <- Z.lor_assoc. by rewrite Z.lor_diag.
Qed.

(** ** CAN_errorHandler *)

Lemma CAN_errorHandler_eq errorStatus d :
  CAN_errorHandler errorStatus d =
    if c_true (Z.land errorStatus CAN_ES_BUSOFF)
    then CAN_initModule (after_fault errorStatus d)
    else after_fault errorStatus d.
Proof.
  unfold CAN_errorHandler.
  destruct (c_true (Z.land errorStatus CAN_ES_TXWARN)),
           (c_true (Z.land errorStatus CAN_ES_RXWARN)),
           (c_true (Z.land errorStatus CAN_ES_TXERRPASSED)),
           (c_true (Z.land errorStatus CAN_ES_RXERRPASSED)); reflexivity.
Qed.

Lemma c_true_spec z : c_true z = true ↔ z ≠ 0.
Proof. unfold c_true. destruct (Z.eqb_spec z 0); naive_solver. Qed.

(** C5.  The fault handler increments the error counter, records the
    bitmask as the last error code and writes the error LED on.  When the
    bitmask has the bus-off bit it then runs the initialisation exactly
    once, otherwise it does not run it.  The sent and received counters
    keep their values. *)
Theorem CAN_errorHandler_spec errorStatus d :
  let d' := CAN_errorHandler errorStatus d in
  errorCount (canStats d') = incr32 (errorCount (canStats d)) ∧
  lastErrorCode (canStats d') = errorStatus ∧
  messagesTransmitted (canStats d') = messagesTransmitted (canStats d) ∧
  messagesReceived (canStats d') = messagesReceived (canStats d) ∧
  (∀ h0, pin_levels (hardware_from h0 (hw d')) !! ERROR_LED_PIN = Some true) ∧
  (Z.land errorStatus CAN_ES_BUSOFF ≠ 0 →
     d' = CAN_initModule (after_fault errorStatus d) ∧
     hw d' = hw d ++ [Driverlib.GPIO_writePin ERROR_LED_PIN 1] ++ init_trace ∧
     init_calls (hw d') = S (init_calls (hw d))) ∧
  (Z.land errorStatus CAN_ES_BUSOFF = 0 →
     d' = after_fault errorStatus d ∧
     hw d' = hw d ++ [Driverlib.GPIO_writePin ERROR_LED_PIN 1] ∧
     init_calls (hw d') = init_calls (hw d)).
Proof.
  intros d'. subst d'. rewrite CAN_errorHandler_eq.
  destruct (c_true (Z.land errorStatus CAN_ES_BUSOFF)) eqn:Hb.
  - apply c_true_spec in Hb.
    repeat split; try done.
    + intros h0. rewrite CAN_initModule_hw, hardware_from_app,
        hardware_from_init_trace, initialised_pin_levels.
      simpl. rewrite hardware_from_app. simpl. apply lookup_insert_eq.
    + rewrite CAN_initModule_hw. simpl. by rewrite <- app_assoc.
    + rewrite CAN_initModule_hw. simpl.
      rewrite !init_calls_app, init_trace_init_calls.
      change (init_calls [Driverlib.GPIO_writePin ERROR_LED_PIN 1]) with 0%nat.
      lia.
  - assert (Z.land errorStatus CAN_ES_BUSOFF = 0) as Hz.
    { destruct (decide (Z.land errorStatus CAN_ES_BUSOFF = 0)) as [|Hn];
        [done|]. apply c_true_spec in Hn. congruence. }
    repeat split; try done.
    + intros h0. simpl. rewrite hardware_from_app. simpl.
      apply lookup_insert_eq.
    + simpl. rewrite init_calls_app.
      change (init_calls [Driverlib.GPIO_writePin ERROR_LED_PIN 1]) with 0%nat.
      lia.
Qed.

(** ** The counters across calls *)

Lemma CAN_sendMessage_Some msgId data dlc d d' :
  CAN_sendMessage msgId data dlc d = Some d' →
  ∃ frame, d' = after_send (Z.min dlc 8) frame d.
Proof.
  intros Hs.
  destruct (le_lt_dec (Z.to_nat (Z.min dlc 8)) (length data)) as [Hle|Hlt].
  - rewrite CAN_sendMessage_eq in Hs by done. eexists. by injection Hs.
  - by rewrite CAN_sendMessage_short_buffer in Hs.
Qed.

Lemma isr_globals env d :
  canStats (isr env d).2 = canStats d ∧ hw (isr env d).2 = hw d.
Proof. by destruct env as [|[m|] env]. Qed.

Lemma isr_nil d : isr [] d = ([], d).
Proof. done. Qed.

Lemma CAN_receiveMessage_cases msg d :
  (messageReceived d = 0 ∧ CAN_receiveMessage msg d = (0, msg, d)) ∨
  (messageReceived d ≠ 0 ∧
   ∃ msg', CAN_receiveMessage msg d = (1, msg', after_receive d)).
Proof.
  destruct (decide (messageReceived d = 0)) as [E|E].
  - left. split; [done|]. by apply CAN_receiveMessage_empty.
  - right. split; [done|]. eexists. by apply CAN_receiveMessage_pending.
Qed.

Lemma CAN_errorHandler_counters errorStatus d :
  messagesTransmitted (canStats (CAN_errorHandler errorStatus d))
    = messagesTransmitted (canStats d) ∧
  messagesReceived (canStats (CAN_errorHandler errorStatus d))
    = messagesReceived (canStats d) ∧
  lastRxMessage (CAN_errorHandler errorStatus d) = lastRxMessage d ∧
  messageReceived (CAN_errorHandler errorStatus d) = messageReceived d.
Proof.
  rewrite CAN_errorHandler_eq.
  by destruct (c_true (Z.land errorStatus CAN_ES_BUSOFF)).
Qed.

Lemma CAN_getStats_state stats d : (CAN_getStats stats d).2 = d.
Proof. by destruct stats. Qed.

(** What one operation of the contract does to the two counters. *)
Lemma contract_op_counters o env d env' d' :
  contract_op o = true →
  run_op o env d = Some (env', d') →
  (messagesTransmitted (canStats d') =
     if is_send o
     then incr32 (messagesTransmitted (canStats d))
     else messagesTransmitted (canStats d)) ∧
  (messagesReceived (canStats d') = messagesReceived (canStats d) ∨
   (is_receive o = true ∧
    messagesReceived (canStats d') = incr32 (messagesReceived (canStats d)))).
Proof.
  intros Hc Hr. destruct o; try discriminate Hc; simpl in Hr.
  - destruct (CAN_sendMessage msgId data0 dlc0 d) as [d1|] eqn:Hs;
      [|discriminate]. simpl in Hr. injection Hr as <- <-.
    apply CAN_sendMessage_Some in Hs as [frame ->].
    simpl. auto.
  - pose proof (isr_globals env d) as [Hst _].
    destruct (isr env d) as [env1 d1]. simpl in Hst. injection Hr as <- <-.
    destruct (CAN_receiveMessage_cases msg d1) as [[_ E]|[_ [msg' E]]];
      rewrite E; simpl; rewrite <- Hst; eauto.
  - injection Hr as <- <-.
    pose proof (CAN_errorHandler_counters errorStatus d) as (-> & -> & _).
    auto.
  - injection Hr as <- <-. rewrite CAN_getStats_state. auto.
Qed.

Lemma run_counters ops : ∀ env d env' d',
  forallb contract_op ops = true →
  run ops env d = Some (env', d') →
  0 ≤ messagesTransmitted (canStats d) →
  0 ≤ messagesReceived (canStats d) →
  messagesTransmitted (canStats d) + Z.of_nat (count_sends ops) ≤ UINT32_MAX →
  messagesReceived (canStats d) + Z.of_nat (count_receives ops) ≤ UINT32_MAX →
  messagesTransmitted (canStats d')
    = messagesTransmitted (canStats d) + Z.of_nat (count_sends ops) ∧
  messagesReceived (canStats d) ≤ messagesReceived (canStats d')
    ≤ messagesReceived (canStats d) + Z.of_nat (count_receives ops).
Proof.
  induction ops as [|o ops IH]; intros env d env' d' Hc Hr Ht Hv Hts Hvs.
  - injection Hr as <- <-. unfold count_sends, count_receives. simpl. lia.
  - simpl in Hc. apply andb_prop in Hc as [Ho Hc].
    simpl in Hr.
    destruct (run_op o env d) as [[env1 d1]|] eqn:Hop; [|discriminate].
    simpl in Hr.
    destruct (contract_op_counters _ _ _ _ _ Ho Hop) as [Hsent Hrcv].
    assert (count_sends (o :: ops)
            = ((if is_send o then 1 else 0) + count_sends ops)%nat) as Ecs.
    { unfold count_sends. simpl. by destruct (is_send o). }
    assert (count_receives (o :: ops)
            = ((if is_receive o then 1 else 0) + count_receives ops)%nat) as Ecr.
    { unfold count_receives. simpl. by destruct (is_receive o). }
    rewrite Ecs in *. rewrite Ecr in *.
    assert (messagesTransmitted (canStats d1)
            = messagesTransmitted (canStats d)
              + Z.of_nat (if is_send o then 1 else 0)) as Hs1.
    { rewrite Hsent. destruct (is_send o); [|simpl; lia].
      rewrite incr32_small; [simpl; lia|]. simpl in Hts. lia. }
    assert (messagesReceived (canStats d) ≤ messagesReceived (canStats d1)
            ≤ messagesReceived (canStats d)
              + Z.of_nat (if is_receive o then 1 else 0)) as Hr1.
    { destruct Hrcv as [->|[Hir ->]]; [lia|].
      rewrite Hir in *. rewrite incr32_small; [simpl; lia|].
      simpl in Hvs. lia. }
    destruct (IH env1 d1 env' d' Hc Hr) as [IHs IHr]; try lia.
Qed.

(** C4 (as the code has it).  Over any sequence of send, receive,
    statistics and fault-handler calls during which neither 32-bit counter
    reaches its wrap-around, the sent counter grows by exactly the number
    of sends and the received counter never decreases and grows by at most
    the number of receive polls.  One send makes the sent counter
    [incr32] of its old value, one receive that returns 1 makes the
    received counter [incr32] of its old value, and neither touches the
    other counter; a receive that returns 0, a statistics read and the
    fault handler leave both counters as they were. *)
Theorem counters_non_decreasing_until_wrap ops env d env' d' :
  forallb contract_op ops = true →
  run ops env d = Some (env', d') →
  0 ≤ messagesTransmitted (canStats d) →
  0 ≤ messagesReceived (canStats d) →
  messagesTransmitted (canStats d) + Z.of_nat (count_sends ops) ≤ UINT32_MAX →
  messagesReceived (canStats d) + Z.of_nat (count_receives ops) ≤ UINT32_MAX →
  (messagesTransmitted (canStats d')
     = messagesTransmitted (canStats d) + Z.of_nat (count_sends ops) ∧
   messagesTransmitted (canStats d) ≤ messagesTransmitted (canStats d') ∧
   messagesReceived (canStats d) ≤ messagesReceived (canStats d')
     ≤ messagesReceived (canStats d) + Z.of_nat (count_receives ops)) ∧
  (∀ msgId data dlc d0 d1,
     CAN_sendMessage msgId data dlc d0 = Some d1 →
     messagesTransmitted (canStats d1)
       = incr32 (messagesTransmitted (canStats d0)) ∧
     messagesReceived (canStats d1) = messagesReceived (canStats d0)) ∧
  (∀ msg d0 msg' d1,
     CAN_receiveMessage msg d0 = (1, msg', d1) →
     messagesReceived (canStats d1)
       = incr32 (messagesReceived (canStats d0)) ∧
     messagesTransmitted (canStats d1) = messagesTransmitted (canStats d0)) ∧
  (∀ msg d0 msg' d1,
     CAN_receiveMessage msg d0 = (0, msg', d1) → canStats d1 = canStats d0) ∧
  (∀ stats d0, canStats (CAN_getStats stats d0).2 = canStats d0) ∧
  (∀ errorStatus d0,
     messagesTransmitted (canStats (CAN_errorHandler errorStatus d0))
       = messagesTransmitted (canStats d0) ∧
     messagesReceived (canStats (CAN_errorHandler errorStatus d0))
       = messagesReceived (canStats d0)).
Proof.
  intros Hc Hr Ht Hv Hts Hvs.
  destruct (run_counters ops env d env' d' Hc Hr Ht Hv Hts Hvs) as [Hs Hrc].
  split; [repeat split; lia|].
  split; [|split; [|split; [|split]]];
    [| | |intros; by rewrite CAN_getStats_state
     |intros es d0; by destruct (CAN_errorHandler_counters es d0) as (? & ? & _)].
  - intros msgId data0 dlc0 d0 d1 E.
    apply CAN_sendMessage_Some in E as [frame ->]. done.
  - intros msg d0 msg' d1 E.
    destruct (CAN_receiveMessage_cases msg d0) as [[_ E']|[_ [m E']]];
      rewrite E' in E; [discriminate|]. by injection E as _ <-.
  - intros msg d0 msg' d1 E.
    destruct (CAN_receiveMessage_cases msg d0) as [[_ E']|[_ [m E']]];
      rewrite E' in E; [|discriminate]. by injection E as _ <-.
Qed.

(** [n] sends in a row from an 8-byte buffer all return, and the sent
    counter has advanced by [n] modulo 2^32. *)
Lemma run_sends msgId data n : ∀ d,
  length data = 8%nat →
  0 ≤ messagesTransmitted (canStats d) < 4294967296 →
  ∃ d', run (replicate n (OpSend msgId data 8)) [] d = Some ([], d') ∧
        messagesTransmitted (canStats d')
          = (messagesTransmitted (canStats d) + Z.of_nat n) mod 4294967296.
Proof.
  induction n as [|n IH]; intros d Hl Hr.
  - exists d. split; [reflexivity|].
    rewrite Z.add_0_r. symmetry. by apply Z.mod_small.
  - cbn [replicate run]. unfold run_op.
    rewrite CAN_sendMessage_eq by (rewrite Hl; simpl; lia).
    cbn [mbind option_bind].
    destruct (IH (after_send (Z.min 8 8)
                   ((Some <$> take (Z.to_nat (Z.min 8 8)) data)
                    ++ replicate (8 - Z.to_nat (Z.min 8 8)) (Some 0)) d) Hl)
      as (d' & E & Hs).
    { apply incr32_range. }
    exists d'. split; [exact E|].
    rewrite Hs. cbn [after_send canStats messagesTransmitted].
    unfold incr32, u32. rewrite Zplus_mod_idemp_l. f_equal. lia.
Qed.

(** ** The availability flag when no frame is ever latched *)

Lemma flag_wait_nil n d :
  ∃ t, flag_wait n [] d = (t, [], d) ∧ (messageReceived d = 0 → t = 0%nat).
Proof.
  induction n as [|n [t [IH Ht]]]; simpl.
  - by exists 0%nat.
  - destruct (Z.eqb_spec (messageReceived d) 0) as [E|E].
    + by exists t.
    + exists (S n). split; [done|]. intros E'. by destruct E.
Qed.

Lemma receive_wait_nil_empty n msg d :
  messageReceived d = 0 →
  receive_wait n msg [] d = (0%nat, msg, [], d).
Proof.
  intros Hf. induction n as [|n IH]; simpl; [done|].
  by rewrite CAN_receiveMessage_empty.
Qed.

Lemma receive_wait_nil n msg d :
  ∃ t msg' d',
    receive_wait n msg [] d = (t, msg', [], d') ∧
    (d' = d ∨ (messageReceived d ≠ 0 ∧ d' = after_receive d)).
Proof.
  destruct (decide (messageReceived d = 0)) as [E|E].
  - exists 0%nat, msg, d. split; [by apply receive_wait_nil_empty|by left].
  - destruct n as [|n]; simpl.
    + exists 0%nat, msg, d. by split; [|left].
    + rewrite CAN_receiveMessage_pending by done. simpl.
      eexists _, _, _. split; [done|]. by right.
Qed.

Lemma quiet_same d d' :
  messageReceived d' = messageReceived d →
  (messagesReceived (canStats d') = messagesReceived (canStats d) ∨
   messagesReceived (canStats d') = 0) →
  quiet d d'.
Proof. intros Hf Hc. split; [by left | by intros _]. Qed.

Lemma quiet_trans d1 d2 d3 : quiet d1 d2 → quiet d2 d3 → quiet d1 d3.
Proof.
  intros [Hf1 Hc1] [Hf2 Hc2]. split.
  - destruct Hf2 as [E2|E2]; rewrite E2; auto.
  - intros H1. specialize (Hc1 H1).
    assert (messageReceived d2 = 0) as H2 by (destruct Hf1; congruence).
    specialize (Hc2 H2). destruct Hc1 as [E1|E1], Hc2 as [E2|E2];
      rewrite ?E2, ?E1; auto.
Qed.

Lemma CAN_sendMessage_quiet msgId data dlc d d' :
  CAN_sendMessage msgId data dlc d = Some d' → quiet d d'.
Proof.
  intros Hs. apply CAN_sendMessage_Some in Hs as [frame ->].
  apply quiet_same; simpl; auto.
Qed.

Lemma CAN_receiveMessage_quiet msg d : quiet d (CAN_receiveMessage msg d).2.
Proof.
  destruct (CAN_receiveMessage_cases msg d) as [[E0 E]|[E0 [msg' E]]];
    rewrite E; cbn [snd].
  - apply quiet_same; auto.
  - split; [by right|]. intros. by destruct E0.
Qed.

Lemma CAN_processMessage_quiet msgId data dlc d d' :
  CAN_processMessage msgId data dlc d = Some d' → quiet d d'.
Proof.
  unfold CAN_processMessage. intros Hp.
  destruct (msgId =? CAN_RX_MSG_ID).
  - destruct RUN_UNIT_TESTS.
    + by apply CAN_sendMessage_quiet in Hp.
    + injection Hp as <-. apply quiet_same; auto.
  - destruct (msgId =? CAN_ECHO_MSG_ID); injection Hp as <-;
      apply quiet_same; auto.
Qed.

Lemma CAN_testLoopback_quiet d :
  ∃ d', CAN_testLoopback [] d = Some ([], d') ∧ quiet d d'.
Proof.
  unfold CAN_testLoopback.
  rewrite CAN_sendMessage_eq by (simpl; lia). cbn [mbind option_bind].
  match goal with |- context [flag_wait ?n [] ?d1] =>
    destruct (flag_wait_nil n d1) as [t [Ew _]]; rewrite Ew end.
  destruct (c_true _ && _).
  - destruct (c_true _); eexists; (split; [reflexivity|]);
      unfold quiet; simpl; auto.
  - eexists; (split; [reflexivity|]); unfold quiet; simpl; auto.
Qed.

Lemma CAN_testReceive_quiet d :
  ∃ d', CAN_testReceive [] d = ([], d') ∧ quiet d d'.
Proof.
  unfold CAN_testReceive.
  match goal with |- context [receive_wait ?n ?m [] d] =>
    destruct (receive_wait_nil n m d) as (t & msg' & d1 & Ew & Hd1);
    rewrite Ew end.
  assert (quiet d d1) as Hq.
  { destruct Hd1 as [->|[Hne ->]]; [by apply quiet_same; auto|].
    split; [by right|]. intros. by destruct Hne. }
  destruct (0 <? messagesReceived (canStats d1));
    eexists; (split; [reflexivity|]); [done|].
  eapply quiet_trans; [exact Hq|]. apply quiet_same; simpl; auto.
Qed.

Lemma main_loop_body_quiet counter d counter' env' d' :
  main_loop_body counter [] d = Some (counter', env', d') →
  env' = [] ∧ quiet d d'.
Proof.
  unfold main_loop_body. intros Hm.
  assert (∃ c1 d1,
            (if 100000 <=? incr32 counter
             then d0 ← CAN_sendMessage CAN_TX_MSG_ID
                         [0xAA; 0xBB; 0xCC; 0xDD; 0x11; 0x22; 0x33; 0x44] 8 d;
                  Some (0, CAN_toggleLED STATUS_LED_PIN d0)
             else Some (incr32 counter, d)) = Some (c1, d1) ∧ quiet d d1)
    as (c1 & d1 & E1 & Hq1).
  { destruct (100000 <=? incr32 counter).
    - rewrite CAN_sendMessage_eq by (simpl; lia). cbn [mbind option_bind].
      eexists _, _. split; [reflexivity|]. apply quiet_same; simpl; auto.
    - eexists _, _. split; [reflexivity|]. apply quiet_same; auto. }
  cbv zeta in Hm. rewrite E1 in Hm. cbn [mbind option_bind] in Hm.
  rewrite isr_nil in Hm.
  pose proof (CAN_receiveMessage_quiet uninit_msg d1) as Hq2.
  destruct (CAN_receiveMessage uninit_msg d1) as [[r rxMsg] d2].
  cbn [snd] in Hq2.
  destruct (c_true r).
  - destruct (CAN_processMessage _ _ _ d2) as [d3|] eqn:Hp; [|discriminate].
    cbn [mbind option_bind] in Hm. injection Hm as _ <- <-.
    split; [done|]. apply CAN_processMessage_quiet in Hp.
    eapply quiet_trans; [exact Hq1|]. eapply quiet_trans; [exact Hq2|].
    eapply quiet_trans; [exact Hp|]. apply quiet_same; simpl; auto.
  - injection Hm as _ <- <-. split; [done|].
    eapply quiet_trans; [exact Hq1|exact Hq2].
Qed.

Lemma status_blink_loop_globals fuel blinkRate : ∀ counter d,
  canStats (observed (status_blink_loop fuel blinkRate counter d)).2
    = canStats d ∧
  messageReceived (observed (status_blink_loop fuel blinkRate counter d)).2
    = messageReceived d.
Proof.
  induction fuel as [|fuel IH]; intros counter d; cbn [status_blink_loop].
  - done.
  - destruct (blinkRate <=? incr32 counter); [|apply IH].
    destruct (IH 0 (CAN_toggleLED STATUS_LED_PIN d)) as [-> ->]. done.
Qed.

Lemma CAN_runUnitTests_builtin_quiet fuel d :
  ∃ o, CAN_runUnitTests_builtin fuel [] d = Some ([], o) ∧
       quiet d (observed o).2.
Proof.
  unfold CAN_runUnitTests_builtin, CAN_testTransmit.
  cbn [CAN_USE_LOOPBACK mbind option_bind].
  rewrite CAN_sendMessage_eq by (simpl; lia). cbn [mbind option_bind].
  eexists. split; [reflexivity|].
  match goal with |- context [status_blink_loop fuel ?r ?c ?d1] =>
    destruct (status_blink_loop_globals fuel r c d1) as [Hc Hf] end.
  apply quiet_same; [by rewrite Hf|]. rewrite Hc. simpl. auto.
Qed.

(** The flag and the received counter across one operation, with no frame
    arriving. *)
Lemma run_op_quiet o d env' d' :
  run_op o [] d = Some (env', d') → env' = [] ∧ quiet d d'.
Proof.
  intros Hr. destruct o; unfold run_op in Hr.
  - injection Hr as <- <-. split; [done|]. apply quiet_same; auto.
  - destruct (CAN_sendMessage msgId data0 dlc0 d) as [d1|] eqn:Hs;
      [|discriminate]. bind_step Hr. injection Hr as <- <-.
    split; [done|]. by apply CAN_sendMessage_quiet in Hs.
  - rewrite isr_nil in Hr. injection Hr as <- <-.
    split; [done|]. apply CAN_receiveMessage_quiet.
  - destruct (CAN_processMessage msgId data0 dlc0 d) as [d1|] eqn:Hp;
      [|discriminate]. bind_step Hr. injection Hr as <- <-.
    split; [done|]. by apply CAN_processMessage_quiet in Hp.
  - injection Hr as <- <-. split; [done|].
    pose proof (CAN_errorHandler_counters errorStatus d) as (_ & Hc & _ & Hf).
    apply quiet_same; auto.
  - injection Hr as <- <-. split; [done|]. apply quiet_same; auto.
  - injection Hr as <- <-. split; [done|]. apply quiet_same; auto.
  - injection Hr as <- <-. rewrite CAN_getStats_state.
    split; [done|]. apply quiet_same; auto.
  - destruct (CAN_testLoopback_quiet d) as (d1 & E & Hq).
    rewrite E in Hr. by injection Hr as <- <-.
  - destruct (CAN_testTransmit d) as [d1|] eqn:Hs; [|discriminate].
    bind_step Hr. injection Hr as <- <-. unfold CAN_testTransmit in Hs.
    split; [done|]. by apply CAN_sendMessage_quiet in Hs.
  - destruct (CAN_testReceive_quiet d) as (d1 & E & Hq).
    rewrite E in Hr. by injection Hr as <- <-.
  - destruct (main_loop_body counter [] d) as [[[c1 env1] d1]|] eqn:Hm;
      [|discriminate]. bind_step Hr. injection Hr as <- <-.
    by apply main_loop_body_quiet in Hm.
  - destruct (CAN_runUnitTests_builtin_quiet fuel d) as (o & E & Hq).
    rewrite E in Hr. bind_step Hr. by injection Hr as <- <-.
Qed.

(** C7.  No operation of can_communication.c (the driver functions, the
    three test functions, the body of the loop of [main] and the built-in
    test runner), run with no frame arriving, gives the availability flag
    a value other than the one it had or 0.
    So from the initial state, after any sequence of operations, the flag
    is 0, the received counter is 0 and a receive returns 0. *)
Theorem messageReceived_never_set :
  (∀ o d env' d',
     run_op o [] d = Some (env', d') →
     messageReceived d' = messageReceived d ∨ messageReceived d' = 0) ∧
  (∀ ops env' d',
     run ops [] boot = Some (env', d') →
     messageReceived d' = 0 ∧
     messagesReceived (canStats d') = 0 ∧
     ∀ msg, CAN_receiveMessage msg d' = (0, msg, d')).
Proof.
  split.
  - intros o d env' d' Hr. by apply run_op_quiet in Hr as (_ & Hf & _).
  - assert (∀ ops d env' d',
              messageReceived d = 0 → messagesReceived (canStats d) = 0 →
              run ops [] d = Some (env', d') →
              messageReceived d' = 0 ∧ messagesReceived (canStats d') = 0)
      as Hinv.
    { induction ops as [|o ops IH]; intros d env' d' Hf Hc Hr; simpl in Hr.
      - by injection Hr as <- <-.
      - destruct (run_op o [] d) as [[env1 d1]|] eqn:Hop; [|discriminate].
        simpl in Hr. apply run_op_quiet in Hop as (-> & Hf1 & Hc1).
        apply (IH d1 env' d'); [| |done].
        + destruct Hf1 as [Hf1|Hf1]; congruence.
        + destruct (Hc1 Hf) as [Hc2|Hc2]; congruence. }
    intros ops env' d' Hr.
    destruct (Hinv ops boot env' d' eq_refl eq_refl Hr) as [Hf Hc].
    split; [done|]. split; [done|].
    intros msg. by apply CAN_receiveMessage_empty.
Qed.

(** ** The bounded polling loop *)

Lemma incr32_gt x : 0 ≤ x < UINT32_MAX → x < incr32 x.
Proof. intros Hx. rewrite incr32_small by done. lia. Qed.

Lemma receive_wait_spec n : ∀ rxMsg env d,
  match spec_consumed n env (slot_of d) with
  | Some m =>
      ∃ t env',
        receive_wait n rxMsg env d =
          (S t,
           mkMessage (id m) (dlc m)
                     (receive_copy_loop 8 0 (data m) (data rxMsg))
                     (timestamp m),
           env', after_receive (latch m d))
  | None => ∃ env', receive_wait n rxMsg env d = (0%nat, rxMsg, env', d)
  end.
Proof.
  induction n as [|n IH]; intros rxMsg env d; cbn [receive_wait spec_consumed].
  - by exists env.
  - assert (∀ env0, messageReceived d = 0 →
              match spec_consumed n env0 None with
              | Some m =>
                  ∃ t env',
                    receive_wait n rxMsg env0 d =
                      (S t,
                       mkMessage (id m) (dlc m)
                         (receive_copy_loop 8 0 (data m) (data rxMsg))
                         (timestamp m),
                       env', after_receive (latch m d))
              | None =>
                  ∃ env', receive_wait n rxMsg env0 d = (0%nat, rxMsg, env', d)
              end) as IH0.
    { intros env0 E. specialize (IH rxMsg env0 d). unfold slot_of in IH.
      by rewrite E in IH. }
    assert (∀ env0, messageReceived d ≠ 0 →
              ∃ t env',
                (let '(r, rxMsg0, d0) := CAN_receiveMessage rxMsg d in
                 if r =? 0 then receive_wait n rxMsg0 env0 d0
                 else (S n, rxMsg0, env0, d0)) =
                (S t,
                 mkMessage (id (lastRxMessage d)) (dlc (lastRxMessage d))
                   (receive_copy_loop 8 0 (data (lastRxMessage d)) (data rxMsg))
                   (timestamp (lastRxMessage d)),
                 env', after_receive (latch (lastRxMessage d) d))) as Hpend.
    { intros env0 E. rewrite CAN_receiveMessage_pending by done.
      exists n, env0. done. }
    unfold slot_of.
    destruct env as [|[m|] env]; cbn [isr tail].
    + destruct (Z.eqb_spec (messageReceived d) 0) as [E|E].
      * rewrite CAN_receiveMessage_empty by done. by apply IH0.
      * by apply Hpend.
    + rewrite CAN_receiveMessage_pending by done.
      exists n, env. done.
    + destruct (Z.eqb_spec (messageReceived d) 0) as [E|E].
      * rewrite CAN_receiveMessage_empty by done. by apply IH0.
      * by apply Hpend.
Qed.

Lemma getStats_local_eq d : getStats_local d = (1, canStats d, d).
Proof. unfold getStats_local. by rewrite CAN_getStats_copy. Qed.

(** The result of the Receive test in terms of the consumed frame. *)
Lemma Test_CAN_ReceiveMessage_eq env d :
  0 ≤ messagesReceived (canStats d) < UINT32_MAX →
  (Test_CAN_ReceiveMessage env d).1.1 =
    match spec_consumed (Z.to_nat TEST_TIMEOUT_LOOPS) env (slot_of d) with
    | Some m => if (0 <? dlc m) && (dlc m <=? 8) then TEST_PASS else TEST_FAIL
    | None => TEST_FAIL
    end.
Proof.
  intros Hc. unfold Test_CAN_ReceiveMessage.
  rewrite getStats_local_eq.
  pose proof (receive_wait_spec (Z.to_nat TEST_TIMEOUT_LOOPS) uninit_msg env d)
    as Hw.
  destruct (spec_consumed _ env (slot_of d)) as [m|].
  - destruct Hw as (t & env' & ->). rewrite getStats_local_eq.
    cbn [after_receive latch canStats messagesReceived dlc].
    assert ((0 <? Z.of_nat (S t)) = true) as -> by (apply Z.ltb_lt; lia).
    assert ((messagesReceived (canStats d)
               <? incr32 (messagesReceived (canStats d))) = true) as ->
      by (apply Z.ltb_lt; by apply incr32_gt).
    cbn [andb]. by destruct ((0 <? dlc m) && (dlc m <=? 8)).
  - destruct Hw as (env' & ->). rewrite getStats_local_eq. done.
Qed.

(** C8.  The Receive test passes exactly when a frame is consumed within
    the retry budget and its length is between 1 and 8; a consumed frame
    of length 0 makes it fail, although the driver sends and receives
    zero-length frames. *)
Theorem Test_CAN_ReceiveMessage_pass env d :
  0 ≤ messagesReceived (canStats d) < UINT32_MAX →
  ((Test_CAN_ReceiveMessage env d).1.1 = TEST_PASS ↔
     ∃ m, spec_consumed (Z.to_nat TEST_TIMEOUT_LOOPS) env (slot_of d) = Some m ∧
          1 ≤ dlc m ≤ 8) ∧
  ((Test_CAN_ReceiveMessage env d).1.1 = TEST_PASS ∨
   (Test_CAN_ReceiveMessage env d).1.1 = TEST_FAIL) ∧
  (∀ m, spec_consumed (Z.to_nat TEST_TIMEOUT_LOOPS) env (slot_of d) = Some m →
        dlc m = 0 → (Test_CAN_ReceiveMessage env d).1.1 = TEST_FAIL) ∧
  (∀ msgId data d0,
     CAN_sendMessage msgId data 0 d0
       = Some (after_send 0 (replicate 8 (Some 0)) d0)) ∧
  (∀ msg d0,
     messageReceived d0 ≠ 0 → dlc (lastRxMessage d0) = 0 →
     ∃ msg', CAN_receiveMessage msg d0 = (1, msg', after_receive d0) ∧
             dlc msg' = 0).
Proof.
  intros Hc. rewrite (Test_CAN_ReceiveMessage_eq env d Hc).
  split; [|split; [|split; [|split]]].
  - destruct (spec_consumed _ env (slot_of d)) as [m|].
    + destruct (Z.ltb_spec 0 (dlc m)) as [H1|H1];
        destruct (Z.leb_spec (dlc m) 8) as [H2|H2]; cbn [andb].
      * split; [|done]. intros _. exists m. split; [done|lia].
      * split; [discriminate|]. intros (m' & [= <-] & Hm). lia.
      * split; [discriminate|]. intros (m' & [= <-] & Hm). lia.
      * split; [discriminate|]. intros (m' & [= <-] & Hm). lia.
    + split; [discriminate|]. by intros (m & ? & _).
  - destruct (spec_consumed _ env (slot_of d)) as [m|]; [|by right].
    destruct ((0 <? dlc m) && (dlc m <=? 8)); auto.
  - intros m -> ->. done.
  - intros msgId data0 d0.
    by rewrite CAN_sendMessage_eq by (simpl; lia).
  - intros msg d0 Hf Hd. eexists. split.
    + by apply CAN_receiveMessage_pending.
    + done.
Qed.

(** ** Polling while frames arrive *)

Lemma receive_wait_arrival n : ∀ k rxMsg m rest d,
  (k < n)%nat →
  messageReceived d = 0 →
  receive_wait n rxMsg (replicate k None ++ Some m :: rest) d =
    ((n - k)%nat,
     mkMessage (id m) (dlc m)
               (receive_copy_loop 8 0 (data m) (data rxMsg)) (timestamp m),
     rest, after_receive (latch m d)).
Proof.
  induction n as [|n IH]; intros k rxMsg m rest d Hk Hf; [lia|].
  cbn [receive_wait].
  destruct k as [|k]; cbn [replicate app isr].
  - rewrite CAN_receiveMessage_pending by done. done.
  - rewrite CAN_receiveMessage_empty by done.
    cbn [Z.eqb]. rewrite IH by (done || lia). done.
Qed.

Lemma Test_CAN_ReceiveMessage_arrival k m rest d :
  Z.of_nat k < TEST_TIMEOUT_LOOPS →
  messageReceived d = 0 →
  0 ≤ messagesReceived (canStats d) < UINT32_MAX →
  Test_CAN_ReceiveMessage (replicate k None ++ Some m :: rest) d =
    (if (0 <? dlc m) && (dlc m <=? 8) then TEST_PASS else TEST_FAIL,
     rest, after_receive (latch m d)).
Proof.
  intros Hk Hf Hc. unfold Test_CAN_ReceiveMessage.
  rewrite getStats_local_eq, receive_wait_arrival by (done || lia).
  rewrite getStats_local_eq.
  cbn [after_receive latch canStats messagesReceived dlc].
  assert ((0 <? Z.of_nat (Z.to_nat TEST_TIMEOUT_LOOPS - k)) = true) as ->
    by (apply Z.ltb_lt; lia).
  assert ((messagesReceived (canStats d)
             <? incr32 (messagesReceived (canStats d))) = true) as ->
    by (apply Z.ltb_lt; by apply incr32_gt).
  cbn [andb]. by destruct ((0 <? dlc m) && (dlc m <=? 8)).
Qed.

Lemma Test_CAN_ReceiveMessage_nil d :
  messageReceived d = 0 →
  Test_CAN_ReceiveMessage [] d = (TEST_FAIL, [], d).
Proof.
  intros Hf. unfold Test_CAN_ReceiveMessage.
  rewrite getStats_local_eq, receive_wait_nil_empty by done.
  by rewrite getStats_local_eq.
Qed.

(** The state in which [Test_CAN_DataIntegrity] starts to poll. *)
Lemma integrity_send d :
  CAN_sendMessage 0x456 [0x01; 0x02; 0x03; 0x04; 0x05; 0x06; 0x07; 0x08] 8 d =
    Some (after_send 8 (Some <$> [0x01; 0x02; 0x03; 0x04; 0x05; 0x06; 0x07; 0x08])
            d).
Proof. by rewrite CAN_sendMessage_eq by (simpl; lia). Qed.

Lemma Test_CAN_DataIntegrity_arrival k m rest d :
  Z.of_nat k < TEST_TIMEOUT_LOOPS →
  messageReceived d = 0 →
  length (data uninit_msg) = 8%nat →
  dlc m = 8 →
  data m = [0x01; 0x02; 0x03; 0x04; 0x05; 0x06; 0x07; 0x08] →
  Test_CAN_DataIntegrity (replicate k None ++ Some m :: rest) d =
    Some (TEST_PASS, rest,
          after_receive
            (latch m
               (Test_delay TEST_DELAY_LOOPS
                  (after_send 8
                     (Some <$> [0x01; 0x02; 0x03; 0x04; 0x05; 0x06; 0x07; 0x08])
                     d)))).
Proof.
  intros Hk Hf Hu Hd Hm. unfold Test_CAN_DataIntegrity.
  rewrite integrity_send. cbn [mbind option_bind].
  rewrite receive_wait_arrival by (done || lia).
  assert ((Z.of_nat (Z.to_nat TEST_TIMEOUT_LOOPS - k) =? 0) = false) as ->
    by (apply Z.eqb_neq; lia).
  cbn [dlc data]. rewrite Hd. cbn [Z.eqb Pos.eqb negb].
  rewrite receive_copy_all by (done || by rewrite Hm).
  rewrite Hm. reflexivity.
Qed.

Lemma Test_CAN_DataIntegrity_nil d :
  messageReceived d = 0 →
  Test_CAN_DataIntegrity [] d =
    Some (TEST_FAIL, [],
          Test_delay TEST_DELAY_LOOPS
            (after_send 8
               (Some <$> [0x01; 0x02; 0x03; 0x04; 0x05; 0x06; 0x07; 0x08]) d)).
Proof.
  intros Hf. unfold Test_CAN_DataIntegrity.
  rewrite integrity_send. cbn [mbind option_bind].
  by rewrite receive_wait_nil_empty.
Qed.

(** ** The terminal reporting loop *)

Lemma blink_loop_eq n pin : ∀ d,
  blink_loop n pin d =
    mkDriver (canStats d) (lastRxMessage d) (messageReceived d)
             (hw d ++ concat (replicate n (pulse pin))).
Proof.
  induction n as [|n IH]; intros d; cbn [blink_loop replicate concat].
  - rewrite app_nil_r. by destruct d.
  - rewrite IH. unfold Test_delay, emit, pulse. cbn.
    by rewrite <- !app_assoc.
Qed.

Lemma report_iteration_eq h counter :
  report_iteration (h, counter) =
    (mkHarness
       (mkDriver (canStats (driver h)) (lastRxMessage (driver h))
                 (messageReceived (driver h))
                 (hw (driver h)
                  ++ iteration_trace (passedTests (testStats h))
                                     (failedTests (testStats h))))
       (testStats h),
     incr32 counter).
Proof.
  unfold report_iteration, on_driver, iteration_trace, Test_delay, emit.
  cbn [driver testStats]. rewrite !blink_loop_eq.
  cbn [canStats lastRxMessage messageReceived hw].
  by rewrite <- !app_assoc.
Qed.

Lemma reporting_loop_eq fuel : ∀ h counter,
  reporting_loop fuel (h, counter) =
    Running
      (mkHarness
         (mkDriver (canStats (driver h)) (lastRxMessage (driver h))
                   (messageReceived (driver h))
                   (hw (driver h)
                    ++ concat (replicate fuel
                         (iteration_trace (passedTests (testStats h))
                                          (failedTests (testStats h))))))
         (testStats h),
       Nat.iter fuel incr32 counter).
Proof.
  induction fuel as [|fuel IH]; intros h counter;
    cbn [reporting_loop replicate concat].
  - rewrite app_nil_r. by destruct h as [[] ?].
  - rewrite report_iteration_eq, IH.
    cbn [driver testStats canStats lastRxMessage messageReceived hw].
    rewrite <- app_assoc. do 2 f_equal.
    by rewrite Nat.iter_succ_r.
Qed.

(** ** The six tests, stage by stage *)

Lemma record_pass d loops h s r e fl p f :
  messagesTransmitted (canStats d) = s →
  messagesReceived (canStats d) = r →
  errorCount (canStats d) = e →
  messageReceived d = fl →
  passedTests (testStats h) = p → failedTests (testStats h) = f →
  tally (record_and_delay TEST_PASS d loops h) s r e fl (incr32 p) f.
Proof. intros <- <- <- <- <- <-. by repeat split. Qed.

Lemma record_fail d loops h s r e fl p f :
  messagesTransmitted (canStats d) = s →
  messagesReceived (canStats d) = r →
  errorCount (canStats d) = e →
  messageReceived d = fl →
  passedTests (testStats h) = p → failedTests (testStats h) = f →
  tally (record_and_delay TEST_FAIL d loops h) s r e fl p (incr32 f).
Proof. intros <- <- <- <- <- <-. by repeat split. Qed.

(** Closes the side conditions of [record_pass] and [record_fail]. *)
Ltac counters :=
  cbn [Test_delay emit after_send after_receive latch canStats
       messagesTransmitted messagesReceived errorCount messageReceived];
  rewrite ?incr32_small by lia; first [done | lia].

Lemma stage_BasicInitialization_pass h e fl p f :
  tally h 0 0 e fl p f →
  tally (stage_BasicInitialization h) 0 0 e fl (incr32 p) f.
Proof.
  intros (Hs & Hr & He & Hf & Hp & Hq).
  unfold stage_BasicInitialization, Test_CAN_BasicInitialization.
  rewrite getStats_local_eq. cbn [Z.eqb negb]. rewrite Hs, Hr.
  cbn [Z.eqb negb orb].
  apply record_pass; counters.
Qed.

Lemma stage_TransmitMessage_pass h s r e fl p f :
  tally h s r e fl p f →
  0 ≤ s < UINT32_MAX →
  ∃ h', stage_TransmitMessage h = Some h' ∧
        tally h' (s + 1) r e fl (incr32 p) f.
Proof.
  intros (Hs & Hr & He & Hf & Hp & Hq) Hrange.
  unfold stage_TransmitMessage, Test_CAN_TransmitMessage.
  rewrite getStats_local_eq.
  rewrite CAN_sendMessage_eq by (simpl; lia). cbn [mbind option_bind].
  rewrite getStats_local_eq.
  cbn [Test_delay emit after_send canStats messagesTransmitted].
  rewrite Hs.
  assert ((s <? incr32 s) = true) as -> by (apply Z.ltb_lt; by apply incr32_gt).
  eexists. split; [reflexivity|].
  apply record_pass; rewrite ?Hs; counters.
Qed.

Lemma stage_ReceiveMessage_arrival k m rest h s r e p f :
  tally h s r e 0 p f →
  0 ≤ r < UINT32_MAX →
  Z.of_nat k < TEST_TIMEOUT_LOOPS →
  1 ≤ dlc m ≤ 8 →
  ∃ h', stage_ReceiveMessage (replicate k None ++ Some m :: rest) h
          = (rest, h') ∧
        tally h' s (r + 1) e 0 (incr32 p) f.
Proof.
  intros (Hs & Hr & He & Hf & Hp & Hq) Hrange Hk Hm.
  unfold stage_ReceiveMessage.
  rewrite Test_CAN_ReceiveMessage_arrival by (done || lia).
  assert (((0 <? dlc m) && (dlc m <=? 8)) = true) as ->.
  { apply andb_true_intro. split; [apply Z.ltb_lt|apply Z.leb_le]; lia. }
  eexists. split; [reflexivity|].
  apply record_pass; rewrite ?Hr; counters.
Qed.

Lemma stage_ReceiveMessage_nil h s r e p f :
  tally h s r e 0 p f →
  ∃ h', stage_ReceiveMessage [] h = ([], h') ∧
        tally h' s r e 0 p (incr32 f).
Proof.
  intros (Hs & Hr & He & Hf & Hp & Hq).
  unfold stage_ReceiveMessage.
  rewrite Test_CAN_ReceiveMessage_nil by done.
  eexists. split; [reflexivity|].
  apply record_fail; counters.
Qed.

Lemma stage_DataIntegrity_arrival k m rest h s r e p f :
  tally h s r e 0 p f →
  0 ≤ s < UINT32_MAX → 0 ≤ r < UINT32_MAX →
  Z.of_nat k < TEST_TIMEOUT_LOOPS →
  length (data uninit_msg) = 8%nat →
  dlc m = 8 →
  data m = [0x01; 0x02; 0x03; 0x04; 0x05; 0x06; 0x07; 0x08] →
  ∃ h', stage_DataIntegrity (replicate k None ++ Some m :: rest) h
          = Some (rest, h') ∧
        tally h' (s + 1) (r + 1) e 0 (incr32 p) f.
Proof.
  intros (Hs & Hr & He & Hf & Hp & Hq) Hsr Hrr Hk Hu Hd Hm.
  unfold stage_DataIntegrity.
  rewrite Test_CAN_DataIntegrity_arrival by done.
  cbn [mbind option_bind].
  eexists. split; [reflexivity|].
  apply record_pass; rewrite ?Hs, ?Hr; counters.
Qed.

Lemma stage_DataIntegrity_nil h s r e p f :
  tally h s r e 0 p f →
  0 ≤ s < UINT32_MAX →
  ∃ h', stage_DataIntegrity [] h = Some ([], h') ∧
        tally h' (s + 1) r e 0 p (incr32 f).
Proof.
  intros (Hs & Hr & He & Hf & Hp & Hq) Hsr.
  unfold stage_DataIntegrity.
  rewrite Test_CAN_DataIntegrity_nil by done.
  cbn [mbind option_bind].
  eexists. split; [reflexivity|].
  apply record_fail; rewrite ?Hs; counters.
Qed.

Lemma sequential_loop_ok n : ∀ idx d,
  0 ≤ messagesTransmitted (canStats d) →
  messagesTransmitted (canStats d) + Z.of_nat n ≤ UINT32_MAX →
  ∃ d', sequential_loop n idx d = Some d' ∧
        messagesTransmitted (canStats d')
          = messagesTransmitted (canStats d) + Z.of_nat n ∧
        messagesReceived (canStats d') = messagesReceived (canStats d) ∧
        errorCount (canStats d') = errorCount (canStats d) ∧
        messageReceived d' = messageReceived d.
Proof.
  induction n as [|n IH]; intros idx d H0 Hmax; cbn [sequential_loop].
  - exists d. repeat split; lia.
  - rewrite CAN_sendMessage_eq by (simpl; lia). cbn [mbind option_bind].
    match goal with |- context [sequential_loop n ?i ?d1] =>
      destruct (IH i d1) as (d' & -> & Hs & Hr & He & Hf) end.
    + counters.
    + cbn [Test_delay emit after_send canStats messagesTransmitted].
      rewrite incr32_small by lia. lia.
    + exists d'. split; [done|].
      revert Hs Hr He Hf.
      cbn [Test_delay emit after_send canStats messagesTransmitted
           messagesReceived errorCount messageReceived].
      rewrite incr32_small by lia. intros -> -> -> ->.
      repeat split; lia.
Qed.

Lemma stage_SequentialMessages_pass h s r e fl p f :
  tally h s r e fl p f →
  0 ≤ s → s + 5 ≤ UINT32_MAX →
  ∃ h', stage_SequentialMessages h = Some h' ∧
        tally h' (s + 5) r e fl (incr32 p) f.
Proof.
  intros (Hs & Hr & He & Hf & Hp & Hq) H0 Hmax.
  unfold stage_SequentialMessages, Test_CAN_SequentialMessages.
  rewrite getStats_local_eq.
  destruct (sequential_loop_ok 5 0 (driver h)) as (d' & -> & Hs' & Hr' & He' & Hf');
    [lia | lia |].
  cbn [mbind option_bind]. rewrite getStats_local_eq.
  cbn [Test_delay emit canStats]. rewrite Hs', Hs.
  assert ((5 <=? u32 (s + Z.of_nat 5 - s)) = true) as ->.
  { apply Z.leb_le. replace (s + Z.of_nat 5 - s) with 5 by lia. done. }
  eexists. split; [reflexivity|].
  apply record_pass; cbn [Test_delay emit canStats messageReceived]; lia.
Qed.

Lemma stage_ErrorHandling_pass h s r fl p f :
  tally h s r 0 fl p f →
  tally (stage_ErrorHandling h) s r 0 fl (incr32 p) f.
Proof.
  intros (Hs & Hr & He & Hf & Hp & Hq).
  unfold stage_ErrorHandling, Test_CAN_ErrorHandling.
  rewrite getStats_local_eq. rewrite He. cbn [Z.eqb].
  apply record_pass; counters.
Qed.

Lemma main_startup_tally : tally main_startup 0 0 0 0 0 0.
Proof.
  unfold main_startup. rewrite CAN_initModule_eq. by repeat split.
Qed.

Lemma on_driver_tally g h s r e fl p f :
  (∀ d, canStats (g d) = canStats d ∧ messageReceived (g d) = messageReceived d) →
  tally h s r e fl p f → tally (on_driver g h) s r e fl p f.
Proof.
  intros Hg (Hs & Hr & He & Hf & Hp & Hq).
  destruct (Hg (driver h)) as [Ec Ef].
  unfold tally, on_driver. cbn [driver testStats]. rewrite Ec, Ef. done.
Qed.

Lemma bind_Some {A B} (m : option A) (f : A → option B) x r :
  m = Some x → f x = r → m ≫= f = r.
Proof. by intros -> <-. Qed.

(** The six tests when a suitable frame arrives during Test 3 and the
    Test 4 pattern arrives during Test 4, from any state with zero
    counters, no pending frame and an empty tally. *)
Lemma run_tests_all_pass_from h0 k m3 j m4 rest :
  tally h0 0 0 0 0 0 0 →
  Z.of_nat k < TEST_TIMEOUT_LOOPS →
  Z.of_nat j < TEST_TIMEOUT_LOOPS →
  1 ≤ dlc m3 ≤ 8 →
  dlc m4 = 8 →
  data m4 = [0x01; 0x02; 0x03; 0x04; 0x05; 0x06; 0x07; 0x08] →
  length (data uninit_msg) = 8%nat →
  ∃ h,
    run_tests (replicate k None ++ Some m3 :: replicate j None ++ Some m4 :: rest)
              h0 = Some (rest, h) ∧
    tally h 7 2 0 0 6 0.
Proof.
  intros T0 Hk Hj Hm3 Hd4 Hm4 Hu.
  apply (on_driver_tally Test_initStatusLEDs) in T0; [|by intros; split].
  apply (on_driver_tally (Test_delay 500000)) in T0; [|by intros; split].
  apply stage_BasicInitialization_pass in T0.
  apply stage_TransmitMessage_pass in T0 as (h2 & E2 & T2);
    [|unfold UINT32_MAX; lia].
  eapply (stage_ReceiveMessage_arrival k m3) in T2 as (h3 & E3 & T3);
    [|unfold UINT32_MAX; lia|done|done].
  eapply (stage_DataIntegrity_arrival j m4 rest) in T3 as (h4 & E4 & T4);
    [|unfold UINT32_MAX; lia|unfold UINT32_MAX; lia|done|done|done|done].
  apply stage_SequentialMessages_pass in T4 as (h5 & E5 & T5);
    [|lia|unfold UINT32_MAX; lia].
  apply stage_ErrorHandling_pass in T5.
  apply (on_driver_tally (emit (Driverlib.GPIO_writePin DEVICE_GPIO_PIN_LED1 0)))
    in T5; [|by intros; split].
  apply (on_driver_tally (emit (Driverlib.GPIO_writePin DEVICE_GPIO_PIN_LED2 0)))
    in T5; [|by intros; split].
  eexists. split; [|exact T5].
  unfold run_tests. cbv zeta.
  eapply bind_Some; [exact E2|]. cbv beta.
  rewrite E3.
  eapply bind_Some; [exact E4|]. cbv beta iota.
  eapply bind_Some; [exact E5|]. cbv beta.
  reflexivity.
Qed.

(** The six tests when no frame ever arrives: Tests 3 and 4 time out. *)
Lemma run_tests_no_frames_from h0 :
  tally h0 0 0 0 0 0 0 →
  ∃ h, run_tests [] h0 = Some ([], h) ∧ tally h 7 0 0 0 4 2.
Proof.
  intros T0.
  apply (on_driver_tally Test_initStatusLEDs) in T0; [|by intros; split].
  apply (on_driver_tally (Test_delay 500000)) in T0; [|by intros; split].
  apply stage_BasicInitialization_pass in T0.
  apply stage_TransmitMessage_pass in T0 as (h2 & E2 & T2);
    [|unfold UINT32_MAX; lia].
  apply stage_ReceiveMessage_nil in T2 as (h3 & E3 & T3).
  apply stage_DataIntegrity_nil in T3 as (h4 & E4 & T4);
    [|unfold UINT32_MAX; lia].
  apply stage_SequentialMessages_pass in T4 as (h5 & E5 & T5);
    [|lia|unfold UINT32_MAX; lia].
  apply stage_ErrorHandling_pass in T5.
  apply (on_driver_tally (emit (Driverlib.GPIO_writePin DEVICE_GPIO_PIN_LED1 0)))
    in T5; [|by intros; split].
  apply (on_driver_tally (emit (Driverlib.GPIO_writePin DEVICE_GPIO_PIN_LED2 0)))
    in T5; [|by intros; split].
  eexists. split; [|exact T5].
  unfold run_tests. cbv zeta.
  eapply bind_Some; [exact E2|]. cbv beta.
  rewrite E3.
  eapply bind_Some; [exact E4|]. cbv beta iota.
  eapply bind_Some; [exact E5|]. cbv beta.
  reflexivity.
Qed.

(** ** The tests always run to the final loop *)

Lemma stage_TransmitMessage_total h : ∃ h', stage_TransmitMessage h = Some h'.
Proof.
  unfold stage_TransmitMessage, Test_CAN_TransmitMessage.
  rewrite getStats_local_eq.
  rewrite CAN_sendMessage_eq by (simpl; lia). cbn [mbind option_bind].
  rewrite getStats_local_eq.
  destruct (_ <? _); eexists; reflexivity.
Qed.

Lemma stage_DataIntegrity_total env h :
  ∃ env' h', stage_DataIntegrity env h = Some (env', h').
Proof.
  unfold stage_DataIntegrity, Test_CAN_DataIntegrity.
  rewrite integrity_send. cbn [mbind option_bind].
  destruct (receive_wait _ _ _ _) as [[[t rxMsg] env'] d'].
  destruct (Z.of_nat t =? 0); [eexists _, _; reflexivity|].
  destruct (negb _); eexists _, _; reflexivity.
Qed.

Lemma sequential_loop_total n : ∀ idx d, ∃ d', sequential_loop n idx d = Some d'.
Proof.
  induction n as [|n IH]; intros idx d; cbn [sequential_loop]; [by eexists|].
  rewrite CAN_sendMessage_eq by (simpl; lia). cbn [mbind option_bind].
  apply IH.
Qed.

Lemma stage_SequentialMessages_total h :
  ∃ h', stage_SequentialMessages h = Some h'.
Proof.
  unfold stage_SequentialMessages, Test_CAN_SequentialMessages.
  rewrite getStats_local_eq.
  destruct (sequential_loop_total 5 0 (driver h)) as [d' ->].
  cbn [mbind option_bind]. rewrite getStats_local_eq.
  destruct (_ <=? _); eexists; reflexivity.
Qed.

Lemma run_tests_total env h : ∃ env' h', run_tests env h = Some (env', h').
Proof.
  unfold run_tests. cbv zeta.
  match goal with |- context [stage_TransmitMessage ?h1] =>
    destruct (stage_TransmitMessage_total h1) as [h2 E2] end.
  destruct (stage_ReceiveMessage env h2) as [env3 h3] eqn:E3.
  destruct (stage_DataIntegrity_total env3 h3) as (env4 & h4 & E4).
  destruct (stage_SequentialMessages_total h4) as [h5 E5].
  eexists _, _.
  eapply bind_Some; [exact E2|]. cbv beta.
  rewrite E3.
  eapply bind_Some; [exact E4|]. cbv beta iota.
  eapply bind_Some; [exact E5|]. cbv beta.
  reflexivity.
Qed.

(** C10 (as the code has it).  With no fault and with a frame of length
    1..8 arriving while Test 3 polls and the 01..08 pattern of length 8
    arriving while Test 4 polls, the six tests end with 6 passed and 0
    failed.  With no frame arriving at all they end with 4 passed and 2
    failed.  In every case the tests reach the final loop, the loop is
    still running after any number of iterations, and each iteration
    pulses the pass indicator once per passed test, pauses, pulses the
    fail indicator once per failed test and pauses longer. *)
Theorem CAN_runUnitTests_reports_tally k m3 j m4 rest :
  Z.of_nat k < TEST_TIMEOUT_LOOPS →
  Z.of_nat j < TEST_TIMEOUT_LOOPS →
  1 ≤ dlc m3 ≤ 8 →
  dlc m4 = 8 →
  data m4 = [0x01; 0x02; 0x03; 0x04; 0x05; 0x06; 0x07; 0x08] →
  length (data uninit_msg) = 8%nat →
  (∃ h,
     run_tests
       (replicate k None ++ Some m3 :: replicate j None ++ Some m4 :: rest)
       main_startup = Some (rest, h) ∧
     passedTests (testStats h) = 6 ∧ failedTests (testStats h) = 0) ∧
  (∃ h,
     run_tests [] main_startup = Some ([], h) ∧
     passedTests (testStats h) = 4 ∧ failedTests (testStats h) = 2) ∧
  (∀ fuel env start,
     ∃ env' h h' counter,
       run_tests env start = Some (env', h) ∧
       CAN_runUnitTests fuel env start = Some (Running (h', counter)) ∧
       testStats h' = testStats h ∧
       hw (driver h') =
         hw (driver h)
         ++ concat (replicate fuel
              (iteration_trace (passedTests (testStats h))
                               (failedTests (testStats h))))) ∧
  iteration_trace 6 0 =
    concat (replicate 6 (pulse DEVICE_GPIO_PIN_LED1))
    ++ [Driverlib.NOP 500000; Driverlib.NOP 1000000].
Proof.
  intros Hk Hj Hm3 Hd4 Hm4 Hu.
  split; [|split; [|split]].
  - destruct (run_tests_all_pass_from main_startup k m3 j m4 rest
                main_startup_tally Hk Hj Hm3 Hd4 Hm4 Hu)
      as (h & E & (_ & _ & _ & _ & Hp & Hf)).
    exists h. split; [exact E|]. split; assumption.
  - destruct (run_tests_no_frames_from main_startup main_startup_tally)
      as (h & E & (_ & _ & _ & _ & Hp & Hf)).
    exists h. split; [exact E|]. split; assumption.
  - intros fuel env start.
    destruct (run_tests_total env start) as (env' & h & E).
    exists env', h.
    exists (mkHarness
              (mkDriver (canStats (driver h)) (lastRxMessage (driver h))
                 (messageReceived (driver h))
                 (hw (driver h)
                  ++ concat (replicate fuel
                       (iteration_trace (passedTests (testStats h))
                                        (failedTests (testStats h))))))
              (testStats h)).
    exists (Nat.iter fuel incr32 0).
    split; [exact E|]. split; [|split; reflexivity].
    unfold CAN_runUnitTests.
    eapply bind_Some; [exact E|]. cbv beta iota.
    f_equal. apply reporting_loop_eq.
  - reflexivity.
Qed.

(** * Further properties of the driver and the harness *)

(** ** Sending *)

Lemma CAN_sendMessage_inv msgId data dlc d d' :
  CAN_sendMessage msgId data dlc d = Some d' →
  (Z.to_nat (Z.min dlc 8) ≤ length data)%nat ∧
  d' = after_send (Z.min dlc 8)
         ((Some <$> take (Z.to_nat (Z.min dlc 8)) data)
          ++ replicate (8 - Z.to_nat (Z.min dlc 8)) (Some 0)) d.
Proof.
  intros E.
  destruct (decide (Z.to_nat (Z.min dlc 8) ≤ length data)%nat) as [Hn|Hn].
  - split; [done|]. rewrite CAN_sendMessage_eq in E by done. congruence.
  - rewrite CAN_sendMessage_short_buffer in E by lia. discriminate.
Qed.

(** X1.  A send returns (it reads nothing outside the caller's buffer)
    exactly when the buffer holds at least [min(dlc, 8)] bytes. *)
Theorem CAN_sendMessage_returns_iff msgId data dlc d :
  is_Some (CAN_sendMessage msgId data dlc d) ↔
  (Z.to_nat (Z.min dlc 8) ≤ length data)%nat.
Proof.
  split.
  - intros [d' E]. by apply CAN_sendMessage_inv in E as [? _].
  - intros Hn. rewrite CAN_sendMessage_eq by done. by eexists.
Qed.

(** X2.  The message identifier given to a send does not reach the bus
    layer: two sends that differ only in [msgId] make the same bus-layer
    call and leave the same state.  So the echo that [CAN_processMessage]
    sends for a frame with the receive identifier is the send of the same
    bytes under the transmit identifier. *)
Theorem CAN_sendMessage_ignores_msgId msgId msgId' data dlc d :
  CAN_sendMessage msgId data dlc d = CAN_sendMessage msgId' data dlc d ∧
  (RUN_UNIT_TESTS = true →
   CAN_processMessage CAN_RX_MSG_ID data dlc d
     = CAN_sendMessage CAN_TX_MSG_ID data dlc d).
Proof.
  split; [reflexivity|].
  intros Ht. unfold CAN_processMessage. rewrite Ht. reflexivity.
Qed.


(** ** The calls that reach the bus layer *)

Lemma bus_trace_ok_app d d' t :
  hw d' = hw d ++ t → Forall (λ c, bus_call_ok c = true) t →
  bus_trace_ok d → bus_trace_ok d'.
Proof.
  unfold bus_trace_ok. intros -> Ht Hd. by apply Forall_app.
Qed.

Lemma bus_trace_ok_same d d' : hw d' = hw d → bus_trace_ok d → bus_trace_ok d'.
Proof. unfold bus_trace_ok. by intros ->. Qed.

Lemma after_send_bus_call_ok dlc data :
  (Z.to_nat (Z.min dlc 8) ≤ length data)%nat →
  bus_call_ok
    (Driverlib.CAN_sendMessage CAN_MODULE CAN_TX_MSG_OBJ (Z.min dlc 8)
       ((Some <$> take (Z.to_nat (Z.min dlc 8)) data)
        ++ replicate (8 - Z.to_nat (Z.min dlc 8)) (Some 0))) = true.
Proof.
  intros Hn. unfold bus_call_ok.
  rewrite !Z.eqb_refl. cbn [andb].
  assert ((Z.min dlc 8 <=? 8) = true) as -> by (apply Z.leb_le; lia).
  cbn [andb].
  rewrite length_app, length_fmap, length_take, length_replicate.
  assert ((Z.to_nat (Z.min dlc 8) `min` length data
           + (8 - Z.to_nat (Z.min dlc 8)) =? 8)%nat = true) as ->
    by (apply Nat.eqb_eq; lia).
  cbn [andb]. rewrite forallb_app. apply andb_true_intro. split.
  - apply forallb_forall. intros x Hx.
    apply in_map_iff in Hx as (y & <- & _). done.
  - apply forallb_forall. intros x Hx.
    apply list_elem_of_In, elem_of_replicate in Hx as [-> _]. done.
Qed.

Lemma CAN_sendMessage_bus_trace_ok msgId data dlc d d' :
  CAN_sendMessage msgId data dlc d = Some d' →
  bus_trace_ok d → bus_trace_ok d'.
Proof.
  intros E. apply CAN_sendMessage_inv in E as [Hn ->].
  apply bus_trace_ok_app with
    (t := [Driverlib.CAN_sendMessage CAN_MODULE CAN_TX_MSG_OBJ (Z.min dlc 8)
             ((Some <$> take (Z.to_nat (Z.min dlc 8)) data)
              ++ replicate (8 - Z.to_nat (Z.min dlc 8)) (Some 0))]);
    [done|].
  constructor; [by apply after_send_bus_call_ok|constructor].
Qed.

Lemma CAN_receiveMessage_hw msg d : hw (CAN_receiveMessage msg d).2 = hw d.
Proof.
  destruct (CAN_receiveMessage_cases msg d) as [[_ E]|[_ [m E]]]; by rewrite E.
Qed.

Lemma isr_hw env d : hw (isr env d).2 = hw d.
Proof. apply isr_globals. Qed.

Lemma flag_wait_hw n : ∀ env d, hw (flag_wait n env d).2 = hw d.
Proof.
  induction n as [|n IH]; intros env d; cbn [flag_wait]; [done|].
  pose proof (isr_hw env d) as Hi.
  destruct (isr env d) as [env1 d1]. cbn [snd] in Hi.
  destruct (messageReceived d1 =? 0); [|done].
  by rewrite IH.
Qed.

Lemma receive_wait_hw n : ∀ rxMsg env d,
  hw (receive_wait n rxMsg env d).2 = hw d.
Proof.
  induction n as [|n IH]; intros rxMsg env d; cbn [receive_wait]; [done|].
  pose proof (isr_hw env d) as Hi.
  destruct (isr env d) as [env1 d1]. cbn [snd] in Hi.
  pose proof (CAN_receiveMessage_hw rxMsg d1) as Hr.
  destruct (CAN_receiveMessage rxMsg d1) as [[r m] d2]. cbn [snd] in Hr.
  destruct (r =? 0); [|cbn [snd]; congruence].
  rewrite IH. congruence.
Qed.

Lemma emit_bus_trace_ok c d :
  bus_call_ok c = true → bus_trace_ok d → bus_trace_ok (emit c d).
Proof.
  intros Hc. apply bus_trace_ok_app with (t := [c]); [done|].
  by constructor.
Qed.

Lemma init_trace_bus_call_ok : Forall (λ c, bus_call_ok c = true) init_trace.
Proof. unfold init_trace. repeat constructor. Qed.

Lemma CAN_initModule_bus_trace_ok d :
  bus_trace_ok d → bus_trace_ok (CAN_initModule d).
Proof.
  apply bus_trace_ok_app with (t := init_trace);
    [apply CAN_initModule_hw | apply init_trace_bus_call_ok].
Qed.

Lemma CAN_errorHandler_bus_trace_ok errorStatus d :
  bus_trace_ok d → bus_trace_ok (CAN_errorHandler errorStatus d).
Proof.
  intros Hd. rewrite CAN_errorHandler_eq.
  assert (bus_trace_ok (after_fault errorStatus d)) as Hf.
  { revert Hd. apply bus_trace_ok_app
      with (t := [Driverlib.GPIO_writePin ERROR_LED_PIN 1]); [done|].
    by constructor. }
  destruct (c_true _); [by apply CAN_initModule_bus_trace_ok|done].
Qed.

Lemma CAN_processMessage_bus_trace_ok msgId data dlc d d' :
  CAN_processMessage msgId data dlc d = Some d' →
  bus_trace_ok d → bus_trace_ok d'.
Proof.
  unfold CAN_processMessage. intros Hp Hd.
  destruct (msgId =? CAN_RX_MSG_ID).
  - destruct RUN_UNIT_TESTS.
    + by apply CAN_sendMessage_bus_trace_ok in Hp.
    + by injection Hp as <-.
  - destruct (msgId =? CAN_ECHO_MSG_ID); by injection Hp as <-.
Qed.

Lemma CAN_testLoopback_bus_trace_ok env d env' d' :
  CAN_testLoopback env d = Some (env', d') →
  bus_trace_ok d → bus_trace_ok d'.
Proof.
  unfold CAN_testLoopback. intros Ht Hd.
  destruct (CAN_sendMessage _ _ _ d) as [d1|] eqn:Es; [|discriminate].
  apply CAN_sendMessage_bus_trace_ok in Es; [|done].
  cbn [mbind option_bind] in Ht.
  match type of Ht with context [flag_wait ?n env d1] =>
    pose proof (flag_wait_hw n env d1) as Hw;
    destruct (flag_wait n env d1) as [[t env1] d2] end.
  cbn [snd] in Hw.
  assert (bus_trace_ok d2) as H2 by (by apply (bus_trace_ok_same d1)).
  destruct (c_true _ && _).
  - destruct (c_true _); injection Ht as _ <-;
      by apply (bus_trace_ok_same d2).
  - injection Ht as _ <-. by apply (bus_trace_ok_same d2).
Qed.

Lemma CAN_testReceive_bus_trace_ok env d :
  bus_trace_ok d → bus_trace_ok (CAN_testReceive env d).2.
Proof.
  unfold CAN_testReceive. intros Hd.
  match goal with |- context [receive_wait ?n ?m env d] =>
    pose proof (receive_wait_hw n m env d) as Hw;
    destruct (receive_wait n m env d) as [[[t rxMsg] env1] d1] end.
  cbn [snd] in Hw.
  destruct (0 <? _); cbn [snd]; by apply (bus_trace_ok_same d).
Qed.

Lemma main_loop_body_bus_trace_ok counter env d counter' env' d' :
  main_loop_body counter env d = Some (counter', env', d') →
  bus_trace_ok d → bus_trace_ok d'.
Proof.
  unfold main_loop_body. intros Hm Hd.
  assert (∀ c1 d1,
            (if 100000 <=? incr32 counter
             then d0 ← CAN_sendMessage CAN_TX_MSG_ID
                         [0xAA; 0xBB; 0xCC; 0xDD; 0x11; 0x22; 0x33; 0x44] 8 d;
                  Some (0, CAN_toggleLED STATUS_LED_PIN d0)
             else Some (incr32 counter, d)) = Some (c1, d1) →
            bus_trace_ok d1) as H1.
  { intros c1 d1. destruct (100000 <=? incr32 counter).
    - destruct (CAN_sendMessage _ _ _ d) as [d0|] eqn:Es; [|discriminate].
      cbn [mbind option_bind]. intros [= _ <-].
      apply emit_bus_trace_ok; [done|].
      by apply CAN_sendMessage_bus_trace_ok in Es.
    - by intros [= _ <-]. }
  cbv zeta in Hm.
  destruct (if 100000 <=? incr32 counter then _ else _) as [[c1 d1]|];
    [|discriminate].
  specialize (H1 c1 d1 eq_refl). cbn [mbind option_bind] in Hm.
  pose proof (isr_hw env d1) as Hi.
  destruct (isr env d1) as [env1 d2]. cbn [snd] in Hi.
  pose proof (CAN_receiveMessage_hw uninit_msg d2) as Hr.
  destruct (CAN_receiveMessage uninit_msg d2) as [[r rxMsg] d3].
  cbn [snd] in Hr.
  assert (bus_trace_ok d3) as H3.
  { apply (bus_trace_ok_same d1); [congruence|done]. }
  destruct (c_true r).
  - destruct (CAN_processMessage _ _ _ d3) as [d4|] eqn:Hp; [|discriminate].
    cbn [mbind option_bind] in Hm. injection Hm as _ _ <-.
    apply emit_bus_trace_ok; [done|].
    by apply CAN_processMessage_bus_trace_ok in Hp.
  - by injection Hm as _ _ <-.
Qed.

Lemma status_blink_loop_bus_trace_ok fuel blinkRate : ∀ counter d,
  bus_trace_ok d →
  bus_trace_ok (observed (status_blink_loop fuel blinkRate counter d)).2.
Proof.
  induction fuel as [|fuel IH]; intros counter d Hd;
    cbn [status_blink_loop]; [done|].
  destruct (blinkRate <=? incr32 counter); apply IH; [|done].
  by apply emit_bus_trace_ok.
Qed.

Lemma CAN_runUnitTests_builtin_bus_trace_ok fuel env d env' o :
  CAN_runUnitTests_builtin fuel env d = Some (env', o) →
  bus_trace_ok d → bus_trace_ok (observed o).2.
Proof.
  unfold CAN_runUnitTests_builtin, CAN_USE_LOOPBACK, CAN_testTransmit.
  cbn [mbind option_bind]. intros Hr Hd.
  match type of Hr with context [CAN_sendMessage ?i ?b ?l ?d0] =>
    destruct (CAN_sendMessage i b l d0) as [d1|] eqn:Es; [|discriminate];
    apply CAN_sendMessage_bus_trace_ok in Es; [|exact Hd] end.
  cbn [mbind option_bind] in Hr.
  destruct (1 <=? _); injection Hr as _ <-;
    by apply status_blink_loop_bus_trace_ok.
Qed.

Lemma run_op_bus_trace_ok o env d env' d' :
  run_op o env d = Some (env', d') → bus_trace_ok d → bus_trace_ok d'.
Proof.
  destruct o; unfold run_op; intros Hr Hd.
  - injection Hr as _ <-. by apply CAN_initModule_bus_trace_ok.
  - destruct (CAN_sendMessage _ _ _ d) as [d1|] eqn:Es; [|discriminate].
    injection Hr as _ <-. by apply CAN_sendMessage_bus_trace_ok in Es.
  - pose proof (isr_hw env d) as Hi.
    destruct (isr env d) as [env1 d1]. cbn [snd] in Hi.
    injection Hr as _ <-.
    apply (bus_trace_ok_same d); [|done].
    rewrite CAN_receiveMessage_hw. done.
  - destruct (CAN_processMessage _ _ _ d) as [d1|] eqn:Es; [|discriminate].
    injection Hr as _ <-. by apply CAN_processMessage_bus_trace_ok in Es.
  - injection Hr as _ <-. by apply CAN_errorHandler_bus_trace_ok.
  - injection Hr as _ <-. by apply emit_bus_trace_ok.
  - injection Hr as _ <-. by apply emit_bus_trace_ok.
  - injection Hr as _ <-. by rewrite CAN_getStats_state.
  - by apply CAN_testLoopback_bus_trace_ok in Hr.
  - unfold CAN_testTransmit in Hr.
    destruct (CAN_sendMessage _ _ _ d) as [d1|] eqn:Es; [|discriminate].
    injection Hr as _ <-. by apply CAN_sendMessage_bus_trace_ok in Es.
  - pose proof (CAN_testReceive_bus_trace_ok env d Hd) as Ht.
    destruct (CAN_testReceive env d). injection Hr as _ <-. done.
  - destruct (main_loop_body counter env d) as [[[c1 env1] d1]|] eqn:Em;
      [|discriminate].
    injection Hr as _ <-. by apply main_loop_body_bus_trace_ok in Em.
  - destruct (CAN_runUnitTests_builtin fuel env d) as [[env1 o]|] eqn:Eb;
      [|discriminate].
    injection Hr as _ <-. by apply CAN_runUnitTests_builtin_bus_trace_ok in Eb.
Qed.

(** X3.  Whatever sequence of functions of can_communication.c runs and
    whatever frames arrive, every send handed to the bus layer is on the
    driver's module and transmit slot, has a length of at most 8 and an
    8-byte buffer with no indeterminate cell. *)
Theorem bus_calls_well_formed ops : ∀ env d env' d',
  bus_trace_ok d →
  run ops env d = Some (env', d') →
  bus_trace_ok d'.
Proof.
  induction ops as [|o ops IH]; intros env d env' d' Hd Hr; cbn [run] in Hr.
  - by injection Hr as _ <-.
  - destruct (run_op o env d) as [[env1 d1]|] eqn:Ho; [|discriminate].
    cbn [mbind option_bind] in Hr.
    apply run_op_bus_trace_ok in Ho; [|done].
    by apply (IH env1 d1 env' d').
Qed.

(** ** How the operations compose *)

(** X4.  A send and a receive do not interfere: a send leaves a pending
    frame pending, and sending then receiving gives the same return
    value, the same received frame and the same final state as receiving
    then sending. *)
Theorem send_receive_commute msgId data dlc msg d d1 :
  CAN_sendMessage msgId data dlc d = Some d1 →
  lastRxMessage d1 = lastRxMessage d ∧
  messageReceived d1 = messageReceived d ∧
  ∃ d12,
    CAN_sendMessage msgId data dlc (CAN_receiveMessage msg d).2 = Some d12 ∧
    CAN_receiveMessage msg d1 = ((CAN_receiveMessage msg d).1, d12).
Proof.
  intros E. apply CAN_sendMessage_inv in E as [Hn ->].
  split; [done|]. split; [done|].
  eexists. split; [by apply CAN_sendMessage_eq|].
  unfold CAN_receiveMessage.
  cbn [after_send messageReceived lastRxMessage].
  by destruct (messageReceived d =? 0).
Qed.

(** X5.  Neither the fault handler (with or without the bus-off
    re-initialisation) nor [CAN_initModule] disturbs the receive slot: a
    receive after them returns what it would have returned before, and
    the two orders end in the same state. *)
Theorem receive_survives_fault errorStatus msg d :
  CAN_receiveMessage msg (CAN_errorHandler errorStatus d)
    = ((CAN_receiveMessage msg d).1,
       CAN_errorHandler errorStatus (CAN_receiveMessage msg d).2) ∧
  CAN_receiveMessage msg (CAN_initModule d)
    = ((CAN_receiveMessage msg d).1,
       CAN_initModule (CAN_receiveMessage msg d).2).
Proof.
  split.
  - rewrite !CAN_errorHandler_eq.
    destruct (c_true _); rewrite ?CAN_initModule_eq;
      unfold CAN_receiveMessage;
      cbn [after_fault messageReceived lastRxMessage canStats hw];
      by destruct (messageReceived d =? 0).
  - rewrite !CAN_initModule_eq. unfold CAN_receiveMessage.
    cbn [messageReceived lastRxMessage canStats hw].
    by destruct (messageReceived d =? 0).
Qed.

(** ** The byte comparison loops *)

Lemma loopback_compare_0 n : ∀ idx rx testData,
  loopback_compare n idx rx testData 0 = 0.
Proof.
  induction n as [|n IH]; intros idx rx testData; cbn [loopback_compare];
    [done|].
  destruct (bool_decide _); apply IH.
Qed.

Lemma loopback_compare_take n : ∀ idx rx testData,
  (idx + n ≤ length rx)%nat → (idx + n ≤ length testData)%nat →
  loopback_compare n idx rx testData 1 =
    if bool_decide (take n (drop idx rx) = take n (drop idx testData))
    then 1 else 0.
Proof.
  induction n as [|n IH]; intros idx rx testData Hr Ht;
    cbn [loopback_compare]; [done|].
  assert (rx !! idx = Some (rx !!! idx)) as Er
    by (apply list_lookup_lookup_total_lt; lia).
  assert (testData !! idx = Some (testData !!! idx)) as Et
    by (apply list_lookup_lookup_total_lt; lia).
  rewrite (drop_S rx _ idx Er), (drop_S testData _ idx Et).
  cbn [take].
  destruct (decide (rx !!! idx = testData !!! idx)) as [E|E].
  - rewrite (bool_decide_eq_false_2 _) by (by intros []).
    rewrite IH by lia. rewrite E.
    destruct (decide (take n (drop (S idx) rx)
                      = take n (drop (S idx) testData))) as [E'|E'].
    + rewrite !bool_decide_eq_true_2; congruence.
    + rewrite !bool_decide_eq_false_2; congruence.
  - rewrite (bool_decide_eq_true_2 _) by done.
    rewrite loopback_compare_0.
    rewrite bool_decide_eq_false_2; congruence.
Qed.

Lemma loopback_compare_8 rx testData :
  length rx = 8%nat → length testData = 8%nat →
  loopback_compare 8 0 rx testData 1
    = if bool_decide (rx = testData) then 1 else 0.
Proof.
  intros Hr Ht. rewrite loopback_compare_take by lia.
  rewrite !drop_0, !take_ge by lia. done.
Qed.

(** X6.  The comparison loop of [CAN_testLoopback] leaves [dataMatches]
    at 1 when the received 8 bytes equal the 8 bytes sent and at 0
    otherwise. *)
Theorem loopback_compare_correct rx testData :
  length rx = 8%nat → length testData = 8%nat →
  loopback_compare 8 0 rx testData 1
    = if bool_decide (rx = testData) then 1 else 0.
Proof. apply loopback_compare_8. Qed.

Lemma integrity_compare_loopback n : ∀ idx rx tx,
  integrity_compare n idx rx tx 1 = loopback_compare n idx rx tx 1.
Proof.
  induction n as [|n IH]; intros idx rx tx;
    cbn [integrity_compare loopback_compare]; [done|].
  destruct (bool_decide _); [by rewrite loopback_compare_0|apply IH].
Qed.

(** X7.  The comparison loop of [Test_CAN_DataIntegrity], which breaks at
    the first mismatch, computes the same result as the loop of
    [CAN_testLoopback], which goes on to the end: for every input, start
    index and number of iterations. *)
Theorem integrity_compare_same n idx rx tx :
  integrity_compare n idx rx tx 1 = loopback_compare n idx rx tx 1.
Proof. apply integrity_compare_loopback. Qed.

(** ** CAN_testLoopback *)

Lemma isr_canStats env d : canStats (isr env d).2 = canStats d.
Proof. apply isr_globals. Qed.

Lemma flag_wait_canStats n : ∀ env d,
  canStats (flag_wait n env d).2 = canStats d.
Proof.
  induction n as [|n IH]; intros env d; cbn [flag_wait]; [done|].
  pose proof (isr_canStats env d) as Hi.
  destruct (isr env d) as [env1 d1]. cbn [snd] in Hi.
  destruct (messageReceived d1 =? 0); [|done].
  by rewrite IH.
Qed.

Lemma flag_wait_silent n : ∀ k d,
  messageReceived d = 0 →
  flag_wait n (replicate k None) d = (0%nat, replicate (k - n) None, d).
Proof.
  induction n as [|n IH]; intros k d Hf; cbn [flag_wait].
  - by rewrite Nat.sub_0_r.
  - destruct k as [|k]; cbn [replicate isr]; rewrite Hf; cbn [Z.eqb].
    + by rewrite (IH 0%nat).
    + by rewrite IH.
Qed.

Lemma flag_wait_arrival n : ∀ k m rest d,
  (k < n)%nat →
  messageReceived d = 0 →
  flag_wait n (replicate k None ++ Some m :: rest) d
    = ((n - k)%nat, rest, latch m d).
Proof.
  induction n as [|n IH]; intros k m rest d Hk Hf; [lia|].
  cbn [flag_wait]. destruct k as [|k]; cbn [replicate app isr].
  - done.
  - rewrite Hf. cbn [Z.eqb]. rewrite IH by (done || lia). done.
Qed.

Lemma loopback_send d :
  CAN_sendMessage CAN_TX_MSG_ID
      [0x11; 0x22; 0x33; 0x44; 0x55; 0x66; 0x77; 0x88] 8 d =
    Some (after_send 8
            (Some <$> [0x11; 0x22; 0x33; 0x44; 0x55; 0x66; 0x77; 0x88]) d).
Proof. by rewrite CAN_sendMessage_eq by (simpl; lia). Qed.

(** X8.  [CAN_testLoopback] always returns; it counts one send and never
    counts a reception, even when it consumes the looped-back frame.
    Either it leaves the error counter alone, and then the flag is clear
    and the latched frame has length 8, or it counts exactly one error.
    With nothing pending and no frame arriving it counts an error. *)
Theorem CAN_testLoopback_outcome env d :
  (∃ env' d',
     CAN_testLoopback env d = Some (env', d') ∧
     messagesTransmitted (canStats d')
       = incr32 (messagesTransmitted (canStats d)) ∧
     messagesReceived (canStats d') = messagesReceived (canStats d) ∧
     lastErrorCode (canStats d') = lastErrorCode (canStats d) ∧
     ((errorCount (canStats d') = errorCount (canStats d) ∧
       messageReceived d' = 0 ∧ dlc (lastRxMessage d') = 8) ∨
      errorCount (canStats d') = incr32 (errorCount (canStats d)))) ∧
  (∀ k, messageReceived d = 0 →
     ∃ env' d',
       CAN_testLoopback (replicate k None) d = Some (env', d') ∧
       errorCount (canStats d') = incr32 (errorCount (canStats d))).
Proof.
  split.
  - unfold CAN_testLoopback. rewrite loopback_send.
    cbn [mbind option_bind].
    match goal with |- context [flag_wait ?n env ?d1] =>
      pose proof (flag_wait_canStats n env d1) as Hc;
      destruct (flag_wait n env d1) as [[t env1] d2] end.
    cbn [snd after_send canStats] in Hc.
    destruct (c_true (messageReceived d2)); cbn [andb].
    + destruct (Z.eqb_spec (dlc (lastRxMessage d2)) 8) as [E8|E8].
      * destruct (c_true _); eexists _, _; (split; [reflexivity|]);
          cbn [with_flag bump_errorCount with_stats canStats
               messagesTransmitted messagesReceived errorCount lastErrorCode
               messageReceived lastRxMessage];
          rewrite Hc; cbn [messagesTransmitted messagesReceived errorCount
                           lastErrorCode]; auto 10.
      * eexists _, _; (split; [reflexivity|]).
        cbn [bump_errorCount with_stats canStats messagesTransmitted
             messagesReceived errorCount lastErrorCode].
        rewrite Hc. cbn [messagesTransmitted messagesReceived errorCount
                         lastErrorCode]. auto 10.
    + eexists _, _; (split; [reflexivity|]).
      cbn [bump_errorCount with_stats canStats messagesTransmitted
           messagesReceived errorCount lastErrorCode].
      rewrite Hc. cbn [messagesTransmitted messagesReceived errorCount
                       lastErrorCode]. auto 10.
  - intros k Hf. unfold CAN_testLoopback. rewrite loopback_send.
    cbn [mbind option_bind].
    rewrite flag_wait_silent by done.
    cbn [after_send messageReceived]. rewrite Hf.
    cbn [c_true Z.eqb negb andb].
    eexists _, _. split; [reflexivity|]. done.
Qed.

(** X9.  When nothing is pending and frame [m] is latched during the wait
    of [CAN_testLoopback]: if [m] has length 8 and carries the bytes that
    were sent, the flag is cleared and no error is counted (nor is a
    reception); otherwise one error is counted and [m] stays pending, so
    that the next receive returns it. *)
Theorem CAN_testLoopback_arrival k m rest d :
  Z.of_nat k < 100000 →
  messageReceived d = 0 →
  length (data m) = 8%nat →
  let sent :=
    latch m (after_send 8
               (Some <$> [0x11; 0x22; 0x33; 0x44; 0x55; 0x66; 0x77; 0x88]) d) in
  CAN_testLoopback (replicate k None ++ Some m :: rest) d =
    Some (rest,
          if bool_decide (dlc m = 8 ∧
                          data m = [0x11; 0x22; 0x33; 0x44;
                                    0x55; 0x66; 0x77; 0x88])
          then with_flag 0 sent else bump_errorCount sent).
Proof.
  intros Hk Hf Hl sent. unfold CAN_testLoopback. rewrite loopback_send.
  cbn [mbind option_bind].
  rewrite flag_wait_arrival by (done || lia).
  fold sent. cbn [sent latch messageReceived lastRxMessage].
  change (c_true 1) with true. cbn [andb].
  destruct (Z.eqb_spec (dlc m) 8) as [E8|E8].
  - rewrite loopback_compare_8 by done.
    destruct (decide (data m = [0x11; 0x22; 0x33; 0x44;
                                0x55; 0x66; 0x77; 0x88])) as [Ed|Ed].
    + rewrite !bool_decide_eq_true_2 by done. done.
    + rewrite (bool_decide_eq_false_2 (data m = _)) by done.
      rewrite bool_decide_eq_false_2 by (by intros [_ ?]). done.
  - rewrite bool_decide_eq_false_2 by (by intros [? _]). done.
Qed.

(** ** CAN_testReceive *)

Lemma receive_wait_silent n : ∀ k rxMsg d,
  messageReceived d = 0 →
  receive_wait n rxMsg (replicate k None) d
    = (0%nat, rxMsg, replicate (k - n) None, d).
Proof.
  induction n as [|n IH]; intros k rxMsg d Hf; cbn [receive_wait].
  - by rewrite Nat.sub_0_r.
  - destruct k as [|k]; cbn [replicate isr];
      rewrite CAN_receiveMessage_empty by done; cbn [Z.eqb].
    + by rewrite (IH 0%nat).
    + by rewrite IH.
Qed.

Lemma receive_wait_state n rxMsg env d :
  (receive_wait n rxMsg env d).2 = d ∨
  ∃ m, (receive_wait n rxMsg env d).2 = after_receive (latch m d).
Proof.
  pose proof (receive_wait_spec n rxMsg env d) as H.
  destruct (spec_consumed n env (slot_of d)) as [m|].
  - destruct H as (t & env' & ->). right. by exists m.
  - destruct H as (env' & ->). by left.
Qed.

(** X10.  [CAN_testReceive] judges by the cumulative received counter,
    not by what its own wait consumed: it counts an error exactly when
    the counter is 0 after the wait.  So once a frame has been counted
    the test never reports an error, whether or not a frame arrives; and
    with a zero counter, nothing pending and no frame arriving it counts
    one.  The sent counter is left alone. *)
Theorem CAN_testReceive_outcome env d :
  let d' := (CAN_testReceive env d).2 in
  messagesTransmitted (canStats d') = messagesTransmitted (canStats d) ∧
  errorCount (canStats d')
    = (if 0 <? messagesReceived (canStats d') then errorCount (canStats d)
       else incr32 (errorCount (canStats d))) ∧
  (1 ≤ messagesReceived (canStats d) < UINT32_MAX →
   errorCount (canStats d') = errorCount (canStats d)) ∧
  (messagesReceived (canStats d) = 0 → messageReceived d = 0 →
   ∀ k, errorCount (canStats (CAN_testReceive (replicate k None) d).2)
        = incr32 (errorCount (canStats d))).
Proof.
  cbv zeta. unfold CAN_testReceive.
  split; [|split; [|split]].
  - match goal with |- context [receive_wait ?n ?m env d] =>
      destruct (receive_wait_state n m env d) as [E|[m' E]];
      destruct (receive_wait n m env d) as [[[t rxMsg] env1] d1] end;
      cbn [snd] in E; subst d1; by destruct (0 <? _).
  - match goal with |- context [receive_wait ?n ?m env d] =>
      destruct (receive_wait_state n m env d) as [E|[m' E]];
      destruct (receive_wait n m env d) as [[[t rxMsg] env1] d1] end;
      cbn [snd] in E; subst d1;
      (destruct (0 <? _) eqn:E0;
       cbn [snd bump_errorCount with_stats canStats messagesReceived
            errorCount]; by rewrite E0).
  - intros Hr.
    match goal with |- context [receive_wait ?n ?m env d] =>
      destruct (receive_wait_state n m env d) as [E|[m' E]];
      destruct (receive_wait n m env d) as [[[t rxMsg] env1] d1] end;
      cbn [snd] in E; subst d1.
    + assert ((0 <? messagesReceived (canStats d)) = true) as ->
        by (apply Z.ltb_lt; lia). done.
    + cbn [after_receive latch canStats messagesReceived].
      rewrite incr32_small by lia.
      assert ((0 <? messagesReceived (canStats d) + 1) = true) as ->
        by (apply Z.ltb_lt; lia). done.
  - intros Hr Hf k. rewrite receive_wait_silent by done.
    rewrite Hr. done.
Qed.

(** ** The built-in test runner of can_communication.c *)

Lemma status_blink_loop_eq fuel blinkRate : ∀ counter d,
  0 < blinkRate ≤ UINT32_MAX →
  0 ≤ counter < blinkRate →
  status_blink_loop fuel blinkRate counter d =
    Running ((counter + Z.of_nat fuel) mod blinkRate,
             mkDriver (canStats d) (lastRxMessage d) (messageReceived d)
               (hw d ++ replicate
                          (Z.to_nat ((counter + Z.of_nat fuel) / blinkRate))
                          (Driverlib.GPIO_togglePin STATUS_LED_PIN))).
Proof.
  induction fuel as [|fuel IH]; intros counter d Hrate Hc.
  - cbn [status_blink_loop Z.of_nat]. rewrite Z.add_0_r.
    rewrite Z.mod_small, Z.div_small by lia.
    cbn [Z.to_nat replicate]. rewrite app_nil_r. by destruct d.
  - cbn [status_blink_loop]. rewrite incr32_small by lia.
    rewrite Nat2Z.inj_succ.
    destruct (Z.leb_spec blinkRate (counter + 1)) as [Hle|Hgt].
    + rewrite IH by lia.
      replace (counter + Z.succ (Z.of_nat fuel))
        with (0 + Z.of_nat fuel + 1 * blinkRate) by lia.
      rewrite Z.mod_add, Z.div_add by lia.
      rewrite Z2Nat.inj_add by (try apply Z.div_pos; lia).
      rewrite Nat.add_comm. cbn [Z.to_nat Pos.to_nat Pos.iter_op Nat.add].
      cbn [replicate CAN_toggleLED emit canStats lastRxMessage
           messageReceived hw].
      by rewrite <- app_assoc.
    + rewrite IH by lia.
      by replace (counter + 1 + Z.of_nat fuel)
        with (counter + Z.succ (Z.of_nat fuel)) by lia.
Qed.

(** X11.  The final loop of the built-in [CAN_runUnitTests]: for a blink
    rate between 1 and 2^32-1 and a counter below it, after [fuel]
    iterations the loop is still running, the status LED has been toggled
    once per [blinkRate] iterations and nothing else has changed. *)
Theorem status_blink_loop_toggles fuel blinkRate counter d :
  0 < blinkRate ≤ UINT32_MAX →
  0 ≤ counter < blinkRate →
  status_blink_loop fuel blinkRate counter d =
    Running ((counter + Z.of_nat fuel) mod blinkRate,
             mkDriver (canStats d) (lastRxMessage d) (messageReceived d)
               (hw d ++ replicate
                          (Z.to_nat ((counter + Z.of_nat fuel) / blinkRate))
                          (Driverlib.GPIO_togglePin STATUS_LED_PIN))).
Proof. apply status_blink_loop_eq. Qed.

(** X12.  The built-in [CAN_runUnitTests] (loopback compiled out) cannot
    report a failure: from every state and whatever arrives, it clears
    the three counters (not the last error code), sends its one test
    frame, and then blinks the status LED at the fast rate of one toggle
    per 50000 iterations for ever. *)
Theorem CAN_runUnitTests_builtin_always_fast fuel env d :
  CAN_runUnitTests_builtin fuel env d =
    Some (env,
          Running
            (Z.of_nat fuel mod 50000,
             mkDriver (mkStats 1 0 0 (lastErrorCode (canStats d)))
               (lastRxMessage d) (messageReceived d)
               (hw d
                ++ [Driverlib.CAN_sendMessage CAN_MODULE CAN_TX_MSG_OBJ 8
                      (Some <$> [0xAA; 0xBB; 0xCC; 0xDD;
                                 0xEE; 0xFF; 0x00; 0x11])]
                ++ replicate (Z.to_nat (Z.of_nat fuel / 50000))
                     (Driverlib.GPIO_togglePin STATUS_LED_PIN)))).
Proof.
  unfold CAN_runUnitTests_builtin, CAN_USE_LOOPBACK, CAN_testTransmit.
  cbn [mbind option_bind].
  rewrite CAN_sendMessage_eq by (simpl; lia).
  cbn [mbind option_bind after_send with_stats canStats messagesTransmitted
       messagesReceived errorCount lastErrorCode lastRxMessage
       messageReceived hw].
  change (incr32 0) with 1. change (1 <=? 1) with true. cbv beta iota.
  change (0 =? 0) with true. cbv beta iota.
  rewrite status_blink_loop_eq by (unfold UINT32_MAX; lia).
  rewrite Z.add_0_l.
  cbn [after_send with_stats canStats lastRxMessage messageReceived hw
       lastErrorCode messagesReceived errorCount messagesTransmitted].
  rewrite <- app_assoc. reflexivity.
Qed.

(** ** The loop of [main] *)

Lemma isr_silent k d : isr (replicate k None) d = (replicate (k - 1) None, d).
Proof. destruct k as [|k]; simpl; by rewrite ?Nat.sub_0_r. Qed.

Lemma main_loop_body_silent k counter d :
  messageReceived d = 0 →
  0 ≤ counter < 100000 →
  main_loop_body counter (replicate k None) d =
    Some (if 100000 <=? counter + 1 then 0 else counter + 1,
          replicate (k - 1) None,
          if 100000 <=? counter + 1 then periodic_send d else d).
Proof.
  intros Hf Hc. unfold main_loop_body. cbv zeta.
  rewrite incr32_small by (unfold UINT32_MAX; lia).
  destruct (100000 <=? counter + 1).
  - rewrite CAN_sendMessage_eq by (simpl; lia).
    cbn [mbind option_bind]. rewrite isr_silent.
    rewrite CAN_receiveMessage_empty by done. done.
  - cbn [mbind option_bind]. rewrite isr_silent.
    rewrite CAN_receiveMessage_empty by done. done.
Qed.

Lemma main_loop_silent fuel : ∀ k counter d,
  messageReceived d = 0 →
  0 ≤ counter < 100000 →
  main_loop fuel counter (replicate k None) d =
    Some (Running ((counter + Z.of_nat fuel) mod 100000,
                   replicate (k - fuel) None,
                   Nat.iter (Z.to_nat ((counter + Z.of_nat fuel) / 100000))
                            periodic_send d)).
Proof.
  induction fuel as [|fuel IH]; intros k counter d Hf Hc.
  - cbn [main_loop Z.of_nat]. rewrite Z.add_0_r, Nat.sub_0_r.
    by rewrite Z.mod_small, Z.div_small by lia.
  - cbn [main_loop]. rewrite main_loop_body_silent by done.
    cbn [mbind option_bind]. rewrite Nat2Z.inj_succ.
    replace (k - S fuel)%nat with (k - 1 - fuel)%nat by lia.
    destruct (Z.leb_spec 100000 (counter + 1)) as [Hle|Hgt].
    + rewrite IH by (done || lia).
      replace (counter + Z.succ (Z.of_nat fuel))
        with (0 + Z.of_nat fuel + 1 * 100000) by lia.
      rewrite Z.mod_add, Z.div_add by lia.
      rewrite Z2Nat.inj_add by (try apply Z.div_pos; lia).
      rewrite Nat.add_comm. change (Z.to_nat 1) with 1%nat.
      cbn [Nat.add]. by rewrite Nat.iter_succ_r.
    + rewrite IH by (done || lia).
      by replace (counter + 1 + Z.of_nat fuel)
        with (counter + Z.succ (Z.of_nat fuel)) by lia.
Qed.

Lemma periodic_send_iter_hw q : ∀ d,
  hw (Nat.iter q periodic_send d) =
    hw d ++ concat (replicate q
      [Driverlib.CAN_sendMessage CAN_MODULE CAN_TX_MSG_OBJ 8
         (Some <$> [0xAA; 0xBB; 0xCC; 0xDD; 0x11; 0x22; 0x33; 0x44]);
       Driverlib.GPIO_togglePin STATUS_LED_PIN]).
Proof.
  induction q as [|q IH]; intros d.
  - cbn [Nat.iter nat_rect replicate concat]. by rewrite app_nil_r.
  - rewrite Nat.iter_succ_r, IH.
    cbn [periodic_send CAN_toggleLED emit after_send hw replicate concat].
    by rewrite <- !app_assoc.
Qed.

(** X13.  Normal operation with nothing pending and no frame arriving:
    after [fuel] iterations the loop of [main] is still running, it has
    sent its test frame once per 100000 iterations, toggling the status
    LED after each send, and has made no other driverlib call. *)
Theorem main_loop_sends_periodically fuel k counter d :
  messageReceived d = 0 →
  0 ≤ counter < 100000 →
  let sends := Z.to_nat ((counter + Z.of_nat fuel) / 100000) in
  main_loop fuel counter (replicate k None) d =
    Some (Running ((counter + Z.of_nat fuel) mod 100000,
                   replicate (k - fuel) None,
                   Nat.iter sends periodic_send d)) ∧
  hw (Nat.iter sends periodic_send d) =
    hw d ++ concat (replicate sends
      [Driverlib.CAN_sendMessage CAN_MODULE CAN_TX_MSG_OBJ 8
         (Some <$> [0xAA; 0xBB; 0xCC; 0xDD; 0x11; 0x22; 0x33; 0x44]);
       Driverlib.GPIO_togglePin STATUS_LED_PIN]).
Proof.
  intros Hf Hc sends. split.
  - by apply main_loop_silent.
  - apply periodic_send_iter_hw.
Qed.

(** X14.  Normal operation (built without [RUN_UNIT_TESTS]): an
    iteration of the loop of [main] during which frame [m] is latched
    consumes the frame, counts it and toggles the status LED, and sends
    nothing in response, whatever the identifier and the contents of
    [m]. *)
Theorem main_loop_body_frame counter m env d :
  RUN_UNIT_TESTS = false →
  0 ≤ counter < UINT32_MAX →
  main_loop_body counter (Some m :: env) d =
    Some (if 100000 <=? counter + 1 then 0 else counter + 1,
          env,
          CAN_toggleLED STATUS_LED_PIN
            (after_receive
               (latch m (if 100000 <=? counter + 1 then periodic_send d
                         else d)))).
Proof.
  intros Hb Hc. unfold main_loop_body. cbv zeta.
  rewrite incr32_small by done.
  assert (∀ d1, CAN_processMessage (id m) (receive_copy_loop 8 0 (data m)
                                      (data uninit_msg)) (dlc m) d1 = Some d1)
    as Hp.
  { intros d1. unfold CAN_processMessage. rewrite Hb.
    by destruct (id m =? CAN_RX_MSG_ID), (id m =? CAN_ECHO_MSG_ID). }
  destruct (100000 <=? counter + 1).
  - rewrite CAN_sendMessage_eq by (simpl; lia).
    cbn [mbind option_bind isr].
    rewrite CAN_receiveMessage_pending by done.
    change (c_true 1) with true. cbv iota.
    cbn [id data dlc latch lastRxMessage]. rewrite Hp. done.
  - cbn [mbind option_bind isr].
    rewrite CAN_receiveMessage_pending by done.
    change (c_true 1) with true. cbv iota.
    cbn [id data dlc latch lastRxMessage]. rewrite Hp. done.
Qed.

(** ** The six tests under arbitrary arrivals *)







(** ** The transmit tests of the harness *)

Lemma incr32_wrap x :
  0 ≤ x ≤ UINT32_MAX →
  incr32 x = if bool_decide (x < UINT32_MAX) then x + 1 else 0.
Proof.
  intros Hx. destruct (decide (x < UINT32_MAX)) as [H|H].
  - rewrite bool_decide_eq_true_2 by done. apply incr32_small. lia.
  - rewrite bool_decide_eq_false_2 by done.
    assert (x = UINT32_MAX) as -> by lia. done.
Qed.

(** X16.  Test 2 sends its one frame and passes exactly when the sent
    counter was below 2^32-1: at 2^32-1 the increment wraps to 0 and the
    comparison of the two snapshots fails although the frame was sent. *)
Theorem Test_CAN_TransmitMessage_spec d :
  0 ≤ messagesTransmitted (canStats d) ≤ UINT32_MAX →
  Test_CAN_TransmitMessage d =
    Some (if bool_decide (messagesTransmitted (canStats d) < UINT32_MAX)
          then TEST_PASS else TEST_FAIL,
          Test_delay TEST_DELAY_LOOPS
            (after_send 8
               (Some <$> [0xAA; 0x55; 0xFF; 0x00; 0x11; 0x22; 0x33; 0x44])
               d)).
Proof.
  intros Hs. unfold Test_CAN_TransmitMessage.
  rewrite getStats_local_eq.
  rewrite CAN_sendMessage_eq by (simpl; lia). cbn [mbind option_bind].
  rewrite getStats_local_eq.
  cbn [Test_delay emit after_send canStats messagesTransmitted].
  rewrite incr32_wrap by done.
  destruct (decide (messagesTransmitted (canStats d) < UINT32_MAX)) as [H|H].
  - rewrite !bool_decide_eq_true_2 by done.
    assert ((messagesTransmitted (canStats d)
             <? messagesTransmitted (canStats d) + 1) = true) as ->
      by (apply Z.ltb_lt; lia).
    done.
  - rewrite !bool_decide_eq_false_2 by done.
    assert ((messagesTransmitted (canStats d) <? 0) = false) as ->
      by (apply Z.ltb_ge; lia).
    done.
Qed.

Lemma incr32_five x :
  0 ≤ x ≤ UINT32_MAX →
  incr32 (incr32 (incr32 (incr32 (incr32 x)))) = (x + 5) mod 4294967296 ∧
  u32 ((x + 5) mod 4294967296 - x) = 5.
Proof.
  unfold UINT32_MAX. intros Hx. split.
  - unfold incr32, u32.
    repeat (rewrite <- ?Z.add_assoc; rewrite Zplus_mod_idemp_l).
    f_equal. lia.
  - unfold u32. rewrite Zminus_mod_idemp_l.
    replace (x + 5 - x) with 5 by lia. done.
Qed.

(** X17.  Test 5 sends five frames (byte 0 counts 0..4) with a short
    delay after each, and passes from every value of the sent counter:
    the difference of the two snapshots is taken in unsigned arithmetic,
    so it is 5 even when the counter wraps during the test. *)
Theorem Test_CAN_SequentialMessages_spec d :
  0 ≤ messagesTransmitted (canStats d) ≤ UINT32_MAX →
  ∃ d',
    Test_CAN_SequentialMessages d = Some (TEST_PASS, d') ∧
    messagesTransmitted (canStats d')
      = (messagesTransmitted (canStats d) + 5) mod 4294967296 ∧
    messagesReceived (canStats d') = messagesReceived (canStats d) ∧
    errorCount (canStats d') = errorCount (canStats d) ∧
    messageReceived d' = messageReceived d ∧
    hw d' =
      hw d
      ++ flat_map
           (λ i, [Driverlib.CAN_sendMessage CAN_MODULE CAN_TX_MSG_OBJ 8
                    (Some <$> [i; 0; 0xAA; 0xBB; 0xCC; 0xDD; 0xEE; 0xFF]);
                  Driverlib.NOP 20000])
           [0; 1; 2; 3; 4]
      ++ [Driverlib.NOP 100000].
Proof.
  intros Hs. unfold Test_CAN_SequentialMessages.
  rewrite getStats_local_eq. cbn [sequential_loop].
  do 5 (rewrite CAN_sendMessage_eq by (simpl; lia);
        cbn [mbind option_bind]).
  rewrite getStats_local_eq.
  cbn [Test_delay emit after_send canStats messagesTransmitted].
  destruct (incr32_five _ Hs) as [E5 Eu]. rewrite E5, Eu.
  change (5 <=? 5) with true. cbv iota.
  eexists. split; [reflexivity|].
  cbn [Test_delay emit after_send canStats messagesTransmitted
       messagesReceived errorCount messageReceived hw].
  split; [exact E5|]. do 3 (split; [reflexivity|]).
  rewrite <- !app_assoc. reflexivity.
Qed.

(** ** Test 4 *)

Lemma loopback_compare_iff n : ∀ idx rx tx,
  c_true (loopback_compare n idx rx tx 1) = true ↔
  ∀ i, (idx ≤ i < idx + n)%nat → rx !!! i = tx !!! i.
Proof.
  induction n as [|n IH]; intros idx rx tx; cbn [loopback_compare].
  - split; [intros _ i Hi; lia|done].
  - destruct (decide (rx !!! idx = tx !!! idx)) as [E|E].
    + rewrite (bool_decide_eq_false_2 _) by (by intros []).
      rewrite IH. split.
      * intros H i Hi. destruct (decide (i = idx)) as [->|Hne]; [done|].
        apply H. lia.
      * intros H i Hi. apply H. lia.
    + rewrite (bool_decide_eq_true_2 _) by done.
      rewrite loopback_compare_0. split; [done|].
      intros H. destruct E. apply H. lia.
Qed.

Lemma receive_copy_loop_lookup n : ∀ idx src dst i,
  (idx + n ≤ length dst)%nat →
  receive_copy_loop n idx src dst !!! i =
    if bool_decide (idx ≤ i < idx + n)%nat then src !!! i else dst !!! i.
Proof.
  induction n as [|n IH]; intros idx src dst i Hl; cbn [receive_copy_loop].
  - rewrite bool_decide_eq_false_2 by lia. done.
  - rewrite IH by (rewrite length_insert; lia).
    destruct (decide (S idx ≤ i < S idx + n)%nat) as [H|H].
    + rewrite !bool_decide_eq_true_2 by lia. done.
    + rewrite (bool_decide_eq_false_2 _ H).
      destruct (decide (i = idx)) as [->|Hne].
      * rewrite bool_decide_eq_true_2 by lia.
        apply list_lookup_total_insert_eq. lia.
      * rewrite bool_decide_eq_false_2 by lia.
        by apply list_lookup_total_insert_ne.
Qed.

(** X18.  Test 4 passes exactly when, after its send, a frame is consumed
    within the retry budget, its length is 8 and its eight bytes are
    01..08.  Neither the identifier of the frame nor the counters are
    looked at, and a frame that was already pending when the test started
    is accepted. *)
Theorem Test_CAN_DataIntegrity_pass env d :
  length (data uninit_msg) = 8%nat →
  ∃ r env' d',
    Test_CAN_DataIntegrity env d = Some (r, env', d') ∧
    (r = TEST_PASS ∨ r = TEST_FAIL) ∧
    (r = TEST_PASS ↔
     ∃ m, spec_consumed (Z.to_nat TEST_TIMEOUT_LOOPS) env (slot_of d) = Some m ∧
          dlc m = 8 ∧
          ∀ i, (i < 8)%nat →
               data m !!! i = [0x01; 0x02; 0x03; 0x04; 0x05; 0x06; 0x07; 0x08] !!! i).
Proof.
  intros Hu. unfold Test_CAN_DataIntegrity.
  rewrite integrity_send. cbn [mbind option_bind].
  match goal with |- context [receive_wait ?n ?m env ?d0] =>
    pose proof (receive_wait_spec n m env d0) as Hw;
    change (slot_of d0) with (slot_of d) in Hw end.
  destruct (spec_consumed _ env (slot_of d)) as [m|].
  - destruct Hw as (t & env' & ->).
    change (Z.of_nat (S t) =? 0) with false. cbv iota. cbn [dlc data].
    destruct (Z.eqb_spec (dlc m) 8) as [E8|E8]; cbn [negb].
    + rewrite integrity_compare_loopback.
      destruct (c_true (loopback_compare 8 0 _ _ 1)) eqn:Ec.
      * eexists _, _, _. split; [reflexivity|]. split; [by left|].
        split; [|done]. intros _. exists m. split; [done|]. split; [done|].
        intros i Hi. apply loopback_compare_iff with (i := i) in Ec; [|lia].
        rewrite receive_copy_loop_lookup in Ec by lia.
        rewrite bool_decide_eq_true_2 in Ec by lia. done.
      * eexists _, _, _. split; [reflexivity|]. split; [by right|].
        split; [done|]. intros (m' & [= <-] & _ & Hb).
        assert (c_true (loopback_compare 8 0
                  (receive_copy_loop 8 0 (data m) (data uninit_msg))
                  [0x01; 0x02; 0x03; 0x04; 0x05; 0x06; 0x07; 0x08] 1) = true)
          as Ht; [|congruence].
        apply loopback_compare_iff. intros i Hi.
        rewrite receive_copy_loop_lookup by lia.
        rewrite bool_decide_eq_true_2 by lia. apply Hb. lia.
    + eexists _, _, _. split; [reflexivity|]. split; [by right|].
      split; [done|]. intros (m' & [= <-] & ? & _). done.
  - destruct Hw as (env' & ->). cbn [Z.of_nat Z.eqb].
    eexists _, _, _. split; [reflexivity|]. split; [by right|].
    split; [done|]. by intros (m' & ? & _).
Qed.

(** ** Tests 1 and 6 *)

(** X19.  Test 1 reads the statistics and changes nothing; it passes
    exactly when both the sent and the received counter are 0.  So once a
    send has completed (from a counter below 2^32-1) Test 1 fails: the
    harness never resets the counters. *)
Theorem Test_CAN_BasicInitialization_spec d :
  (Test_CAN_BasicInitialization d).2 = d ∧
  ((Test_CAN_BasicInitialization d).1 = TEST_PASS ↔
   messagesTransmitted (canStats d) = 0 ∧ messagesReceived (canStats d) = 0) ∧
  (∀ msgId data dlc d0,
     0 ≤ messagesTransmitted (canStats d0) < UINT32_MAX →
     CAN_sendMessage msgId data dlc d0 = Some d →
     (Test_CAN_BasicInitialization d).1 = TEST_FAIL).
Proof.
  unfold Test_CAN_BasicInitialization. rewrite getStats_local_eq.
  cbn [Z.eqb negb].
  assert (∀ s r,
            (if negb (s =? 0) || negb (r =? 0)
             then (TEST_FAIL, d) else (TEST_PASS, d)).1 = TEST_PASS ↔
            s = 0 ∧ r = 0) as Hiff.
  { intros s r.
    destruct (Z.eqb_spec s 0), (Z.eqb_spec r 0); cbn [negb orb fst];
      split; (done || lia || by intros [? ?]). }
  split; [by destruct (negb _ || negb _)|]. split; [apply Hiff|].
  intros msgId data0 dlc0 d0 Hr E.
  apply CAN_sendMessage_inv in E as [_ ->].
  cbn [after_send canStats messagesTransmitted].
  rewrite incr32_small by done.
  destruct (Z.eqb_spec (messagesTransmitted (canStats d0) + 1) 0); [lia|].
  done.
Qed.

Lemma faults_errorCount statuses : ∀ d,
  0 ≤ errorCount (canStats d) →
  errorCount (canStats d) + Z.of_nat (length statuses) ≤ UINT32_MAX →
  errorCount (canStats (faults statuses d))
    = errorCount (canStats d) + Z.of_nat (length statuses).
Proof.
  unfold faults.
  induction statuses as [|e statuses IH]; intros d H0 Hmax;
    cbn [foldl length] in *; [lia|].
  assert (errorCount (canStats (CAN_errorHandler e d))
          = errorCount (canStats d) + 1) as E1.
  { rewrite CAN_errorHandler_eq.
    destruct (c_true _); rewrite ?CAN_initModule_eq;
      cbn [after_fault canStats errorCount]; apply incr32_small; lia. }
  rewrite IH; rewrite E1; lia.
Qed.

(** X20.  Test 6 changes nothing and passes exactly when the error
    counter is 0.  So after any number of fault notifications (at least
    one, and not so many that the 32-bit counter wraps) it fails,
    whatever the status words were. *)
Theorem Test_CAN_ErrorHandling_spec d :
  (Test_CAN_ErrorHandling d).2 = d ∧
  ((Test_CAN_ErrorHandling d).1 = TEST_PASS ↔ errorCount (canStats d) = 0) ∧
  (∀ statuses,
     statuses ≠ [] →
     0 ≤ errorCount (canStats d) →
     errorCount (canStats d) + Z.of_nat (length statuses) ≤ UINT32_MAX →
     (Test_CAN_ErrorHandling (faults statuses d)).1 = TEST_FAIL).
Proof.
  unfold Test_CAN_ErrorHandling.
  split; [|split].
  - rewrite getStats_local_eq. by destruct (_ =? 0).
  - rewrite getStats_local_eq.
    destruct (Z.eqb_spec (errorCount (canStats d)) 0); cbn [fst];
      split; (done || lia).
  - intros statuses Hne H0 Hmax. rewrite getStats_local_eq.
    rewrite faults_errorCount by done.
    destruct statuses as [|e l]; [done|]. cbn [length] in *.
    destruct (Z.eqb_spec (errorCount (canStats d) + Z.of_nat (S (length l))) 0);
      [lia|done].
Qed.

(** X21.  Over any run of fault notifications that does not wrap the
    error counter: the counter grows by their number, the last error code
    is the last status word, the initialisation sequence has run once for
    each status word with the bus-off bit, and the sent and received
    counters and the receive slot are as before. *)
Theorem faults_spec statuses : ∀ d,
  0 ≤ errorCount (canStats d) →
  errorCount (canStats d) + Z.of_nat (length statuses) ≤ UINT32_MAX →
  errorCount (canStats (faults statuses d))
    = errorCount (canStats d) + Z.of_nat (length statuses) ∧
  lastErrorCode (canStats (faults statuses d))
    = default (lastErrorCode (canStats d)) (last statuses) ∧
  init_calls (hw (faults statuses d))
    = (init_calls (hw d)
       + length (List.filter (λ e, c_true (Z.land e CAN_ES_BUSOFF)) statuses))%nat ∧
  messagesTransmitted (canStats (faults statuses d))
    = messagesTransmitted (canStats d) ∧
  messagesReceived (canStats (faults statuses d))
    = messagesReceived (canStats d) ∧
  lastRxMessage (faults statuses d) = lastRxMessage d ∧
  messageReceived (faults statuses d) = messageReceived d.
Proof.
  unfold faults.
  induction statuses as [|e statuses IH]; intros d H0 Hmax;
    cbn [foldl length List.filter] in *.
  - repeat split; lia.
  - assert (errorCount (canStats (CAN_errorHandler e d))
            = errorCount (canStats d) + 1 ∧
            lastErrorCode (canStats (CAN_errorHandler e d)) = e ∧
            init_calls (hw (CAN_errorHandler e d))
            = (init_calls (hw d)
               + if c_true (Z.land e CAN_ES_BUSOFF) then 1 else 0)%nat ∧
            messagesTransmitted (canStats (CAN_errorHandler e d))
            = messagesTransmitted (canStats d) ∧
            messagesReceived (canStats (CAN_errorHandler e d))
            = messagesReceived (canStats d) ∧
            lastRxMessage (CAN_errorHandler e d) = lastRxMessage d ∧
            messageReceived (CAN_errorHandler e d) = messageReceived d)
      as (E1 & E2 & E3 & E4 & E5 & E6 & E7).
    { rewrite CAN_errorHandler_eq.
      destruct (c_true _); rewrite ?CAN_initModule_eq;
        cbn [after_fault canStats errorCount lastErrorCode hw
             messagesTransmitted messagesReceived lastRxMessage
             messageReceived];
        rewrite ?app_assoc, !init_calls_app, ?init_trace_init_calls;
        change (init_calls [Driverlib.GPIO_writePin ERROR_LED_PIN 1])
          with 0%nat;
        (split; [apply incr32_small; lia|]); repeat split; lia. }
    destruct (IH (CAN_errorHandler e d)) as (I1 & I2 & I3 & I4 & I5 & I6 & I7);
      [lia|lia|].
    rewrite I1, I2, I3, I4, I5, I6, I7, E1, E2, E3, E4, E5, E6, E7.
    split; [lia|]. split.
    { rewrite last_cons. by destruct (last statuses). }
    split; [|done].
    destruct (c_true (Z.land e CAN_ES_BUSOFF)); cbn [length]; lia.
Qed.

(** * ADC_test.c: the LED blink control *)

Lemma blink_divisor adcValue :
  0 ≤ adcValue < 4294967296 →
  let q := u32 (adcValue * (MAX_BLINK_FREQ_HZ - MIN_BLINK_FREQ_HZ))
           / MAX_ADC_VALUE in
  0 ≤ q ≤ 1048832 ∧
  u32 (2 * u32 (MIN_BLINK_FREQ_HZ + q)) = 2 + 2 * q.
Proof.
  intros Ha q.
  assert (0 ≤ u32 (adcValue * (MAX_BLINK_FREQ_HZ - MIN_BLINK_FREQ_HZ))
          < 4294967296) as Hu by (apply Z.mod_pos_bound; lia).
  assert (0 ≤ q ≤ 1048832) as Hq.
  { unfold q, MAX_ADC_VALUE. split.
    - apply Z.div_pos; lia.
    - apply Z.lt_succ_r. apply Z.div_lt_upper_bound; lia. }
  split; [done|].
  unfold u32, MIN_BLINK_FREQ_HZ.
  rewrite (Z.mod_small (1 + q)) by lia. rewrite Z.mod_small by lia. lia.
Qed.

Lemma computed_period_eq adcValue :
  0 ≤ adcValue < 4294967296 →
  let q := u32 (adcValue * (MAX_BLINK_FREQ_HZ - MIN_BLINK_FREQ_HZ))
           / MAX_ADC_VALUE in
  computed_period adcValue = Z.max 1 (100 / (2 + 2 * q)) ∧
  1 ≤ computed_period adcValue ≤ 50.
Proof.
  intros Ha q. destruct (blink_divisor adcValue Ha) as [Hq Hd].
  cbv zeta in Hq, Hd. unfold computed_period. cbv zeta. rewrite Hd.
  fold q. fold q in Hq.
  assert (0 ≤ 100 / (2 + 2 * q) ≤ 50) as Hp.
  { split; [apply Z.div_pos; lia|].
    apply Z.lt_succ_r. apply Z.div_lt_upper_bound; lia. }
  unfold u16. rewrite Z.mod_small by lia.
  destruct (Z.ltb_spec (100 / (2 + 2 * q)) 1); lia.
Qed.

Lemma controlLEDFrequency_eq adcValue b :
  0 ≤ adcValue < 4294967296 →
  controlLEDFrequency adcValue b =
    Some (if computed_period adcValue <=? u16 (ledBlinkCounter b + 1)
          then mkBlinker 0 (computed_period adcValue)
                 (if ledState b =? 0 then 1 else 0)
                 (pin_writes b
                  ++ [Driverlib.GPIO_writePin LED_GPIO_PIN
                        (if ledState b =? 0 then 1 else 0)])
          else mkBlinker (u16 (ledBlinkCounter b + 1))
                 (computed_period adcValue) (ledState b) (pin_writes b)).
Proof.
  intros Ha. destruct (blink_divisor adcValue Ha) as [Hq Hd].
  unfold controlLEDFrequency, computed_period. cbv zeta.
  rewrite Hd.
  destruct (Z.eqb_spec
              (2 + 2 * (u32 (adcValue * (MAX_BLINK_FREQ_HZ - MIN_BLINK_FREQ_HZ))
                        / MAX_ADC_VALUE)) 0) as [E|_]; [lia|].
  by destruct (_ <=? _).
Qed.

(** X22.  For every 32-bit reading [controlLEDFrequency] returns (its
    divisor is never 0) and leaves a blink period between 1 and 50; for a
    12-bit reading (at most 4095) the period is between 5 and 50, and it
    is 50 for the reading 0 and 5 for the reading 4095. *)
Theorem controlLEDFrequency_period adcValue b :
  0 ≤ adcValue < 4294967296 →
  ∃ b',
    controlLEDFrequency adcValue b = Some b' ∧
    ledBlinkPeriod b' = computed_period adcValue ∧
    1 ≤ ledBlinkPeriod b' ≤ 50 ∧
    (adcValue ≤ MAX_ADC_VALUE → 5 ≤ ledBlinkPeriod b') ∧
    computed_period 0 = 50 ∧ computed_period MAX_ADC_VALUE = 5.
Proof.
  intros Ha. rewrite controlLEDFrequency_eq by done.
  destruct (computed_period_eq adcValue Ha) as [Ep Hp].
  eexists. split; [reflexivity|].
  assert (∀ x y : Blinker,
            ledBlinkPeriod x = computed_period adcValue →
            ledBlinkPeriod y = computed_period adcValue →
            ledBlinkPeriod
              (if computed_period adcValue <=? u16 (ledBlinkCounter b + 1)
               then x else y) = computed_period adcValue) as Hsel
    by (intros x y Hx Hy; by destruct (_ <=? _)).
  rewrite Hsel by done.
  split; [done|]. split; [done|]. split; [|by split].
  unfold MAX_ADC_VALUE. intros Hm. rewrite Ep.
  assert (u32 (adcValue * (MAX_BLINK_FREQ_HZ - MIN_BLINK_FREQ_HZ))
          / MAX_ADC_VALUE ≤ 9) as Hq.
  { unfold u32, MAX_BLINK_FREQ_HZ, MIN_BLINK_FREQ_HZ, MAX_ADC_VALUE.
    rewrite Z.mod_small by lia.
    apply Z.lt_succ_r. apply Z.div_lt_upper_bound; lia. }
  assert (0 ≤ u32 (adcValue * (MAX_BLINK_FREQ_HZ - MIN_BLINK_FREQ_HZ))
          / MAX_ADC_VALUE) as Hq0.
  { apply Z.div_pos; [apply Z.mod_pos_bound|unfold MAX_ADC_VALUE]; lia. }
  assert (5 ≤ 100 / (2 + 2 * (u32 (adcValue
            * (MAX_BLINK_FREQ_HZ - MIN_BLINK_FREQ_HZ)) / MAX_ADC_VALUE)));
    [|lia].
  apply Z.div_le_lower_bound; lia.
Qed.

(** X23.  As long as [adcValue * 9] fits in 32 bits (readings up to
    477218588, so every 12-bit reading), a larger reading never gives a
    longer blink period.  Beyond that the product wraps: the reading
    477218589 gives the period 50 where 477218588 gives 1. *)
Theorem computed_period_antitone a a' :
  0 ≤ a ≤ a' →
  a' ≤ 477218588 →
  computed_period a' ≤ computed_period a ∧
  computed_period 477218588 = 1 ∧ computed_period 477218589 = 50.
Proof.
  intros Ha Ha'. split; [|by split].
  destruct (computed_period_eq a) as [-> _]; [lia|].
  destruct (computed_period_eq a') as [-> _]; [lia|].
  unfold u32, MAX_BLINK_FREQ_HZ, MIN_BLINK_FREQ_HZ, MAX_ADC_VALUE.
  rewrite !Z.mod_small by lia.
  assert (0 ≤ a * (10 - 1) / 4095) as H0 by (apply Z.div_pos; lia).
  assert (a * (10 - 1) / 4095 ≤ a' * (10 - 1) / 4095) as Hq
    by (apply Z.div_le_mono; lia).
  assert (100 / (2 + 2 * (a' * (10 - 1) / 4095))
          ≤ 100 / (2 + 2 * (a * (10 - 1) / 4095))) as Hp
    by (apply Z.div_le_compat_l; lia).
  lia.
Qed.

Lemma controlLEDFrequency_step adcValue b :
  0 ≤ adcValue < 4294967296 →
  ∃ b' t,
    controlLEDFrequency adcValue b = Some b' ∧
    0 ≤ ledBlinkCounter b' < ledBlinkPeriod b' ∧ ledBlinkPeriod b' ≤ 50 ∧
    pin_writes b' = pin_writes b ++ t ∧
    Forall (λ c, c = Driverlib.GPIO_writePin LED_GPIO_PIN 0 ∨
                 c = Driverlib.GPIO_writePin LED_GPIO_PIN 1) t.
Proof.
  intros Ha. rewrite controlLEDFrequency_eq by done.
  destruct (computed_period_eq adcValue Ha) as [_ Hp].
  assert (0 ≤ u16 (ledBlinkCounter b + 1)) as Hu
    by (apply Z.mod_pos_bound; lia).
  destruct (Z.leb_spec (computed_period adcValue)
              (u16 (ledBlinkCounter b + 1))) as [Hle|Hgt].
  - eexists _, [_]. split; [reflexivity|].
    cbn [ledBlinkCounter ledBlinkPeriod pin_writes].
    split; [lia|]. split; [lia|]. split; [reflexivity|].
    constructor; [|constructor]. destruct (ledState b =? 0); auto.
  - eexists _, []. split; [reflexivity|].
    cbn [ledBlinkCounter ledBlinkPeriod pin_writes].
    split; [lia|]. split; [lia|]. by rewrite app_nil_r.
Qed.

Lemma adc_loop_cons adcValue readings : ∀ b,
  Forall (λ a, 0 ≤ a < 4294967296) (adcValue :: readings) →
  ∃ b' t,
    adc_loop (adcValue :: readings) b = Some b' ∧
    0 ≤ ledBlinkCounter b' < ledBlinkPeriod b' ∧ ledBlinkPeriod b' ≤ 50 ∧
    pin_writes b' = pin_writes b ++ t ∧
    Forall (λ c, c = Driverlib.GPIO_writePin LED_GPIO_PIN 0 ∨
                 c = Driverlib.GPIO_writePin LED_GPIO_PIN 1) t.
Proof.
  revert adcValue.
  induction readings as [|a2 readings IH]; intros adcValue b Hr;
    apply Forall_cons in Hr as [Ha Hr];
    destruct (controlLEDFrequency_step adcValue b Ha)
      as (b1 & t1 & E1 & Hc1 & Hp1 & Hw1 & Ht1);
    cbn [adc_loop]; rewrite E1; cbn [mbind option_bind].
  - by exists b1, t1.
  - destruct (IH a2 b1 Hr) as (b' & t & E & Hc & Hp & Hw & Ht).
    exists b', (t1 ++ t). split; [exact E|]. split; [done|]. split; [done|].
    split; [by rewrite Hw, Hw1, app_assoc|by apply Forall_app].
Qed.

(** X24.  Whatever 32-bit readings come in (at least one), the loop of
    ADC_test.c never faults, afterwards the blink counter is below the
    blink period, which is at most 50 (so the 16-bit counter never comes
    near its wrap), and the only pin writes made are writes of 0 or 1 to
    the LED pin. *)
Theorem adc_loop_invariant readings b :
  readings ≠ [] →
  Forall (λ a, 0 ≤ a < 4294967296) readings →
  ∃ b' t,
    adc_loop readings b = Some b' ∧
    0 ≤ ledBlinkCounter b' < ledBlinkPeriod b' ∧ ledBlinkPeriod b' ≤ 50 ∧
    pin_writes b' = pin_writes b ++ t ∧
    Forall (λ c, c = Driverlib.GPIO_writePin LED_GPIO_PIN 0 ∨
                 c = Driverlib.GPIO_writePin LED_GPIO_PIN 1) t.
Proof.
  destruct readings as [|a readings]; [done|]. intros _.
  apply adc_loop_cons.
Qed.

(** X25.  With a constant reading whose period is [p], and a counter
    below [p], [n] passes of the loop of ADC_test.c toggle the LED once
    every [p] passes: the counter ends at [(c + n) mod p], the number of
    pin writes made is [(c + n) / p], and the LED state has flipped that
    many times. *)
Theorem adc_loop_constant_reading n adcValue b :
  0 ≤ adcValue < 4294967296 →
  0 ≤ ledBlinkCounter b < computed_period adcValue →
  ledState b = 0 ∨ ledState b = 1 →
  ∃ b',
    adc_loop (replicate n adcValue) b = Some b' ∧
    ledBlinkCounter b'
      = (ledBlinkCounter b + Z.of_nat n) mod computed_period adcValue ∧
    length (pin_writes b')
      = (length (pin_writes b)
         + Z.to_nat ((ledBlinkCounter b + Z.of_nat n)
                     / computed_period adcValue))%nat ∧
    ledState b'
      = (ledState b
         + (ledBlinkCounter b + Z.of_nat n) / computed_period adcValue)
        mod 2.
Proof.
  intros Ha. revert b.
  destruct (computed_period_eq adcValue Ha) as [_ Hp].
  induction n as [|n IH]; intros b Hc Hs.
  - exists b. cbn [replicate adc_loop Z.of_nat]. rewrite Z.add_0_r.
    rewrite Z.mod_small, Z.div_small by lia.
    split; [done|]. split; [done|]. split; [cbn; lia|].
    rewrite Z.add_0_r. destruct Hs as [-> | ->]; done.
  - cbn [replicate adc_loop]. rewrite controlLEDFrequency_eq by done.
    cbn [mbind option_bind]. rewrite Nat2Z.inj_succ.
    unfold u16. rewrite (Z.mod_small (ledBlinkCounter b + 1)) by lia.
    destruct (Z.leb_spec (computed_period adcValue) (ledBlinkCounter b + 1))
      as [Hle|Hgt].
    + match goal with |- context [adc_loop _ ?b1] =>
        destruct (IH b1) as (b' & E & Ec & Ew & El) end.
      { cbn [ledBlinkCounter]. lia. }
      { cbn [ledState]. destruct (ledState b =? 0); auto. }
      exists b'. split; [exact E|].
      cbn [ledBlinkCounter pin_writes ledState] in Ec, Ew, El.
      replace (ledBlinkCounter b + Z.succ (Z.of_nat n))
        with (0 + Z.of_nat n + 1 * computed_period adcValue) by lia.
      rewrite Z.mod_add, Z.div_add by lia.
      split; [exact Ec|]. split.
      * rewrite Ew, length_app. cbn [length].
        rewrite Z2Nat.inj_add by (try apply Z.div_pos; lia).
        change (Z.to_nat 1) with 1%nat. lia.
      * rewrite El.
        destruct Hs as [-> | ->]; cbn [Z.eqb].
        -- f_equal. lia.
        -- replace (1 + ((0 + Z.of_nat n) / computed_period adcValue + 1))
             with ((0 + Z.of_nat n) / computed_period adcValue + 1 * 2) by lia.
           rewrite Z.mod_add by lia. by rewrite Z.add_0_l.
    + match goal with |- context [adc_loop _ ?b1] =>
        destruct (IH b1) as (b' & E & Ec & Ew & El) end.
      { cbn [ledBlinkCounter]. lia. }
      { done. }
      exists b'. split; [exact E|].
      cbn [ledBlinkCounter pin_writes ledState] in Ec, Ew, El.
      replace (ledBlinkCounter b + Z.succ (Z.of_nat n))
        with (ledBlinkCounter b + 1 + Z.of_nat n) by lia.
      done.
Qed.

End Driver.


(** * The model on concrete inputs *)

Section Examples.

Local Existing Instance launchxl.

(** Three bytes of a four-byte buffer: the fourth byte is not sent. *)
Example send_three_bytes :
  hw <$> CAN_sendMessage 0x123 [0xAA; 0xBB; 0xCC; 0xDD] 3 boot =
    Some [Driverlib.CAN_sendMessage 0x48000 1 3
            [Some 0xAA; Some 0xBB; Some 0xCC; Some 0; Some 0; Some 0; Some 0;
             Some 0]].
Proof. reflexivity. Qed.

(** A buffer shorter than [dlc]: the copy loop reads past its end. *)
Example send_short_buffer : CAN_sendMessage 0x123 [1; 2] 5 boot = None.
Proof. reflexivity. Qed.

(** The message id argument does not reach the bus layer: the frame goes
    out through the transmit slot whatever [msgId] is. *)
Example send_ignores_msgId :
  CAN_sendMessage 0x123 [1; 2; 3] 3 boot = CAN_sendMessage 0x7FF [1; 2; 3] 3 boot.
Proof. reflexivity. Qed.

(** A fault without the bus-off bit does not run the initialisation. *)
Example warning_does_not_reinitialise :
  hw (CAN_errorHandler 0x08 boot) = [Driverlib.GPIO_writePin 34 1].
Proof. reflexivity. Qed.

(** On a board with nothing configured, a fault drives the error
    indicator high. *)
Example fault_lights_error_indicator :
  pin_levels (hardware_from hw_reset (hw (CAN_errorHandler 0x08 boot))) !! 34
    = Some true.
Proof. vm_compute. reflexivity. Qed.

(** The start-up code runs the initialisation sequence once. *)
Example startup_initialises_once :
  init_calls (hw (driver main_startup)) = 1%nat.
Proof. reflexivity. Qed.

(** A send with [dlc = 200] and a 9-byte buffer hands over length 8 and
    the first 8 bytes. *)
Lemma send_oversized_dlc :
  ∃ frame,
    CAN_sendMessage 0x123 [1; 2; 3; 4; 5; 6; 7; 8; 9] 200 boot
      = Some (after_send (Z.min 200 8) frame boot) ∧
    length frame = 8%nat.
Proof.
  destruct (CAN_sendMessage_clamps_and_pads 0x123 [1; 2; 3; 4; 5; 6; 7; 8; 9]
              200 boot ltac:(simpl; lia))
    as (frame & E & _ & _ & L & _).
  exists frame. split; [exact E | exact L].
Defined.

(** A receive with [short_msg] latched. *)
Lemma receive_latched_frame :
  CAN_receiveMessage blank_msg (latch short_msg boot)
    = (1, lastRxMessage (latch short_msg boot),
       after_receive (latch short_msg boot)).
Proof.
  exact (proj1 (CAN_receiveMessage_consumes blank_msg (latch short_msg boot)
                  ltac:(discriminate) eq_refl eq_refl)).
Defined.

(** A receive on the initial state. *)
Lemma receive_nothing_pending :
  CAN_receiveMessage short_msg boot = (0, short_msg, boot).
Proof. exact (CAN_receiveMessage_no_message short_msg boot eq_refl). Defined.

(** C4, counterexample.  After 4294967295 sends from the initial state
    the sent counter is 4294967295, and one more send leaves it at 0: the
    counter decreases. *)
Lemma sent_counter_wraps :
  ∃ d d',
    run blank_msg
        (replicate (Z.to_nat 4294967295)
           (OpSend 0x123 [1; 2; 3; 4; 5; 6; 7; 8] 8)) [] boot = Some ([], d) ∧
    messagesTransmitted (canStats d) = 4294967295 ∧
    run blank_msg [OpSend 0x123 [1; 2; 3; 4; 5; 6; 7; 8] 8] [] d
      = Some ([], d') ∧
    messagesTransmitted (canStats d') = 0 ∧
    messagesTransmitted (canStats d') < messagesTransmitted (canStats d).
Proof.
  destruct (run_sends blank_msg 0x123 [1; 2; 3; 4; 5; 6; 7; 8]
              (Z.to_nat 4294967295) boot eq_refl)
    as (d & E & Hs); [simpl; lia|].
  rewrite Z2Nat.id in Hs by lia.
  change (messagesTransmitted (canStats d) = 4294967295) in Hs.
  destruct (run_sends blank_msg 0x123 [1; 2; 3; 4; 5; 6; 7; 8] 1 d eq_refl)
    as (d' & E' & Hs'); [lia|].
  rewrite Hs in Hs'. change (messagesTransmitted (canStats d') = 0) in Hs'.
  exists d, d'. split; [exact E|]. split; [exact Hs|].
  split; [exact E'|]. split; [exact Hs'|]. lia.
Qed.
(** Four contract operations from the initial state, one frame arriving. *)
Lemma counters_after_four_calls :
  ∃ d',
    run blank_msg
        [OpSend 0x123 [1; 2; 3; 4; 5; 6; 7; 8] 8; OpReceive blank_msg;
         OpGetStats None; OpError 0x80]
        [Some short_msg] boot = Some ([], d') ∧
    messagesTransmitted (canStats d') = 0 + Z.of_nat 1 ∧
    messagesTransmitted (canStats boot) ≤ messagesTransmitted (canStats d') ∧
    messagesReceived (canStats boot) ≤ messagesReceived (canStats d')
      ≤ messagesReceived (canStats boot) + Z.of_nat 1.
Proof.
  eexists. split; [reflexivity|].
  refine (proj1 (counters_non_decreasing_until_wrap blank_msg
                   [OpSend 0x123 [1; 2; 3; 4; 5; 6; 7; 8] 8; OpReceive blank_msg;
                    OpGetStats None; OpError 0x80]
                   [Some short_msg] boot [] _ eq_refl eq_refl _ _ _ _));
    unfold count_sends, count_receives, UINT32_MAX; simpl; lia.
Defined.

(** A bus-off notification on the initial state. *)
Lemma bus_off_reinitialises_once :
  CAN_errorHandler 0x80 boot = CAN_initModule (after_fault 0x80 boot) ∧
  hw (CAN_errorHandler 0x80 boot)
    = hw boot ++ [Driverlib.GPIO_writePin ERROR_LED_PIN 1] ++ init_trace ∧
  init_calls (hw (CAN_errorHandler 0x80 boot)) = S (init_calls (hw boot)).
Proof.
  destruct (CAN_errorHandler_spec 0x80 boot) as (_ & _ & _ & _ & _ & Hoff & _).
  apply Hoff. discriminate.
Defined.

(** A sequence of operations from the initial state with no frame
    arriving. *)
Lemma flag_stays_clear :
  ∃ d',
    run blank_msg
        [OpInit; OpSend 0x123 [1; 2; 3; 4; 5; 6; 7; 8] 8; OpReceive blank_msg;
         OpError 0x80; OpGetStats None]
        [] boot = Some ([], d') ∧
    messageReceived d' = 0 ∧
    messagesReceived (canStats d') = 0.
Proof.
  eexists. split; [reflexivity|].
  match goal with |- messageReceived ?d = 0 ∧ _ =>
    destruct (proj2 (messageReceived_never_set blank_msg)
                [OpInit; OpSend 0x123 [1; 2; 3; 4; 5; 6; 7; 8] 8;
                 OpReceive blank_msg; OpError 0x80; OpGetStats None]
                [] d eq_refl)
      as (Hf & Hc & _) end.
  split; [exact Hf | exact Hc].
Defined.

(** The Receive test when [short_msg] arrives before the first poll. *)
Lemma receive_test_short_frame :
  (Test_CAN_ReceiveMessage blank_msg blank_stats [Some short_msg] boot).1.1
    = TEST_PASS ↔
  ∃ m, spec_consumed (Z.to_nat TEST_TIMEOUT_LOOPS) [Some short_msg]
         (slot_of boot) = Some m ∧
       1 ≤ dlc m ≤ 8.
Proof.
  refine (proj1 (Test_CAN_ReceiveMessage_pass blank_msg blank_stats
                   [Some short_msg] boot _)).
  simpl. unfold UINT32_MAX. lia.
Defined.

(** C10, counterexample.  With no fault and no frame arriving, the six
    tests end with two failures. *)
Lemma no_frames_two_failures :
  ∃ h, run_tests blank_msg blank_stats [] main_startup = Some ([], h) ∧
       passedTests (testStats h) = 4 ∧ failedTests (testStats h) = 2.
Proof.
  destruct (run_tests_no_frames_from blank_msg blank_stats main_startup
              main_startup_tally)
    as (h & E & (_ & _ & _ & _ & Hp & Hf)).
  exists h. split; [exact E|]. split; assumption.
Qed.

(** The six tests when [short_msg] arrives before the first poll of Test 3
    and [pattern_msg] before the first poll of Test 4. *)
Lemma frames_arrive_six_pass :
  ∃ h,
    run_tests blank_msg blank_stats
      (replicate 0 None ++ Some short_msg
         :: replicate 0 None ++ Some pattern_msg :: [])
      main_startup = Some ([], h) ∧
    passedTests (testStats h) = 6 ∧ failedTests (testStats h) = 0.
Proof.
  refine (proj1 (CAN_runUnitTests_reports_tally blank_msg blank_stats
                   0 short_msg 0 pattern_msg [] _ _ _ eq_refl eq_refl eq_refl)).
  - unfold TEST_TIMEOUT_LOOPS. lia.
  - unfold TEST_TIMEOUT_LOOPS. lia.
  - simpl. lia.
Defined.

(** ** Further properties on concrete inputs *)

(** A send, a bus-off fault and the transmit test from the initial
    state. *)
Lemma bus_calls_after_three_ops :
  ∃ d',
    run blank_msg [OpSend 0x7FF [1; 2; 3] 3; OpError 0x80; OpTestTransmit]
        [] boot = Some ([], d') ∧
    bus_trace_ok d'.
Proof.
  eexists. split; [reflexivity|].
  match goal with |- bus_trace_ok ?d =>
    refine (bus_calls_well_formed blank_msg
              [OpSend 0x7FF [1; 2; 3] 3; OpError 0x80; OpTestTransmit]
              [] boot [] d _ eq_refl) end.
  constructor.
Defined.

(** A send while [short_msg] is pending, then a receive. *)
Lemma send_then_receive_pending :
  ∃ d1,
    CAN_sendMessage 0x123 [1; 2; 3] 3 (latch short_msg boot) = Some d1 ∧
    lastRxMessage d1 = short_msg ∧
    messageReceived d1 = 1.
Proof.
  eexists. split; [reflexivity|].
  match goal with |- lastRxMessage ?d1 = _ ∧ _ =>
    destruct (send_receive_commute 0x123 [1; 2; 3] 3 blank_msg
                (latch short_msg boot) d1 eq_refl) as (El & Ef & _) end.
  split; [exact El|exact Ef].
Defined.

(** The loopback comparison on equal arrays. *)
Lemma loopback_compare_equal_arrays :
  loopback_compare 8 0 [0x11; 0x22; 0x33; 0x44; 0x55; 0x66; 0x77; 0x88]
                       [0x11; 0x22; 0x33; 0x44; 0x55; 0x66; 0x77; 0x88] 1
    = if bool_decide ([0x11; 0x22; 0x33; 0x44; 0x55; 0x66; 0x77; 0x88]
                      = [0x11; 0x22; 0x33; 0x44; 0x55; 0x66; 0x77; 0x88] :> list Z)
      then 1 else 0.
Proof.
  exact (loopback_compare_correct
           [0x11; 0x22; 0x33; 0x44; 0x55; 0x66; 0x77; 0x88]
           [0x11; 0x22; 0x33; 0x44; 0x55; 0x66; 0x77; 0x88] eq_refl eq_refl).
Defined.

(** The loopback test when [pattern_msg] (the wrong bytes) is latched
    before the first look at the flag. *)
Lemma loopback_wrong_bytes :
  let sent :=
    latch pattern_msg
      (after_send 8
         (Some <$> [0x11; 0x22; 0x33; 0x44; 0x55; 0x66; 0x77; 0x88]) boot) in
  CAN_testLoopback (replicate 0 None ++ Some pattern_msg :: []) boot =
    Some ([],
          if bool_decide (dlc pattern_msg = 8 ∧
                          data pattern_msg = [0x11; 0x22; 0x33; 0x44;
                                              0x55; 0x66; 0x77; 0x88])
          then with_flag 0 sent else bump_errorCount sent).
Proof.
  refine (CAN_testLoopback_arrival 0 pattern_msg [] boot _ eq_refl eq_refl).
  simpl. lia.
Defined.

(** Seven iterations of the blink loop at a rate of 3. *)
Lemma status_blink_seven_iterations :
  status_blink_loop 7 3 0 boot =
    Running ((0 + Z.of_nat 7) mod 3,
             mkDriver (canStats boot) (lastRxMessage boot)
               (messageReceived boot)
               (hw boot ++ replicate (Z.to_nat ((0 + Z.of_nat 7) / 3))
                             (Driverlib.GPIO_togglePin STATUS_LED_PIN))).
Proof.
  refine (status_blink_loop_toggles 7 3 0 boot _ _); unfold UINT32_MAX; lia.
Defined.

(** Three iterations of the loop of [main] from a counter of 99998. *)
Lemma main_loop_three_iterations :
  main_loop blank_msg 3 99998 (replicate 0 None) boot =
    Some (Running ((99998 + Z.of_nat 3) mod 100000,
                   replicate (0 - 3) None,
                   Nat.iter (Z.to_nat ((99998 + Z.of_nat 3) / 100000))
                            periodic_send boot)).
Proof.
  refine (proj1 (main_loop_sends_periodically blank_msg 3 0 99998 boot
                   eq_refl _)).
  lia.
Defined.

(** Test 2 from the initial state. *)
Lemma transmit_test_from_boot :
  Test_CAN_TransmitMessage blank_stats boot =
    Some (if bool_decide (messagesTransmitted (canStats boot) < UINT32_MAX)
          then TEST_PASS else TEST_FAIL,
          Test_delay TEST_DELAY_LOOPS
            (after_send 8
               (Some <$> [0xAA; 0x55; 0xFF; 0x00; 0x11; 0x22; 0x33; 0x44])
               boot)).
Proof.
  refine (Test_CAN_TransmitMessage_spec blank_stats boot _).
  simpl. unfold UINT32_MAX. lia.
Defined.

(** Test 5 from the initial state. *)
Lemma sequential_test_from_boot :
  ∃ d',
    Test_CAN_SequentialMessages blank_stats boot = Some (TEST_PASS, d') ∧
    messagesTransmitted (canStats d')
      = (messagesTransmitted (canStats boot) + 5) mod 4294967296.
Proof.
  assert (0 ≤ messagesTransmitted (canStats boot) ≤ UINT32_MAX) as H
    by (simpl; unfold UINT32_MAX; lia).
  destruct (Test_CAN_SequentialMessages_spec blank_stats boot H)
    as (d' & E & Hs & _).
  exists d'. split; [exact E|exact Hs].
Defined.

(** Test 4 when [pattern_msg] arrives before the first poll. *)
Lemma integrity_test_pattern_frame :
  ∃ r env' d',
    Test_CAN_DataIntegrity blank_msg [Some pattern_msg] boot
      = Some (r, env', d') ∧
    (r = TEST_PASS ∨ r = TEST_FAIL) ∧
    (r = TEST_PASS ↔
     ∃ m, spec_consumed (Z.to_nat TEST_TIMEOUT_LOOPS) [Some pattern_msg]
            (slot_of boot) = Some m ∧
          dlc m = 8 ∧
          ∀ i, (i < 8)%nat →
               data m !!! i
               = [0x01; 0x02; 0x03; 0x04; 0x05; 0x06; 0x07; 0x08] !!! i).
Proof.
  exact (Test_CAN_DataIntegrity_pass blank_msg [Some pattern_msg] boot eq_refl).
Defined.

(** A mid-scale reading. *)
Lemma blink_period_mid_scale :
  ∃ b',
    controlLEDFrequency 2048 blinker_boot = Some b' ∧
    ledBlinkPeriod b' = computed_period 2048 ∧
    1 ≤ ledBlinkPeriod b' ≤ 50 ∧
    (2048 ≤ MAX_ADC_VALUE → 5 ≤ ledBlinkPeriod b') ∧
    computed_period 0 = 50 ∧ computed_period MAX_ADC_VALUE = 5.
Proof.
  refine (controlLEDFrequency_period 2048 blinker_boot _). lia.
Defined.

(** Two 12-bit readings. *)
Lemma blink_period_two_readings :
  computed_period 4000 ≤ computed_period 100 ∧
  computed_period 477218588 = 1 ∧ computed_period 477218589 = 50.
Proof.
  refine (computed_period_antitone 100 4000 _ _); lia.
Defined.

(** Three readings, the last one beyond 12 bits. *)
Lemma adc_loop_three_readings :
  ∃ b' t,
    adc_loop [0; 4095; 70000] blinker_boot = Some b' ∧
    0 ≤ ledBlinkCounter b' < ledBlinkPeriod b' ∧ ledBlinkPeriod b' ≤ 50 ∧
    pin_writes b' = pin_writes blinker_boot ++ t ∧
    Forall (λ c, c = Driverlib.GPIO_writePin LED_GPIO_PIN 0 ∨
                 c = Driverlib.GPIO_writePin LED_GPIO_PIN 1) t.
Proof.
  refine (adc_loop_invariant [0; 4095; 70000] blinker_boot _ _).
  - discriminate.
  - repeat constructor; lia.
Defined.

(** Twelve passes at full scale (period 5). *)
Lemma adc_loop_full_scale :
  ∃ b',
    adc_loop (replicate 12 4095) blinker_boot = Some b' ∧
    ledBlinkCounter b'
      = (ledBlinkCounter blinker_boot + Z.of_nat 12) mod computed_period 4095 ∧
    length (pin_writes b')
      = (length (pin_writes blinker_boot)
         + Z.to_nat ((ledBlinkCounter blinker_boot + Z.of_nat 12)
                     / computed_period 4095))%nat ∧
    ledState b'
      = (ledState blinker_boot
         + (ledBlinkCounter blinker_boot + Z.of_nat 12) / computed_period 4095)
        mod 2.
Proof.
  refine (adc_loop_constant_reading 12 4095 blinker_boot _ _ _).
  - lia.
  - vm_compute. split; [discriminate|reflexivity].
  - left. reflexivity.
Defined.

(** A warning followed by a bus-off notification. *)
Lemma two_faults_from_boot :
  errorCount (canStats (faults [0x08; 0x80] boot))
    = errorCount (canStats boot) + Z.of_nat (length [0x08; 0x80]%Z) ∧
  lastErrorCode (canStats (faults [0x08; 0x80] boot))
    = default (lastErrorCode (canStats boot)) (last [0x08; 0x80]) ∧
  init_calls (hw (faults [0x08; 0x80] boot))
    = (init_calls (hw boot)
       + length (List.filter (λ e, c_true (Z.land e CAN_ES_BUSOFF))
                             [0x08; 0x80]%Z))%nat.
Proof.
  assert (0 ≤ errorCount (canStats boot)) as H0 by (simpl; lia).
  assert (errorCount (canStats boot) + Z.of_nat (length [0x08; 0x80]%Z)
          ≤ UINT32_MAX) as H1 by (simpl; unfold UINT32_MAX; lia).
  destruct (faults_spec [0x08; 0x80] boot H0 H1) as (E1 & E2 & E3 & _).
  split; [exact E1|]. split; [exact E2|exact E3].
Defined.


End Examples.

(** * The normal-operation build on concrete inputs *)

Section NormalBuild.

Local Existing Instance launchxl_normal.

(** An iteration of the loop of [main] during which [pattern_msg] is
    latched. *)
Lemma main_loop_frame_arrives :
  main_loop_body blank_msg 5 (Some pattern_msg :: []) boot =
    Some (if 100000 <=? 5 + 1 then 0 else 5 + 1,
          [],
          CAN_toggleLED STATUS_LED_PIN
            (after_receive
               (latch pattern_msg
                  (if 100000 <=? 5 + 1 then periodic_send boot else boot)))).
Proof.
  refine (main_loop_body_frame blank_msg 5 pattern_msg [] boot eq_refl _).
  unfold UINT32_MAX. lia.
Defined.

End NormalBuild.
